(** * Document Intelligence Core: finance table detection, analytics,
      passage chunking, passage index and chat routing.

    A shallow embedding of [finance_analysis.py], [pdf_utils.py] and
    [rag.py].  Python [str] is [string] (bytes; the ASCII fragment of the
    Unicode operations), Python [float] is the primitive binary64 [float],
    Python [int] is [Z].  Library services whose behaviour is not fixed by
    the repository ([pd.to_datetime], the sorting routine behind
    [sort_values], the faiss search) are passed in as records of
    functions. *)

From Stdlib Require Import ZArith Bool Ascii String List Lia Floats.
From Stdlib Require Import Sorting.Sorted Sorting.Permutation.
From Stdlib Require Import Numbers.DecimalString.
Import ListNotations.

Local Open Scope Z_scope.

(* ================================================================== *)
(** * Part I: definitions                                              *)
(* ================================================================== *)

(** ** Python results *)

Inductive exn : Type :=
| ValueError (msg : string)
| AssertionError (msg : string)
| AttributeError (msg : string)
| TypeError (msg : string)
| IndexError (msg : string)
| KeyError (key : string).

Inductive outcome (A : Type) : Type :=
| Returns (a : A)
| Raises (e : exn).
Arguments Returns {A} a.
Arguments Raises {A} e.

Definition obind {A B} (m : outcome A) (k : A -> outcome B) : outcome B :=
  match m with
  | Returns a => k a
  | Raises e => Raises e
  end.

(** ** Python strings *)

Module Py.

(** [str.isspace] on ASCII: TAB..CR, FS..US and SPACE; the same set is
    the regular expression class [\s]. *)
Definition isspace (c : ascii) : bool :=
  let n := Z.of_nat (nat_of_ascii c) in
  ((9 <=? n) && (n <=? 13)) || ((28 <=? n) && (n <=? 32)).

Definition isdigit (c : ascii) : bool :=
  let n := Z.of_nat (nat_of_ascii c) in
  (48 <=? n) && (n <=? 57).

Definition lower_char (c : ascii) : ascii :=
  let n := nat_of_ascii c in
  if ((65 <=? n) && (n <=? 90))%nat then ascii_of_nat (n + 32) else c.

Fixpoint lower (s : string) : string :=
  match s with
  | EmptyString => EmptyString
  | String c r => String (lower_char c) (lower r)
  end.

Fixpoint lstrip (s : string) : string :=
  match s with
  | String c r => if isspace c then lstrip r else s
  | EmptyString => EmptyString
  end.

(** [rstrip]: a character is kept when something non-blank follows or
    it is itself non-blank. *)
Fixpoint rstrip (s : string) : string :=
  match s with
  | EmptyString => EmptyString
  | String c r =>
      match rstrip r with
      | EmptyString => if isspace c then EmptyString else String c EmptyString
      | r' => String c r'
      end
  end.

Definition strip (s : string) : string := rstrip (lstrip s).

(** Python truthiness of a [str]. *)
Definition truthy (s : string) : bool :=
  match s with EmptyString => false | _ => true end.

Fixpoint filter (p : ascii -> bool) (s : string) : string :=
  match s with
  | EmptyString => EmptyString
  | String c r => if p c then String c (filter p r) else filter p r
  end.

Fixpoint existsb (p : ascii -> bool) (s : string) : bool :=
  match s with
  | EmptyString => false
  | String c r => p c || existsb p r
  end.

(** [sub in s] *)
Fixpoint contains (sub s : string) : bool :=
  String.prefix sub s ||
  match s with
  | EmptyString => false
  | String _ r => contains sub r
  end.

(** [any(k in s for k in ks)] *)
Definition contains_any (ks : list string) (s : string) : bool :=
  List.existsb (fun k => contains k s) ks.

(** [s.split()]: maximal runs of non-blank characters.  [cur] is the
    word being read, reversed. *)
Fixpoint split_ws_aux (cur : list ascii) (s : string) : list string :=
  let flush (rest : list string) :=
    match cur with
    | [] => rest
    | _ => string_of_list_ascii (rev cur) :: rest
    end in
  match s with
  | EmptyString => flush []
  | String c r =>
      if isspace c then flush (split_ws_aux [] r)
      else split_ws_aux (c :: cur) r
  end.

Definition split_ws (s : string) : list string := split_ws_aux [] s.

(** [s.split(" ")]: split at every single space, empty fields kept. *)
Fixpoint split_sp_aux (cur : list ascii) (s : string) : list string :=
  match s with
  | EmptyString => [string_of_list_ascii (rev cur)]
  | String c r =>
      if Ascii.eqb c " "%char
      then string_of_list_ascii (rev cur) :: split_sp_aux [] r
      else split_sp_aux (c :: cur) r
  end.

Definition split_sp (s : string) : list string := split_sp_aux [] s.

(** [sep.join(l)] *)
Definition join (sep : string) (l : list string) : string :=
  String.concat sep l.

(** [re.sub(r"\s+", " ", s)] *)
Fixpoint collapse_ws_aux (in_run : bool) (s : string) : string :=
  match s with
  | EmptyString => EmptyString
  | String c r =>
      if isspace c
      then (if in_run then collapse_ws_aux true r
            else String " "%char (collapse_ws_aux true r))
      else String c (collapse_ws_aux false r)
  end.

Definition collapse_ws (s : string) : string := collapse_ws_aux false s.

(** [s[a:b]] for [0 <= a <= b]. *)
Definition slice (a b : nat) (s : string) : string :=
  String.substring a (b - a) s.

End Py.

(** ** Python [float(s)]

    CPython converts a decimal string to the nearest binary64 value
    (ties to even, overflow to infinity).  [round_ratio n d] is that
    rounding of the exact quotient [n / d], carried out on integers. *)

Module PyFloat.

Definition of_Z (q : Z) : float := PrimFloat.of_uint63 (Uint63.of_Z q).

Definition round_ratio (n d : Z) : float :=
  let e0 := Z.log2 n - Z.log2 d - 53 in
  let quo e := if 0 <=? e then n / (d * 2 ^ e) else (n * 2 ^ (- e)) / d in
  let e1 := if 2 ^ 53 <=? quo e0 then e0 + 1 else e0 in
  let e := Z.max e1 (-1074) in
  let num := if 0 <=? e then n else n * 2 ^ (- e) in
  let den := if 0 <=? e then d * 2 ^ e else d in
  let q := num / den in
  let r := num mod den in
  let q' := if (den <? 2 * r) || ((den =? 2 * r) && Z.odd q) then q + 1 else q in
  Z.ldexp (of_Z q') e.

(** Value of [n / 10^k] as a float, [n >= 0]. *)
Definition of_decimal (n : Z) (k : nat) : float :=
  if n =? 0 then 0%float else round_ratio n (10 ^ Z.of_nat k).

Definition digit_val (c : ascii) : Z := Z.of_nat (nat_of_ascii c) - 48.

(** Longest prefix of decimal digits: its value (after the digits
    accumulated in [acc]), how many there are, and what follows. *)
Fixpoint read_digits (acc : Z) (cnt : nat) (s : string) : Z * nat * string :=
  match s with
  | String c r =>
      if Py.isdigit c then read_digits (10 * acc + digit_val c) (S cnt) r
      else (acc, cnt, s)
  | EmptyString => (acc, cnt, s)
  end.

(** Unsigned part: [digits], [digits.], [digits.digits] or [.digits]. *)
Definition parse_unsigned (s : string) : option float :=
  let '(ip, ni, rest) := read_digits 0 0%nat s in
  match rest with
  | EmptyString => if (ni =? 0)%nat then None else Some (of_decimal ip 0)
  | String c rest' =>
      if Ascii.eqb c "."%char then
        let '(m, nf, rest'') := read_digits ip 0%nat rest' in
        match rest'' with
        | EmptyString =>
            if ((ni + nf)%nat =? 0)%nat then None else Some (of_decimal m nf)
        | _ => None
        end
      else None
  end.

(** [float(s)] for a string without blanks, letters or underscores:
    an optional sign and an unsigned decimal; [None] is [ValueError]. *)
Definition parse (s : string) : option float :=
  match s with
  | String c r =>
      if Ascii.eqb c "-"%char then option_map PrimFloat.opp (parse_unsigned r)
      else if Ascii.eqb c "+"%char then parse_unsigned r
      else parse_unsigned s
  | EmptyString => None
  end.

End PyFloat.

(** * finance_analysis.py *)

(** A grid cell as the table extractor delivers it. *)
Definition cell : Type := option string.

(** Timestamps are nanoseconds since 1970-01-01T00:00 (no time zone). *)
Definition Timestamp : Type := Z.

(** The objects [_to_number] is applied to: a raw cell, or an element of
    a column already converted by [pd.to_datetime]. *)
Inductive pyobj : Type :=
| PyNone
| PyStr (s : string)
| PyTimestamp (t : Timestamp)
| PyNaT.

(** ** Calendar arithmetic behind [Timestamp] *)

Module Calendar.

Definition ns_per_second : Z := 1000000000.
Definition ns_per_hour : Z := 3600 * ns_per_second.
Definition ns_per_day : Z := 86400 * ns_per_second.

(** Days since 1970-01-01 of the first day of month number [k], where
    [k = 12 * year + (month - 1)] in the proleptic Gregorian calendar.
    Years are counted from March so that the leap day comes last. *)
Definition days_of_month_start (k : Z) : Z :=
  let j := k - 2 in
  let y := j / 12 in
  let mp := j mod 12 in
  let era := y / 400 in
  let yoe := y mod 400 in
  let doy := (153 * mp + 2) / 5 in
  era * 146097 + (yoe * 365 + yoe / 4 - yoe / 100 + doy) - 719468.

Definition days_from_civil (y m d : Z) : Z :=
  days_of_month_start (12 * y + (m - 1)) + (d - 1).

Definition days_in_month (k : Z) : Z :=
  days_of_month_start (k + 1) - days_of_month_start k.

(** Month number [12 * year + (month - 1)] of a day count. *)
Definition month_of_days (z : Z) : Z :=
  let z := z + 719468 in
  let era := z / 146097 in
  let doe := z mod 146097 in
  let yoe := (doe - doe / 1460 + doe / 36524 - doe / 146096) / 365 in
  let doy := doe - (365 * yoe + yoe / 4 - yoe / 100) in
  let mp := (5 * doy + 2) / 153 in
  12 * (era * 400 + yoe) + mp + 2.

Definition day_of_month (z : Z) : Z :=
  z - days_of_month_start (month_of_days z) + 1.

(** [w] decimal digits of [n], most significant first. *)
Fixpoint fixed (w : nat) (n : Z) : string :=
  match w with
  | O => EmptyString
  | S w' =>
      String (ascii_of_nat (48 + Z.to_nat ((n / 10 ^ Z.of_nat w') mod 10)))
             (fixed w' n)
  end.

(** [str(ts)] for a pandas [Timestamp]: [YYYY-MM-DD HH:MM:SS], followed
    by six or nine fractional digits when the fraction is not zero. *)
Definition timestamp_str (t : Timestamp) : string :=
  let days := t / ns_per_day in
  let ns := t mod ns_per_day in
  let k := month_of_days days in
  let secs := ns / ns_per_second in
  let frac := ns mod ns_per_second in
  let date := (fixed 4 (k / 12) ++ "-" ++ fixed 2 (k mod 12 + 1) ++ "-"
               ++ fixed 2 (day_of_month days))%string in
  let time := (fixed 2 (secs / 3600) ++ ":" ++ fixed 2 (secs / 60 mod 60)
               ++ ":" ++ fixed 2 (secs mod 60))%string in
  let fraction :=
    if frac =? 0 then EmptyString
    else if frac mod 1000 =? 0 then ("." ++ fixed 6 (frac / 1000))%string
    else ("." ++ fixed 9 frac)%string in
  (date ++ " " ++ time ++ fraction)%string.

End Calendar.

(** ** Numeric coercion *)

Definition py_str (x : pyobj) : string :=
  match x with
  | PyNone => "None"
  | PyStr s => s
  | PyTimestamp t => Calendar.timestamp_str t
  | PyNaT => "NaT"
  end.

(** [s.replace(c, empty)] for a one-character [c]. *)
Definition remove_char (c : ascii) (s : string) : string :=
  Py.filter (fun x => negb (Ascii.eqb x c)) s.

(** The characters that [re.sub] leaves when it deletes everything
    outside the class of digits, point, minus and plus. *)
Definition numeric_char (c : ascii) : bool :=
  Py.isdigit c || Ascii.eqb c "."%char || Ascii.eqb c "-"%char
  || Ascii.eqb c "+"%char.

Definition _to_number (x : pyobj) : option float :=
  match x with
  | PyNone => None
  | _ =>
      let s := Py.strip (py_str x) in
      if negb (Py.truthy s) then None
      else
        let neg := Py.contains "(" s && Py.contains ")" s in
        let s := remove_char "," (remove_char "$" s) in
        let s := Py.filter numeric_char s in
        if negb (Py.truthy s) then None
        else
          match PyFloat.parse s with
          | Some v => Some (if neg then (- abs v)%float else v)
          | None => None
          end
  end.

(** ** Frames *)

(** [df]: the frame built from a raw grid; every column holds objects
    (text or [None]), and a label may be carried by several columns. *)
Record DataFrame : Type := {
  columns : list string;
  values : list (list cell)
}.

Definition RawGrid : Type := list (list cell).

(** The first column that carries label [c]. *)
Fixpoint col_index (c : string) (cols : list string) : option nat :=
  match cols with
  | [] => None
  | x :: r => if String.eqb x c then Some 0%nat
              else option_map S (col_index c r)
  end.

(** All the columns that carry label [c], counted from [i]. *)
Fixpoint positions (c : string) (cols : list string) (i : nat) : list nat :=
  match cols with
  | [] => []
  | x :: r => if String.eqb x c then i :: positions c r (S i)
              else positions c r (S i)
  end.

(** How many columns carry label [c]. *)
Definition occurrences (c : string) (cols : list string) : nat :=
  length (positions c cols 0).

(** [frame[c]]: a series when one column carries the label, a frame of
    all the columns that carry it when several do ([rows] are its
    rows); without such a column pandas raises [KeyError]. *)
Inductive selection : Type :=
| Series (s : list cell)
| Frame (rows : list (list cell))
| Missing.

Definition select (cols : list string) (rows : list (list cell))
    (c : string) : selection :=
  match positions c cols 0 with
  | [] => Missing
  | [i] => Series (map (fun r => nth i r None) rows)
  | several => Frame (map (fun r => map (fun i => nth i r None) several) rows)
  end.

(** [df[c]] *)
Definition column (df : DataFrame) (c : string) : selection :=
  select (columns df) (values df) c.

(** [pd.DataFrame(body, columns=header)]: the rows are padded with
    [None] to the length of the longest one; that length has to be the
    number of labels, otherwise pandas raises [ValueError]. *)
Definition mk_DataFrame (body : list (list cell)) (header : list string)
    : outcome DataFrame :=
  let k := fold_right Nat.max 0%nat (map (@length cell) body) in
  if (k =? length header)%nat
  then Returns {| columns := header;
                  values := map (fun r => r ++ repeat None (k - length r)) body |}
  else Raises (ValueError "columns passed and columns of the data differ").

Definition isna_ts (x : option Timestamp) : bool :=
  match x with None => true | Some _ => false end.

Definition isna (x : cell) : bool :=
  match x with None => true | Some _ => false end.

(** [frame.dropna()]: the rows without a missing cell. *)
Definition complete_rows (rows : list (list cell)) : list (list cell) :=
  filter (forallb (fun x => negb (isna x))) rows.

(** [df.dropna(how="all")] *)
Definition dropna_all (df : DataFrame) : DataFrame :=
  {| columns := columns df;
     values := filter (fun r => negb (forallb isna r)) (values df) |}.

(** [series.dropna().astype(str)] on an object column *)
Fixpoint dropna (s : list cell) : list string :=
  match s with
  | [] => []
  | Some x :: r => x :: dropna r
  | None :: r => dropna r
  end.

(** [df2]: the validated frame.  Its datetime column holds timestamps
    and its amount column numbers of type [N]; [cells] are the cells of
    the raw row, read for every other column. *)
Record LedgerRow (N : Type) : Type := {
  when : Timestamp;
  amount : N;
  cells : list cell
}.
Arguments when {N} _.
Arguments amount {N} _.
Arguments cells {N} _.

Record Ledger (N : Type) : Type := {
  ledger_columns : list string;
  ledger_rows : list (LedgerRow N)
}.
Arguments ledger_columns {N} _.
Arguments ledger_rows {N} _.

Record FinanceParseResult (N : Type) : Type := {
  df : Ledger N;
  datetime_col : string;
  amount_col : string;
  category_col : option string
}.
Arguments df {N} _.
Arguments datetime_col {N} _.
Arguments amount_col {N} _.
Arguments category_col {N} _.

(** [len(parsed.df)] *)
Definition nrows {N} (p : FinanceParseResult N) : nat :=
  length (ledger_rows (df p)).

(** What [parse_financial_tables] returns.  Its amount label is carried
    by one column, whose numbers are the [amount]s of the rows: the
    results the functions below are applied to.  Or the label is carried
    by several columns, all of them converted, and a row holds the
    numbers of all of them. *)
Inductive Parsed : Type :=
| OneAmount (r : FinanceParseResult float)
| ManyAmounts (r : FinanceParseResult (list float)).

Definition parsed_rows (x : Parsed) : nat :=
  match x with OneAmount r => nrows r | ManyAmounts r => nrows r end.

Definition parsed_labels (x : Parsed) : list string :=
  match x with
  | OneAmount r => ledger_columns (df r)
  | ManyAmounts r => ledger_columns (df r)
  end.

Definition parsed_datetime_col (x : Parsed) : string :=
  match x with OneAmount r => datetime_col r | ManyAmounts r => datetime_col r end.

Definition parsed_amount_col (x : Parsed) : string :=
  match x with OneAmount r => amount_col r | ManyAmounts r => amount_col r end.

Definition parsed_category_col (x : Parsed) : option string :=
  match x with OneAmount r => category_col r | ManyAmounts r => category_col r end.

(** ** Library services *)

(** What the parser takes from the installed pandas.
    [pd.to_datetime(series, errors="coerce")]: one result per element,
    [None] for [NaT].  [frame_map]: whether frames have the method
    [map] (they have from pandas 2.1 on; before, asking for it raises
    [AttributeError]). *)
Record DatetimeParser : Type := {
  to_datetime : list cell -> list (option Timestamp);
  to_datetime_length : forall l, length (to_datetime l) = length l;
  frame_map : bool
}.

(** The routine behind [sort_values]: pandas' default [kind="quicksort"]
    promises an ordered rearrangement and nothing about the order of equal
    keys.  [le] is the comparison of the sort keys. *)
Record Sorter : Type := {
  sort : forall A : Type, (A -> A -> bool) -> list A -> list A;
  sort_perm : forall A le l, Permutation (sort A le l) l;
  sort_sorted : forall A (le : A -> A -> bool) l,
      (forall x y, In x l -> In y l -> le x y = false -> le y x = true) ->
      (forall x y z, In x l -> In y l -> In z l ->
                     le x y = true -> le y z = true -> le x z = true) ->
      Sorted (fun x y => le x y = true) (sort A le l)
}.

(** [sort_values(by, ascending=...)]: for a descending sort pandas
    reverses the input, sorts ascending and reverses the outcome. *)
Definition sort_values (S : Sorter) {A} (le : A -> A -> bool)
    (ascending : bool) (l : list A) : list A :=
  if ascending then sort S A le l else rev (sort S A le (rev l)).

(** ** Column role detection *)

Definition _DATE_HINTS : list string :=
  ["date"; "time"; "datetime"; "timestamp"]%string.
Definition _AMOUNT_HINTS : list string :=
  ["amount"; "amt"; "value"; "total"; "debit"; "credit"; "payment";
   "balance"]%string.
Definition _CATEGORY_HINTS : list string :=
  ["category"; "type"; "merchant"; "description"; "desc"; "account"]%string.

Definition _normalize_col (c : string) : string :=
  Py.collapse_ws (Py.lower (Py.strip c)).

(** Keys of the dict [{c: ... for c in cols}]: a repeated label keeps
    the place of its first occurrence. *)
Fixpoint dict_keys (seen cols : list string) : list string :=
  match cols with
  | [] => []
  | c :: r =>
      if existsb (String.eqb c) seen then dict_keys seen r
      else c :: dict_keys (c :: seen) r
  end.

Fixpoint first_some {A B} (f : A -> option B) (l : list A) : option B :=
  match l with
  | [] => None
  | x :: r => match f x with Some y => Some y | None => first_some f r end
  end.

Definition _best_col (cols hints : list string) : option string :=
  let norm := map (fun c => (c, _normalize_col c)) (dict_keys [] cols) in
  first_some
    (fun h => option_map fst (find (fun p => Py.contains h (snd p)) norm))
    hints.

(** [if hinted:] *)
Definition truthy_opt (x : option string) : bool :=
  match x with Some c => Py.truthy c | None => false end.

(** [_AMOUNT_RE.search(s)]: every part of the pattern but [\d{1,3}] may
    match the empty string, so a match exists exactly when [s] has a
    digit. *)
Definition amount_like (s : string) : bool := Py.existsb Py.isdigit s.

(** Mean of a boolean series: [hits] ones among [n] values. *)
Definition ratio (hits n : nat) : float :=
  (PyFloat.of_Z (Z.of_nat hits) / PyFloat.of_Z (Z.of_nat n))%float.

(** The literals [0.3] and [0.2] as binary64 values. *)
Definition f0_3 : float := 0x1.3333333333333p-2%float.
Definition f0_2 : float := 0x1.999999999999ap-3%float.

Definition count_true {A} (p : A -> bool) (l : list A) : nat :=
  length (filter p l).

(** What pandas raises where the code treats a frame as a series. *)
Definition duplicate_keys : exn :=
  ValueError "cannot assemble with duplicate keys".
Definition frame_has_no_str : exn :=
  AttributeError "'DataFrame' object has no attribute 'str'".
Definition frame_has_no_map : exn :=
  AttributeError "'DataFrame' object has no attribute 'map'".
Definition ambiguous_truth : exn :=
  ValueError "The truth value of a Series is ambiguous. Use a.empty, a.bool(), a.item(), a.any() or a.all().".

(** The loops over the columns: a state, or the exception raised on
    the way. *)
Definition scan {St} (step : St -> string -> outcome St)
    (cols : list string) (start : St) : outcome St :=
  fold_left (fun st c => obind st (fun st => step st c)) cols (Returns start).

(** A column that several labels share is a frame: its rows without a
    missing cell are taken ([.dropna()]), and [.str] fails on them
    unless none is left ([continue]). *)
Definition _detect_amount_col (df : DataFrame) : outcome (option string) :=
  let cols := columns df in
  let hinted := _best_col cols _AMOUNT_HINTS in
  if truthy_opt hinted then Returns hinted
  else
    let step (st : option string * float) (c : string) :=
      match column df c with
      | Series s =>
          let series := dropna s in
          match series with
          | [] => Returns st
          | _ =>
              let hits :=
                ratio (count_true amount_like series) (length series) in
              Returns (if (snd st <? hits)%float then (Some c, hits) else st)
          end
      | Frame rows =>
          match complete_rows rows with
          | [] => Returns st
          | _ => Raises frame_has_no_str
          end
      | Missing => Raises (KeyError c)
      end in
    obind (scan step cols (None, 0%float)) (fun st =>
      Returns (if (f0_3 <=? snd st)%float then fst st else None)).

(** [pd.to_datetime] of a frame raises. *)
Definition _detect_datetime_col (P : DatetimeParser) (df : DataFrame)
    : outcome (option string) :=
  let cols := columns df in
  let hinted := _best_col cols _DATE_HINTS in
  if truthy_opt hinted then Returns hinted
  else
    let step (st : option string * float) (c : string) :=
      match column df c with
      | Series s =>
          let parsed := to_datetime P s in
          let rate := ratio (count_true (fun x => negb (isna_ts x)) parsed)
                            (length parsed) in
          Returns (if (snd st <? rate)%float then (Some c, rate) else st)
      | Frame _ => Raises duplicate_keys
      | Missing => Raises (KeyError c)
      end in
    obind (scan step cols (None, 0%float)) (fun st =>
      Returns (if (f0_3 <=? snd st)%float then fst st else None)).

(** [df2[c]] for a column that is neither the datetime nor the amount
    column. *)
Definition ledger_column {N} (lf : Ledger N) (c : string) : selection :=
  select (ledger_columns lf) (map cells (ledger_rows lf)) c.

(** [s.nunique()] *)
Fixpoint nunique (seen s : list string) : nat :=
  match s with
  | [] => 0%nat
  | x :: r =>
      if existsb (String.eqb x) seen then nunique seen r
      else S (nunique (x :: seen) r)
  end.

(** On a frame [score] is a series, and [if score > best_score] asks
    for its truth value. *)
Definition _detect_category_col {N} (lf : Ledger N) (exclude : list string)
    : outcome (option string) :=
  let cols := filter (fun c => negb (existsb (String.eqb c) exclude))
                     (ledger_columns lf) in
  let hinted := _best_col cols _CATEGORY_HINTS in
  if truthy_opt hinted then Returns hinted
  else
    let step (st : option string * float) (c : string) :=
      match ledger_column lf c with
      | Series col =>
          let s := dropna col in
          match s with
          | [] => Returns st
          | _ =>
              let ratio := ratio (nunique [] s) (Nat.max 1 (length s)) in
              let score := (1 - abs (ratio - f0_2))%float in
              Returns (if (snd st <? score)%float then (Some c, score) else st)
          end
      | Frame rows =>
          match complete_rows rows with
          | [] => Returns st
          | _ => Raises ambiguous_truth
          end
      | Missing => Raises (KeyError c)
      end in
    obind (scan step cols (None, 0%float)) (fun st => Returns (fst st)).

(** ** Table candidate selection *)

(** [str(x or empty).strip()] *)
Definition header_label (x : cell) : string :=
  Py.strip (match x with Some s => s | None => EmptyString end).

Definition obj_of_cell (x : cell) : pyobj :=
  match x with Some s => PyStr s | None => PyNone end.

Definition obj_of_ts (x : option Timestamp) : pyobj :=
  match x with Some t => PyTimestamp t | None => PyNaT end.

(** Rows of [df2] after [dropna(subset=[dt_col, amt_col])]. *)
Fixpoint validated_rows {N} (rows : list (list cell))
    (dts : list (option Timestamp)) (amts : list (option N))
    : list (LedgerRow N) :=
  match rows, dts, amts with
  | r :: rows', d :: dts', a :: amts' =>
      match d, a with
      | Some t, Some v =>
          {| when := t; amount := v; cells := r |}
            :: validated_rows rows' dts' amts'
      | _, _ => validated_rows rows' dts' amts'
      end
  | _, _, _ => []
  end.

(** The numbers of a row of amount columns, when none is missing. *)
Fixpoint all_numbers (l : list (option float)) : option (list float) :=
  match l with
  | [] => Some []
  | Some x :: r => option_map (cons x) (all_numbers r)
  | None :: _ => None
  end.

(** The end of a turn of the loop, from [dropna(subset=...)] on, for
    the timestamps and the amounts of the rows. *)
Definition validated {N} (df1 : DataFrame) (dt amt : string)
    (dts : list (option Timestamp)) (amts : list (option N))
    : outcome (option (FinanceParseResult N)) :=
  let df2 := {| ledger_columns := columns df1;
                ledger_rows := validated_rows (values df1) dts amts |} in
  if (length (ledger_rows df2) <? 3)%nat then Returns None
  else
    obind (_detect_category_col df2 [dt; amt]) (fun cat_col =>
      Returns (Some {| df := df2; datetime_col := dt; amount_col := amt;
                       category_col := cat_col |})).

Definition as_parsed {N} (kind : FinanceParseResult N -> Parsed)
    (m : outcome (option (FinanceParseResult N))) : outcome (option Parsed) :=
  obind m (fun r => Returns (option_map kind r)).

(** One turn of the loop of [parse_financial_tables]: [None] when the
    grid is passed over ([continue]), the candidate otherwise.  The
    datetime column is converted first and has to be a series; the
    amount column is mapped next, as a series, or column by column
    where the label is shared and frames have [map]. *)
Definition candidate_of (P : DatetimeParser) (t : RawGrid)
    : outcome (option Parsed) :=
  match t with
  | [] | [_] => Returns None
  | row0 :: body =>
      let header := map header_label row0 in
      if (count_true Py.truthy header <? 2)%nat then Returns None
      else
        obind (mk_DataFrame body header) (fun df0 =>
          let df1 := dropna_all df0 in
          if (length (values df1) <? 3)%nat then Returns None
          else
            obind (_detect_datetime_col P df1) (fun dt_col =>
            obind (_detect_amount_col df1) (fun amt_col =>
            match dt_col, amt_col with
            | Some dt, Some amt =>
                if negb (Py.truthy dt) || negb (Py.truthy amt)
                then Returns None
                else
                  match column df1 dt with
                  | Missing => Raises (KeyError dt)
                  | Frame _ => Raises duplicate_keys
                  | Series dates =>
                      let dts := to_datetime P dates in
                      if String.eqb dt amt
                      then as_parsed OneAmount
                             (validated df1 dt amt dts
                                (map _to_number (map obj_of_ts dts)))
                      else
                        match column df1 amt with
                        | Missing => Raises (KeyError amt)
                        | Series texts =>
                            as_parsed OneAmount
                              (validated df1 dt amt dts
                                 (map _to_number (map obj_of_cell texts)))
                        | Frame rows =>
                            if frame_map P
                            then as_parsed ManyAmounts
                                   (validated df1 dt amt dts
                                      (map (fun r =>
                                              all_numbers
                                                (map (fun x =>
                                                        _to_number
                                                          (obj_of_cell x))
                                                     r))
                                           rows))
                            else Raises frame_has_no_map
                        end
                  end
            | _, _ => Returns None
            end)))
  end.

(** The loop, with its two variables [best] and [best_rows]. *)
Fixpoint parse_loop (P : DatetimeParser) (tables : list RawGrid)
    (best : option Parsed) (best_rows : nat) : outcome (option Parsed) :=
  match tables with
  | [] => Returns best
  | t :: rest =>
      match candidate_of P t with
      | Raises e => Raises e
      | Returns None => parse_loop P rest best best_rows
      | Returns (Some candidate) =>
          if (best_rows <? parsed_rows candidate)%nat
          then parse_loop P rest (Some candidate) (parsed_rows candidate)
          else parse_loop P rest best best_rows
      end
  end.

Definition parse_financial_tables (P : DatetimeParser)
    (tables : list RawGrid) : outcome (option Parsed) :=
  parse_loop P tables None 0%nat.

(** ** Arithmetic of the amount column *)

Record Arith (N : Type) : Type := {
  zero : N;
  add : N -> N -> N;
  sub : N -> N -> N;
  div : N -> N -> N;
  absv : N -> N;
  ltb : N -> N -> bool;
  leb : N -> N -> bool;
  isnan : N -> bool;
  of_count : nat -> N
}.
Arguments zero {N} _.
Arguments add {N} _ _ _.
Arguments sub {N} _ _ _.
Arguments div {N} _ _ _.
Arguments absv {N} _ _.
Arguments ltb {N} _ _ _.
Arguments leb {N} _ _ _.
Arguments isnan {N} _ _.
Arguments of_count {N} _ _.

(** What the program runs on: IEEE 754 binary64. *)
Definition binary64 : Arith float := {|
  zero := 0%float;
  add := PrimFloat.add;
  sub := PrimFloat.sub;
  div := PrimFloat.div;
  absv := PrimFloat.abs;
  ltb := PrimFloat.ltb;
  leb := PrimFloat.leb;
  isnan := PrimFloat.is_nan;
  of_count := fun n => PyFloat.of_Z (Z.of_nat n)
|}.

(** ** Analytics *)

Section Analytics.

Context {N : Type} (A : Arith N).

(** The additions of numpy's [sum] (its pairwise summation, numpy 1.25
    and later).  Fewer than eight numbers are added from left to right.
    Up to 128 numbers are added in eight interleaved running sums
    [r[0]] to [r[7]], which are then added in pairs, and the numbers
    left over after the last full row of eight follow one by one.  A
    longer array is cut in two, the first part a multiple of eight
    long, and the sums of the parts are added. *)
Definition add_all (start : N) (l : list N) : N := fold_left (add A) l start.

Fixpoint add_row (r row : list N) : list N :=
  match r, row with
  | x :: r', y :: row' => add A x y :: add_row r' row'
  | _, _ => r
  end.

Fixpoint add_rows (k : nat) (r l : list N) : list N * list N :=
  match k with
  | O => (r, l)
  | S k' => add_rows k' (add_row r (firstn 8 l)) (skipn 8 l)
  end.

Definition add_pairs (r : list N) : N :=
  match r with
  | [r0; r1; r2; r3; r4; r5; r6; r7] =>
      add A (add A (add A r0 r1) (add A r2 r3))
            (add A (add A r4 r5) (add A r6 r7))
  | _ => add_all (zero A) r
  end.

Definition block_sum (l : list N) : N :=
  let '(r, rest) := add_rows (length l / 8 - 1) (firstn 8 l) (skipn 8 l) in
  add_all (add_pairs r) rest.

Fixpoint pairwise_sum (fuel : nat) (l : list N) : N :=
  let n := length l in
  if (n <? 8)%nat then
    match l with [] => zero A | x :: r => add_all x r end
  else if (n <=? 128)%nat then block_sum l
  else
    match fuel with
    | O => block_sum l
    | S fuel' =>
        let n2 := (n / 2 - (n / 2) mod 8)%nat in
        add A (pairwise_sum fuel' (firstn n2 l))
              (pairwise_sum fuel' (skipn n2 l))
    end.

(** [s.sum()]: pandas puts zero in the place of the values that are
    not numbers and hands the array to numpy; an array is cut in two
    fewer times than it has elements. *)
Definition series_sum (s : list N) : N :=
  pairwise_sum (length s) (map (fun x => if isnan A x then zero A else x) s).

(** [s.mean()] *)
Definition series_mean (s : list N) : N :=
  div A (series_sum s)
        (of_count A (count_true (fun x => negb (isnan A x)) s)).

(** [s[s > 0]] and [s[s < 0]] *)
Definition positive (x : N) : bool := ltb A (zero A) x.
Definition negative (x : N) : bool := ltb A x (zero A).

Definition amounts (p : FinanceParseResult N) : list N :=
  map amount (ledger_rows (df p)).

Record Totals : Type := {
  rows : nat;
  sum : N;
  income_sum_pos : N;
  expense_sum_neg : N;
  mean : N
}.

Definition totals (p : FinanceParseResult N) : Totals :=
  let s := amounts p in
  {| rows := nrows p;
     sum := series_sum s;
     income_sum_pos := series_sum (filter positive s);
     expense_sum_neg := series_sum (filter negative s);
     mean := series_mean s |}.

(** The entries of [advanced_summary] that are sums, means and counts
    (its [median], [std], [min] and [max] are left out). *)
Record Summary : Type := {
  s_rows : N;
  net_sum : N;
  abs_sum : N;
  s_income_sum_pos : N;
  s_expense_sum_neg : N;
  s_mean : N;
  income_count : N;
  expense_count : N
}.

Definition advanced_summary (p : FinanceParseResult N) : Summary :=
  let s := amounts p in
  let pos := filter positive s in
  let neg := filter negative s in
  {| s_rows := of_count A (length s);
     net_sum := series_sum s;
     abs_sum := series_sum (map (absv A) s);
     s_income_sum_pos := match pos with [] => zero A | _ => series_sum pos end;
     s_expense_sum_neg := match neg with [] => zero A | _ => series_sum neg end;
     s_mean := match s with [] => zero A | _ => series_mean s end;
     income_count := of_count A (length pos);
     expense_count := of_count A (length neg) |}.

(** *** Time buckets *)

Inductive Freq : Type := Hourly | Daily | Monthly.

(** Number of the period a timestamp falls in: hours or days since the
    epoch, or the month number. *)
Definition period_ordinal (f : Freq) (t : Timestamp) : Z :=
  match f with
  | Hourly => t / Calendar.ns_per_hour
  | Daily => t / Calendar.ns_per_day
  | Monthly => Calendar.month_of_days (t / Calendar.ns_per_day)
  end.

(** The timestamp [resample] labels a period with: its start for ["H"]
    and ["D"], its last day for ["M"]. *)
Definition period_label (f : Freq) (k : Z) : Timestamp :=
  match f with
  | Hourly => k * Calendar.ns_per_hour
  | Daily => k * Calendar.ns_per_day
  | Monthly => (Calendar.days_of_month_start (k + 1) - 1) * Calendar.ns_per_day
  end.

(** The per-bin sum of [resample(...).sum()]: compensated (Kahan)
    summation in row order; a compensation that is not a number is reset. *)
Definition kahan_step (st : N * N) (val : N) : N * N :=
  if isnan A val then st
  else
    let y := sub A val (snd st) in
    let t := add A (fst st) y in
    let c := sub A (sub A t (fst st)) y in
    (t, if isnan A c then zero A else c).

Definition group_sum (vals : list N) : N :=
  fst (fold_left kahan_step vals (zero A, zero A)).

Record Bucket : Type := {
  period : Timestamp;
  total_amount : N;
  abs_total : N
}.

(** [lo; lo+1; ...; hi] *)
Definition zrange (lo hi : Z) : list Z :=
  map (fun i => lo + Z.of_nat i) (seq 0 (Z.to_nat (hi - lo + 1))).

Definition by_when (x y : LedgerRow N) : bool := when x <=? when y.

(** Rows of the sorted frame that fall into period [k]. *)
Definition bin_rows (f : Freq) (k : Z) (rows : list (LedgerRow N))
    : list (LedgerRow N) :=
  filter (fun r => period_ordinal f (when r) =? k) rows.

(** [resample(freq).sum()] lays a regular grid of periods from the
    earliest to the latest timestamp and sums every period of the grid,
    also those no row falls in. *)
Definition aggregate_finance (S : Sorter) (p : FinanceParseResult N)
    (freq : Freq) : list Bucket :=
  let sorted := sort_values S by_when true (ledger_rows (df p)) in
  match map (fun r => period_ordinal freq (when r)) sorted with
  | [] => []
  | k0 :: ks =>
      let lo := fold_left Z.min ks k0 in
      let hi := fold_left Z.max ks k0 in
      map (fun k =>
             let total := group_sum (map amount (bin_rows freq k sorted)) in
             {| period := period_label freq k;
                total_amount := total;
                abs_total := absv A total |})
          (zrange lo hi)
  end.

(** *** Largest transactions *)

(** [frame.head(n)]: the first [n] rows, or all but the last [-n] when
    [n] is negative. *)
Definition head {X} (n : Z) (l : list X) : list X :=
  if 0 <=? n then firstn (Z.to_nat n) l
  else firstn (length l - Z.to_nat (- n)) l.

(** A row of [df[cols]]: datetime, amount and, when the category label
    is set and present, the cells of the columns that carry it. *)
Record Transaction : Type := {
  tx_when : Timestamp;
  tx_amount : N;
  tx_category : list cell
}.

Definition by_tx_when (x y : Transaction) : bool := tx_when x <=? tx_when y.
Definition by_tx_amount (x y : Transaction) : bool :=
  leb A (tx_amount x) (tx_amount y).

Definition base_rows (S : Sorter) (p : FinanceParseResult N)
    : list Transaction :=
  let cat_columns :=
    match category_col p with
    | Some c => if Py.truthy c then positions c (ledger_columns (df p)) 0
                else []
    | None => []
    end in
  let project (r : LedgerRow N) :=
    {| tx_when := when r; tx_amount := amount r;
       tx_category := map (fun i => nth i (cells r) None) cat_columns |} in
  sort_values S by_tx_when true (map project (ledger_rows (df p))).

Definition top_transactions (S : Sorter) (p : FinanceParseResult N) (n : Z)
    : list Transaction * list Transaction :=
  let base := base_rows S p in
  let income :=
    head n (sort_values S by_tx_amount false
                        (filter (fun r => positive (tx_amount r)) base)) in
  let expense :=
    head n (sort_values S by_tx_amount true
                        (filter (fun r => negative (tx_amount r)) base)) in
  (income, expense).

End Analytics.

Arguments Totals : clear implicits.
Arguments Summary : clear implicits.
Arguments Bucket : clear implicits.
Arguments Transaction : clear implicits.
Arguments rows {N} _.
Arguments sum {N} _.
Arguments income_sum_pos {N} _.
Arguments expense_sum_neg {N} _.
Arguments mean {N} _.
Arguments net_sum {N} _.
Arguments s_income_sum_pos {N} _.
Arguments s_expense_sum_neg {N} _.
Arguments period {N} _.
Arguments total_amount {N} _.
Arguments abs_total {N} _.
Arguments tx_when {N} _.
Arguments tx_amount {N} _.
Arguments tx_category {N} _.

(** * pdf_utils.py *)

(** A loop run with a bound on the number of turns. *)
Inductive run (A : Type) : Type :=
| Finished (a : A)
| OutOfFuel.
Arguments Finished {A} a.
Arguments OutOfFuel {A}.

Definition strlen (s : string) : Z := Z.of_nat (String.length s).

(** The [while] loop of [chunk_text]; one unit of [fuel] per turn. *)
Fixpoint chunk_loop (fuel : nat) (text : string) (chunk_size overlap : Z)
    (start : Z) (chunks : list string) : run (list string) :=
  match fuel with
  | O => OutOfFuel
  | S fuel' =>
      if start <? strlen text then
        let end_ := Z.min (strlen text) (start + chunk_size) in
        let chunks' :=
          chunks ++ [Py.slice (Z.to_nat start) (Z.to_nat end_) text] in
        if end_ =? strlen text then Finished chunks'
        else chunk_loop fuel' text chunk_size overlap
                        (Z.max 0 (end_ - overlap)) chunks'
      else Finished chunks
  end.

Definition chunk_text (fuel : nat) (text : string) (chunk_size overlap : Z)
    : outcome (run (list string)) :=
  if chunk_size <=? 0 then Raises (ValueError "chunk_size must be > 0")
  else if overlap <? 0 then Raises (ValueError "overlap must be >= 0")
  else
    let text := Py.join " " (Py.split_ws text) in
    if negb (Py.truthy text) then Returns (Finished [])
    else Returns (chunk_loop fuel text chunk_size overlap 0 []).

(** * rag.py *)

(** ** FaissIndex *)

Definition vector : Type := list float.

(** A two-dimensional array: [shape[0]] is the number of rows. *)
Record ndarray : Type := {
  shape1 : nat;
  vecs : list vector
}.

Definition shape0 (a : ndarray) : nat := length (vecs a).

Record RetrievedPassage : Type := {
  text : string;
  score : float
}.

(** [_index] is the flat inner-product index: its dimension and the
    vectors stored so far. *)
Record FaissIndex : Type := {
  index_d : nat;
  _index : list vector;
  _passages : list string
}.

Definition FaissIndex_init (dim : nat) : FaissIndex :=
  {| index_d := dim; _index := []; _passages := [] |}.

Definition size (self : FaissIndex) : nat := length (_passages self).

(** [add]: the result and the index afterwards.  faiss refuses vectors
    of another dimension before it stores anything. *)
Definition FaissIndex_add (self : FaissIndex) (vectors : ndarray)
    (passages : list string) : outcome unit * FaissIndex :=
  if negb (length passages =? shape0 vectors)%nat
  then (Raises (ValueError "passages and vectors must have same length"), self)
  else if negb (shape1 vectors =? index_d self)%nat
  then (Raises (AssertionError "d == self.d"), self)
  else (Returns tt,
        {| index_d := index_d self;
           _index := _index self ++ vecs vectors;
           _passages := _passages self ++ passages |}).

(** The search of the flat index: for a query and [top_k], the scores
    and positions found, position [-1] where there is none. *)
Record Faiss : Type := {
  index_search : list vector -> vector -> Z -> list (float * Z)
}.

Definition FaissIndex_search (F : Faiss) (self : FaissIndex)
    (query_vector : vector) (top_k : Z)
    : list RetrievedPassage * FaissIndex :=
  let hits := index_search F (_index self) query_vector top_k in
  let keep (h : float * Z) :=
    let idx := snd h in
    if (idx <? 0) || (Z.of_nat (length (_passages self)) <=? idx) then []
    else [{| text := nth (Z.to_nat idx) (_passages self) EmptyString;
             score := fst h |}] in
  (flat_map keep hits, self).

(** States of an index in use. *)
Inductive reachable (F : Faiss) : FaissIndex -> Prop :=
| reach_init : forall dim, reachable F (FaissIndex_init dim)
| reach_add : forall s v p,
    reachable F s -> reachable F (snd (FaissIndex_add s v p))
| reach_search : forall s q k,
    reachable F s -> reachable F (snd (FaissIndex_search F s q k)).

(** ** Question normalisation and intent *)

Definition _COMMON_CORRECTIONS : list (string * string) :=
  [("wther", "whether"); ("wether", "whether"); ("finacial", "financial");
   ("finanicial", "financial"); ("summery", "summary");
   ("sumarize", "summarize"); ("summarise", "summarize")]%string.

(** [d.get(k, default)] *)
Fixpoint dict_get (d : list (string * string)) (k default : string) : string :=
  match d with
  | [] => default
  | (k', v) :: r => if String.eqb k' k then v else dict_get r k default
  end.

Definition normalize_user_question (question : string) : string :=
  let q := Py.join " " (Py.split_ws (Py.strip question)) in
  if negb (Py.truthy q) then EmptyString
  else
    let tokens := Py.split_sp q in
    let tokens := map (fun t => dict_get _COMMON_CORRECTIONS (Py.lower t) t)
                      tokens in
    Py.join " " tokens.

Definition summary_keywords : list string :=
  ["summarize"; "summary"; "summarise"]%string.

Definition scope_markers : list string :=
  ["page"; "pages"; "section"; "chapter"; "table"; "about"; "focus on";
   "only"]%string.

Definition _wants_summary (q : string) : bool :=
  let ql := Py.lower q in
  Py.contains_any summary_keywords ql.

Definition _summary_is_underspecified (q : string) : bool :=
  let ql := Py.lower q in
  if negb (_wants_summary ql) then false
  else negb (Py.contains_any scope_markers ql).

(** ** Financial concepts *)

(** [\w] on ASCII: letters, digits and the underscore. *)
Definition is_word (c : ascii) : bool :=
  let n := Z.of_nat (nat_of_ascii c) in
  Py.isdigit c || ((65 <=? n) && (n <=? 90)) || ((97 <=? n) && (n <=? 122))
  || (n =? 95).

(** [\b] after a word character: the end of the text or a character
    that is not a word character. *)
Definition boundary_after (s : string) : bool :=
  match s with
  | EmptyString => true
  | String c _ => negb (is_word c)
  end.

Fixpoint skip_digits (s : string) : string :=
  match s with
  | String c r => if Py.isdigit c then skip_digits r else s
  | EmptyString => EmptyString
  end.

(** After the groups: [(?:\.\d+)?\b]. *)
Definition money_tail (s : string) : bool :=
  boundary_after s ||
  match s with
  | String c (String d r) =>
      Ascii.eqb c "."%char && Py.isdigit d && boundary_after (skip_digits r)
  | _ => false
  end.

(** [(?:,\d{3})+] and the tail. *)
Fixpoint money_groups (fuel : nat) (s : string) : bool :=
  match fuel with
  | O => false
  | S fuel' =>
      match s with
      | String c0 (String a (String b (String c r))) =>
          Ascii.eqb c0 ","%char && Py.isdigit a && Py.isdigit b
          && Py.isdigit c && (money_tail r || money_groups fuel' r)
      | _ => false
      end
  end.

(** [\d{1,3}] followed by the groups: one, two or three digits. *)
Definition money_grouped (s : string) : bool :=
  let n := String.length s in
  match s with
  | String a r1 =>
      Py.isdigit a &&
      (money_groups n r1 ||
       match r1 with
       | String b r2 =>
           Py.isdigit b &&
           (money_groups n r2 ||
            match r2 with
            | String c r3 => Py.isdigit c && money_groups n r3
            | EmptyString => false
            end)
       | EmptyString => false
       end)
  | EmptyString => false
  end.

(** [[$€£]\s*\d]; the euro and pound signs are taken in UTF-8. *)
Definition currency_symbols : list string := ["$"; "€"; "£"]%string.

Definition money_symbol (s : string) : bool :=
  existsb
    (fun sym =>
       String.prefix sym s &&
       match Py.lstrip (String.substring (String.length sym)
                                         (String.length s) s) with
       | String d _ => Py.isdigit d
       | EmptyString => false
       end)
    currency_symbols.

(** [_MONEY_RE.search(s)]; [prev_word] tells whether the character
    before [s] is a word character. *)
Fixpoint money_search (prev_word : bool) (s : string) : bool :=
  money_symbol s || (negb prev_word && money_grouped s) ||
  match s with
  | String c r => money_search (is_word c) r
  | EmptyString => false
  end.

Definition _FINANCE_TERMS : list string :=
  ["revenue"; "income"; "expense"; "expenses"; "cost"; "costs"; "profit";
   "loss"; "balance"; "debit"; "credit"; "interest"; "tax"; "invoice";
   "payment"; "transaction"; "cash flow"; "budget"; "assets"; "liabilities";
   "equity"; "fee"; "charge"; "refund"; "amount"; "total"; "subtotal";
   "account"; "statement"]%string.

Definition _looks_like_financial_concepts_question (q : string) : bool :=
  let ql := Py.lower q in
  Py.contains "financial concept" ql
  || Py.contains "financial concepts" ql
  || (Py.contains "financial" ql
      && Py.contains_any ["concept"; "concepts"; "terms"; "topics"]%string ql).

Definition nl : string := String (ascii_of_nat 10) EmptyString.

(** The loop that removes repetitions, keeping first occurrences. *)
Fixpoint dedupe (seen : list string) (l : list string) : list string :=
  match l with
  | [] => []
  | x :: r =>
      if existsb (String.eqb x) seen then dedupe seen r
      else x :: dedupe (x :: seen) r
  end.

Definition _extract_financial_concepts_from_context
    (context_passages : list string) : list string :=
  let joined := Py.join nl context_passages in
  let jl := Py.lower joined in
  let found := filter (fun term => Py.contains term jl) _FINANCE_TERMS in
  let found :=
    if money_search false joined then found ++ ["currency amounts"%string]
    else found in
  dedupe [] found.

Definition _build_llm_prompt (question : string)
    (context_passages : list string) : string :=
  let context := Py.join (nl ++ nl) context_passages in
  ("You are a helpful PDF RAG assistant." ++ nl
   ++ "- Use the provided context to answer questions about the PDF." ++ nl
   ++ "- You MAY use general knowledge for definitions or explanations, but do NOT invent facts that are not supported by the context." ++ nl
   ++ "- When you cite something from the PDF, prefer quoting short phrases and keep the [page N] tags if present." ++ nl
   ++ "- Only ask clarifying questions when the user request is genuinely underspecified." ++ nl
   ++ nl
   ++ "Context:" ++ nl ++ context ++ nl ++ nl
   ++ "User question: " ++ question ++ nl
   ++ "Answer:")%string.

(** ** Answering *)

Inductive Provider : Type := Gemini | OpenAI | Ollama.

(** A computation that may read the process environment and call an
    answering service.  [CallOracle p prompt] stands for
    [try_gemini_chat], [try_openai_chat] or [try_ollama_chat]: it yields
    the answer and the error text, either of which may be absent. *)
Inductive prog (A : Type) : Type :=
| Ret (a : A)
| GetEnv (name default : string) (k : string -> prog A)
| CallOracle (p : Provider) (prompt : string)
             (k : option string * option string -> prog A).
Arguments Ret {A} a.
Arguments GetEnv {A} name default k.
Arguments CallOracle {A} p prompt k.

(** Running a computation: the value and the calls made, in order. *)
Fixpoint exec {A} (env : string -> string -> string)
    (oracle : Provider -> string -> option string * option string)
    (m : prog A) : A * list (Provider * string) :=
  match m with
  | Ret a => (a, [])
  | GetEnv name default k => exec env oracle (k (env name default))
  | CallOracle p prompt k =>
      let '(a, calls) := exec env oracle (k (oracle p prompt)) in
      (a, (p, prompt) :: calls)
  end.

Definition clarifying_question : string :=
  ("Do you want a summary of the whole PDF, or a specific section/pages? "
   ++ "Also, should it be short (5 bullets) or detailed (1–2 paragraphs)?")%string.

Definition concepts_answer (concepts_txt : string) : string :=
  ("Yes — I see financial-related content in the retrieved parts of the PDF. "
   ++ "Examples of financial concepts/terms mentioned: " ++ concepts_txt ++ ". "
   ++ "If you want, tell me whether you mean *accounting terms*, *financial statements*, or *finance theory*, and I’ll narrow it down.")%string.

(** The extractive answer given when no service answered. *)
Definition fallback (provider : string) (llm_error : option string)
    (retrieved : list RetrievedPassage) : string * bool :=
  match retrieved with
  | [] => ("I couldn't find anything relevant in the PDF."%string, false)
  | _ =>
      let top := Py.join (nl ++ nl) (map text (firstn 3 retrieved)) in
      if String.eqb provider "None" || negb (Py.truthy provider) then
        (("No LLM provider selected. Choose one (Gemini / OpenAI / Ollama) in the sidebar. "
          ++ "For now, here are the most relevant passages:" ++ nl ++ nl ++ top)%string,
         false)
      else
        let msg :=
          (provider ++ " did not return an answer. Check your settings in the sidebar.")%string in
        let msg :=
          match llm_error with
          | Some e => if Py.truthy e then (msg ++ nl ++ nl ++ "Error: " ++ e)%string
                      else msg
          | None => msg
          end in
        ((msg ++ nl ++ nl ++ "Relevant passages:" ++ nl ++ nl ++ top)%string, false)
  end.

Definition answer_text (r : option string * option string) : string :=
  match fst r with Some a => a | None => EmptyString end.

Definition answer_with_llm_or_extract (question : string)
    (retrieved : list RetrievedPassage) : prog (string * bool) :=
  let q := normalize_user_question question in
  let context := map text retrieved in
  if _summary_is_underspecified q then Ret (clarifying_question, false)
  else
    let concepts :=
      if _looks_like_financial_concepts_question q
      then _extract_financial_concepts_from_context context else [] in
    match concepts with
    | _ :: _ =>
        Ret (concepts_answer (Py.join ", " (firstn 10 concepts)), false)
    | [] =>
        let prompt :=
          _build_llm_prompt (if Py.truthy q then q else question) context in
        GetEnv "LLM_PROVIDER" "None" (fun provider =>
          if String.eqb provider "Gemini" then
            CallOracle Gemini prompt (fun r =>
              if truthy_opt (fst r) then Ret (answer_text r, true)
              else Ret (fallback provider (snd r) retrieved))
          else if String.eqb provider "OpenAI" then
            CallOracle OpenAI prompt (fun r =>
              if truthy_opt (fst r) then Ret (answer_text r, true)
              else Ret (fallback provider
                                 (Some "OpenAI call failed. Check your API key."%string)
                                 retrieved))
          else if String.eqb provider "Ollama" then
            CallOracle Ollama prompt (fun r =>
              if truthy_opt (fst r) then Ret (answer_text r, true)
              else Ret (fallback provider (snd r) retrieved))
          else Ret (fallback provider None retrieved))
    end.

(** * Instances of the library services *)

(** ** ISO dates

    [pd.to_datetime] on the ISO 8601 calendar dates [YYYY-MM-DD]; every
    other text is taken as not a date. *)

Definition two_digits (a b : ascii) : option Z :=
  if Py.isdigit a && Py.isdigit b
  then Some (10 * PyFloat.digit_val a + PyFloat.digit_val b)
  else None.

Definition parse_iso_date (s : string) : option Timestamp :=
  match list_ascii_of_string s with
  | [y1; y2; y3; y4; s1; m1; m2; s2; d1; d2] =>
      match two_digits y1 y2, two_digits y3 y4, two_digits m1 m2,
            two_digits d1 d2 with
      | Some yh, Some yl, Some m, Some d =>
          let y := 100 * yh + yl in
          let k := 12 * y + (m - 1) in
          let t := Calendar.days_from_civil y m d * Calendar.ns_per_day in
          if Ascii.eqb s1 "-"%char && Ascii.eqb s2 "-"%char
             && (1 <=? m) && (m <=? 12)
             && (1 <=? d) && (d <=? Calendar.days_in_month k)
             && (- 2 ^ 63 <? t) && (t <? 2 ^ 63)
          then Some t else None
      | _, _, _, _ => None
      end
  | _ => None
  end.

Definition iso_to_datetime (l : list cell) : list (option Timestamp) :=
  map (fun x => match x with Some s => parse_iso_date s | None => None end) l.

Definition iso_dates : DatetimeParser :=
  {| to_datetime := iso_to_datetime;
     to_datetime_length := fun l => length_map _ l;
     frame_map := true |}.

(** ** A sorting routine *)

Fixpoint insert {A} (le : A -> A -> bool) (x : A) (l : list A) : list A :=
  match l with
  | [] => [x]
  | h :: t => if le x h then x :: l else h :: insert le x t
  end.

Definition isort {A} (le : A -> A -> bool) (l : list A) : list A :=
  fold_right (insert le) [] l.

(** Insertion sort keeps equal keys in their order of arrival. *)
Definition insertion_sorter : Sorter.
Proof.
  refine {| sort := fun A le l => isort le l |}.
  - intros A le l. induction l as [|h t IH]; [reflexivity|].
    change (isort le (h :: t)) with (insert le h (isort le t)).
    transitivity (h :: isort le t); [|now constructor].
    generalize (isort le t). intros s.
    induction s as [|x r IHr]; simpl; [reflexivity|].
    destruct (le h x); [reflexivity|]. rewrite IHr. apply perm_swap.
  - intros A le l Htot _.
    assert (Hperm : forall m, Permutation (isort le m) m).
    { induction m as [|h t IH]; [reflexivity|].
      change (isort le (h :: t)) with (insert le h (isort le t)).
      transitivity (h :: isort le t); [|now constructor].
      generalize (isort le t). intros s.
      induction s as [|x r IHr]; simpl; [reflexivity|].
      destruct (le h x); [reflexivity|]. rewrite IHr. apply perm_swap. }
    induction l as [|h t IH]; [constructor|].
    change (isort le (h :: t)) with (insert le h (isort le t)).
    assert (Hs : Sorted (fun u v => le u v = true) (isort le t))
      by (apply IH; intros x y Hx Hy; apply Htot; now right).
    assert (Hh : forall y, In y (isort le t) -> le h y = false -> le y h = true).
    { intros y Hy. apply Htot; [now left | right].
      exact (Permutation_in _ (Hperm t) Hy). }
    revert Hs Hh. generalize (isort le t). intros s Hs.
    induction Hs as [|x r Hr IHr Hhd]; intros Hh; simpl.
    + repeat constructor.
    + destruct (le h x) eqn:E.
      * constructor; [now constructor | now constructor].
      * constructor.
        -- apply IHr. intros y Hy. apply Hh. now right.
        -- assert (Hxh : le x h = true) by (apply Hh; [now left | exact E]).
           destruct r as [|y r']; simpl; [now constructor|].
           destruct (le h y); constructor; trivial. now inversion Hhd.
Defined.

(** * Vocabulary of the specification and sample data *)

(** The test [neg] of [_to_number]. *)
Definition has_parens (s : string) : bool :=
  Py.contains "(" s && Py.contains ")" s.

(** [s], blanks at both ends apart, is an opening parenthesis, some
    text and a closing parenthesis. *)
Definition wrapped (s : string) : Prop :=
  exists body, Py.strip s = ("(" ++ body ++ ")")%string.

(** The category label of a result comes from [_detect_category_col],
    called without the datetime and the amount label. *)
Definition category_detected (c : Parsed) : Prop :=
  match c with
  | OneAmount r =>
      _detect_category_col (df r) [datetime_col r; amount_col r]
      = Returns (category_col r)
  | ManyAmounts r =>
      _detect_category_col (df r) [datetime_col r; amount_col r]
      = Returns (category_col r)
  end.

(** What a candidate comes from: a framed grid, the two labels found in
    it, and the columns they select. *)
Inductive candidate_source (P : DatetimeParser) (t : RawGrid)
    : Parsed -> Prop :=
| source_one row0 body df0 dt amt dates texts r :
    t = row0 :: body ->
    mk_DataFrame body (map header_label row0) = Returns df0 ->
    _detect_datetime_col P (dropna_all df0) = Returns (Some dt) ->
    _detect_amount_col (dropna_all df0) = Returns (Some amt) ->
    Py.truthy dt = true -> Py.truthy amt = true -> dt <> amt ->
    column (dropna_all df0) dt = Series dates ->
    column (dropna_all df0) amt = Series texts ->
    validated (dropna_all df0) dt amt (to_datetime P dates)
              (map _to_number (map obj_of_cell texts)) = Returns (Some r) ->
    candidate_source P t (OneAmount r)
| source_many row0 body df0 dt amt dates rows r :
    t = row0 :: body ->
    mk_DataFrame body (map header_label row0) = Returns df0 ->
    _detect_datetime_col P (dropna_all df0) = Returns (Some dt) ->
    _detect_amount_col (dropna_all df0) = Returns (Some amt) ->
    Py.truthy dt = true -> Py.truthy amt = true -> dt <> amt ->
    column (dropna_all df0) dt = Series dates ->
    column (dropna_all df0) amt = Frame rows ->
    frame_map P = true ->
    validated (dropna_all df0) dt amt (to_datetime P dates)
              (map (fun r => all_numbers
                               (map (fun x => _to_number (obj_of_cell x)) r))
                   rows) = Returns (Some r) ->
    candidate_source P t (ManyAmounts r).

(** What holds of every result of the parser.  The datetime and the
    amount label are two labels of the frame, the first carried by one
    column; there are three rows or more, with a cell for every column;
    the category label, if any, is a third label of the frame.  Either one
    column carries the amount label, or several do (frames have [map]
    then) and every row has a number for each of them. *)
Definition well_formed (P : DatetimeParser) (x : Parsed) : Prop :=
  In (parsed_datetime_col x) (parsed_labels x) /\
  In (parsed_amount_col x) (parsed_labels x) /\
  parsed_datetime_col x <> parsed_amount_col x /\
  (3 <= parsed_rows x)%nat /\
  (forall c, parsed_category_col x = Some c ->
             In c (parsed_labels x) /\
             c <> parsed_datetime_col x /\ c <> parsed_amount_col x) /\
  occurrences (parsed_datetime_col x) (parsed_labels x) = 1%nat /\
  match x with
  | OneAmount r =>
      occurrences (amount_col r) (ledger_columns (df r)) = 1%nat /\
      Forall (fun row => length (cells row) = length (ledger_columns (df r)))
             (ledger_rows (df r))
  | ManyAmounts r =>
      (2 <= occurrences (amount_col r) (ledger_columns (df r)))%nat /\
      frame_map P = true /\
      Forall (fun row =>
                length (cells row) = length (ledger_columns (df r)) /\
                length (amount row)
                = occurrences (amount_col r) (ledger_columns (df r)))
             (ledger_rows (df r))
  end.

(** The candidates that survive, in the order of the grids. *)
Definition survivors (P : DatetimeParser) (tables : list RawGrid)
    : list Parsed :=
  flat_map (fun t => match candidate_of P t with
                     | Returns (Some c) => [c]
                     | _ => []
                     end) tables.

(** [r] is the choice among [l] that the specification describes: none
    when [l] is empty, otherwise a member with the greatest row count,
    the first one of those. *)
Definition best_of (l : list Parsed) (r : option Parsed) : Prop :=
  match r with
  | None => l = []
  | Some b =>
      exists pre post,
        l = pre ++ b :: post /\
        Forall (fun x => (parsed_rows x < parsed_rows b)%nat) pre /\
        Forall (fun x => (parsed_rows x <= parsed_rows b)%nat) post
  end.

(** The specification's sentence about the selector. *)
Definition selects_best (P : DatetimeParser) (tables : list RawGrid) : Prop :=
  exists r, parse_financial_tables P tables = Returns r /\
            best_of (survivors P tables) r.

(** Every grid is passed over or gives a candidate: no turn of the
    loop raises. *)
Definition all_return (P : DatetimeParser) (tables : list RawGrid) : Prop :=
  Forall (fun t => exists c, candidate_of P t = Returns c) tables.

(** A grid whose body rows are wider than its header. *)
Definition ragged_grid : RawGrid :=
  [[Some "Date"; Some "Amount"];
   [Some "2024-01-05"; Some "1.00"; Some "x"];
   [Some "2024-01-06"; Some "2.00"; Some "y"];
   [Some "2024-01-07"; Some "3.00"; Some "z"]]%string.

(** A grid with two columns without a label. *)
Definition unlabelled_grid : RawGrid :=
  [[Some "Date"; Some "Amount"; None; None];
   [Some "2024-01-05"; Some "1.00"; Some "x"; Some "a"];
   [Some "2024-01-06"; Some "2.00"; Some "y"; Some "b"];
   [Some "2024-01-07"; Some "3.00"; Some "z"; Some "c"]]%string.

(** Rows with equal amounts come in the order of their dates. *)
Definition ties_in_date_order {N} (l : list (Transaction N)) : Prop :=
  forall pre a mid b post,
    l = pre ++ a :: mid ++ b :: post ->
    tx_amount a = tx_amount b -> tx_when a <= tx_when b.

(** What the two lists of [top_transactions] are like, ties apart. *)
Definition top_lists (S : Sorter) (p : FinanceParseResult float) (n : Z)
    : Prop :=
  let income := fst (top_transactions binary64 S p n) in
  let expense := snd (top_transactions binary64 S p n) in
  Forall (fun r => In r (base_rows S p)
                   /\ (0 <? tx_amount r)%float = true) income /\
  Sorted (fun a b => (tx_amount b <=? tx_amount a)%float = true) income /\
  Forall (fun r => In r (base_rows S p)
                   /\ (tx_amount r <? 0)%float = true) expense /\
  Sorted (fun a b => (tx_amount a <=? tx_amount b)%float = true) expense /\
  Z.of_nat (length income) <= n /\
  (length income <= count_true (positive binary64) (amounts p))%nat /\
  Z.of_nat (length expense) <= n /\
  (length expense <= count_true (negative binary64) (amounts p))%nat.

(** The specification's sentence about [top_transactions]. *)
Definition top_transactions_spec (S : Sorter) (p : FinanceParseResult float)
    (n : Z) : Prop :=
  top_lists S p n /\
  ties_in_date_order (fst (top_transactions binary64 S p n)) /\
  ties_in_date_order (snd (top_transactions binary64 S p n)).

(** Three incomes, two of them equal, and one expense. *)
Definition four_rows : FinanceParseResult float :=
  {| df := {| ledger_columns := ["Date"; "Amount"]%string;
              ledger_rows :=
                [ {| when := 1704412800000000000; amount := 5%float;
                     cells := [Some "2024-01-05"; Some "5"]%string |};
                  {| when := 1704499200000000000; amount := 5%float;
                     cells := [Some "2024-01-06"; Some "5"]%string |};
                  {| when := 1704585600000000000; amount := 7%float;
                     cells := [Some "2024-01-07"; Some "7"]%string |};
                  {| when := 1704672000000000000; amount := (-2)%float;
                     cells := [Some "2024-01-08"; Some "-2"]%string |} ] |};
     datetime_col := "Date"; amount_col := "Amount"; category_col := None |}.

Definition four_rows_grid : RawGrid :=
  [[Some "Date"; Some "Amount"];
   [Some "2024-01-05"; Some "5"];
   [Some "2024-01-06"; Some "5"];
   [Some "2024-01-07"; Some "7"];
   [Some "2024-01-08"; Some "-2"]]%string.

(** The specification's sentence about the sums: the two totals are
    equal, and income and expense add up to the total ([==] on Python
    floats). *)
Definition sums_agree (p : FinanceParseResult float) : Prop :=
  (sum (totals binary64 p) =? net_sum (advanced_summary binary64 p))%float
  = true /\
  (s_income_sum_pos (advanced_summary binary64 p)
   + s_expense_sum_neg (advanced_summary binary64 p)
   =? net_sum (advanced_summary binary64 p))%float = true.

(** No row has amount zero: each one is above or below. *)
Definition no_zero_rows {N} (A : Arith N) (p : FinanceParseResult N) : Prop :=
  Forall (fun x => positive A x || negative A x = true) (amounts p).

(** The number a float stands for, counted in units of 2^-1074, the
    smallest step of binary64; infinities and NaN stand for none. *)
Definition scaled (x : float) : option Z :=
  match Prim2SF x with
  | S754_zero _ => Some 0
  | S754_finite s m e => Some (cond_Zopp s (Z.pos m) * 2 ^ (e + 1074))
  | _ => None
  end.

Definition is_finite (x : float) : bool :=
  match scaled x with Some _ => true | None => false end.

Definition units (x : float) : Z :=
  match scaled x with Some v => v | None => 0 end.

(** [r] is the sum of the numbers [l], without any rounding. *)
Definition unrounded (r : float) (l : list float) : bool :=
  forallb is_finite (r :: l) && (units r =? fold_right Z.add 0 (map units l)).

(** None of the three sums of [advanced_summary] is rounded, nor the
    addition of income and expense. *)
Definition sums_unrounded (p : FinanceParseResult float) : bool :=
  let s := amounts p in
  let a := advanced_summary binary64 p in
  unrounded (net_sum a) s
  && unrounded (s_income_sum_pos a) (filter (positive binary64) s)
  && unrounded (s_expense_sum_neg a) (filter (negative binary64) s)
  && unrounded (s_income_sum_pos a + s_expense_sum_neg a)%float
               [s_income_sum_pos a; s_expense_sum_neg a].



(** Three rows on which binary64 sums round: 5, minus ten to the 17
    and 5. *)
Definition rounding_grid : RawGrid :=
  [[Some "Date"; Some "Amount"];
   [Some "2024-01-05"; Some "5"];
   [Some "2024-01-06"; Some "-100000000000000000"];
   [Some "2024-01-07"; Some "5"]]%string.

Definition rounding_rows : FinanceParseResult float :=
  {| df := {| ledger_columns := ["Date"; "Amount"]%string;
              ledger_rows :=
                [ {| when := 1704412800000000000; amount := 5%float;
                     cells := [Some "2024-01-05"; Some "5"]%string |};
                  {| when := 1704499200000000000; amount := (-1e17)%float;
                     cells := [Some "2024-01-06";
                               Some "-100000000000000000"]%string |};
                  {| when := 1704585600000000000; amount := 5%float;
                     cells := [Some "2024-01-07"; Some "5"]%string |} ] |};
     datetime_col := "Date"; amount_col := "Amount"; category_col := None |}.




(** Rows on 5, 7 and 8 January 2024. *)
Definition gap_grid : RawGrid :=
  [[Some "Date"; Some "Amount"];
   [Some "2024-01-05"; Some "-50.00"];
   [Some "2024-01-07"; Some "200.00"];
   [Some "2024-01-08"; Some "-30.00"]]%string.

Definition gap_rows : FinanceParseResult float :=
  {| df := {| ledger_columns := ["Date"; "Amount"]%string;
              ledger_rows :=
                [ {| when := 1704412800000000000; amount := (-50)%float;
                     cells := [Some "2024-01-05"; Some "-50.00"]%string |};
                  {| when := 1704585600000000000; amount := 200%float;
                     cells := [Some "2024-01-07"; Some "200.00"]%string |};
                  {| when := 1704672000000000000; amount := (-30)%float;
                     cells := [Some "2024-01-08"; Some "-30.00"]%string |} ] |};
     datetime_col := "Date"; amount_col := "Amount"; category_col := None |}.

Definition scenario_grid : RawGrid :=
  [[Some "Date"; Some "Amount"; Some "Category"];
   [Some "2024-01-05"; Some "-50.00"; Some "Food"];
   [Some "2024-01-06"; Some "200.00"; Some "Salary"];
   [Some "2024-02-01"; Some "-30.00"; Some "Food"]]%string.

Definition scenario_result : FinanceParseResult float :=
  {| df := {| ledger_columns := ["Date"; "Amount"; "Category"]%string;
              ledger_rows :=
                [ {| when := Calendar.days_from_civil 2024 1 5
                             * Calendar.ns_per_day;
                     amount := (-50)%float;
                     cells := [Some "2024-01-05"; Some "-50.00";
                               Some "Food"]%string |};
                  {| when := Calendar.days_from_civil 2024 1 6
                             * Calendar.ns_per_day;
                     amount := 200%float;
                     cells := [Some "2024-01-06"; Some "200.00";
                               Some "Salary"]%string |};
                  {| when := Calendar.days_from_civil 2024 2 1
                             * Calendar.ns_per_day;
                     amount := (-30)%float;
                     cells := [Some "2024-02-01"; Some "-30.00";
                               Some "Food"]%string |} ] |};
     datetime_col := "Date"; amount_col := "Amount";
     category_col := Some "Category"%string |}.

(** * Further functions of the three modules and of app.py *)

(** ** finance_analysis.py: chart intent *)

(** The dict that [parse_finance_request] returns. *)
Record Intent : Type := {
  chart : string;
  group : string
}.

Definition parse_finance_request (user_text : string) : Intent :=
  let t := Py.join " " (Py.split_ws (Py.lower (Py.strip user_text))) in
  let chart :=
    if Py.contains_any ["bar chart"; "barchart"; "bar"]%string t
    then "bar"%string
    else if Py.contains_any ["pie chart"; "pie"]%string t then "pie"%string
    else if Py.contains_any ["line chart"; "trend"; "over time";
                             "time series"; "timeline"; "line"]%string t
    then "line"%string
    else "none"%string in
  let group :=
    if Py.contains_any ["category"; "merchant"; "type"; "by category"]%string t
    then "category"%string
    else if Py.contains_any ["hour"; "hourly"]%string t then "hour"%string
    else if Py.contains_any ["day"; "daily"]%string t then "day"%string
    else if Py.contains_any ["month"; "monthly"]%string t then "month"%string
    else "auto"%string in
  {| chart := chart; group := group |}.

(** ** finance_analysis.py: breakdowns *)

(** What pandas raises in the chains of calls below. *)
Definition grouper_not_1d (c : string) : exn :=
  ValueError ("Grouper for '" ++ c ++ "' not 1-dimensional").
Definition column_not_found (c : string) : exn :=
  KeyError ("Column not found: " ++ c).
Definition cannot_insert (c : string) : exn :=
  ValueError ("cannot insert " ++ c ++ ", already exists").
Definition sort_values_needs_by : exn :=
  TypeError "DataFrame.sort_values() missing 1 required positional argument: 'by'".
Definition abs_of_str : exn :=
  TypeError "bad operand type for abs(): 'str'".

(** [series.sort_values(ascending=...)] on numbers: the values that are
    numbers are sorted, the others follow in their old order. *)
Definition sort_values_na {N X} (A : Arith N) (S : Sorter) (key : X -> N)
    (ascending : bool) (l : list X) : list X :=
  sort_values S (fun x y => leb A (key x) (key y)) ascending
              (filter (fun x => negb (isnan A (key x))) l)
  ++ filter (fun x => isnan A (key x)) l.

(** The group keys of [groupby(..., dropna=True)]: the distinct values
    that are not missing, in ascending order. *)
Definition group_keys (keys : list cell) : list string :=
  isort String.leb (dedupe [] (dropna keys)).

(** [df.groupby(key, dropna=True)[amt].sum()]: one sum per group key,
    over the rows of the group in frame order. *)
Definition groupby_sum {N} (A : Arith N) (rows : list (cell * N))
    : list (string * N) :=
  map (fun k =>
         (k, group_sum A
               (map snd (filter (fun r => match fst r with
                                          | Some x => String.eqb x k
                                          | None => false
                                          end) rows))))
      (group_keys (map fst rows)).

(** [grp.abs().sort_values(ascending=False).head(top_n)], as rows of
    label and value. *)
Definition top_groups {N} (A : Arith N) (S : Sorter) (top_n : Z)
    (grp : list (string * N)) : list (string * N) :=
  head top_n
       (sort_values_na A S snd false
                       (map (fun g => (fst g, absv A (snd g))) grp)).

(** [str(period)] for a month: [YYYY-MM]. *)
Definition month_str (t : Timestamp) : string :=
  let k := Calendar.month_of_days (t / Calendar.ns_per_day) in
  (Calendar.fixed 4 (k / 12) ++ "-" ++ Calendar.fixed 2 (k mod 12 + 1))%string.

(** [grouped[amt].sum().abs().sort_values(ascending=False).head(top_n)
    .reset_index()], for the rows grouped by the values [keys] of the
    column labelled [by].  The amount label has to be carried by a
    column ([KeyError] otherwise) and by one only (the sums of several
    make a frame, which [sort_values] cannot sort without [by]);
    [reset_index] cannot insert the group labels under the label of the
    amounts. *)
Definition grouped_amounts {N} (A : Arith N) (S : Sorter)
    (p : FinanceParseResult N) (by_label : string) (keys : list cell)
    (top_n : Z) : exn + list (string * N) :=
  let amt := amount_col p in
  match occurrences amt (ledger_columns (df p)) with
  | 0%nat => inl (column_not_found amt)
  | 1%nat =>
      if String.eqb by_label amt then inl (cannot_insert amt)
      else inr (top_groups A S top_n
                  (groupby_sum A
                     (combine keys (map amount (ledger_rows (df p))))))
  | _ => inl sort_values_needs_by
  end.

(** [df.groupby(cat, dropna=True)] and what follows: the label has to
    be carried by one column.  (The category label is the label of a
    column of text, never that of the datetime or of the amount
    column.) *)
Definition grouped_by_category {N} (A : Arith N) (S : Sorter)
    (p : FinanceParseResult N) (cat : string) (top_n : Z)
    : exn + list (string * N) :=
  match ledger_column (df p) cat with
  | Missing => inl (KeyError cat)
  | Frame _ => inl (grouper_not_1d cat)
  | Series keys => grouped_amounts A S p cat keys top_n
  end.

Definition with_title {X} (title : string) (r : exn + X) : exn + (X * string) :=
  match r with inl e => inl e | inr out => inr (out, title) end.

Definition category_breakdown {N} (A : Arith N) (S : Sorter)
    (p : FinanceParseResult N) (top_n : Z)
    : exn + (list (string * N) * string) :=
  if negb (truthy_opt (category_col p)) then inr ([], EmptyString)
  else
    let cat := match category_col p with Some c => c | None => EmptyString end in
    with_title "Top categories (absolute amount)"
               (grouped_by_category A S p cat top_n).

(** In the fall-back [df["month"] = ...] writes the months into every
    column labelled [month], or into a new one: the amounts are lost
    when that is their label (the sums are then texts, and [abs] fails
    on them), and two columns with that label cannot be grouped by. *)
Definition pie_breakdown {N} (A : Arith N) (S : Sorter)
    (p : FinanceParseResult N) (top_n : Z)
    : exn + (list (string * N) * string) :=
  if truthy_opt (category_col p) then
    let cat := match category_col p with Some c => c | None => EmptyString end in
    with_title "By category (absolute amount)"
               (grouped_by_category A S p cat top_n)
  else
    let cols := ledger_columns (df p) in
    let dt := datetime_col p in
    match occurrences dt cols with
    | 0%nat => inl (KeyError dt)
    | 1%nat =>
        let months :=
          map (fun r => Some (month_str (when r))) (ledger_rows (df p)) in
        if (2 <=? occurrences "month" cols)%nat
        then inl (grouper_not_1d "month")
        else if String.eqb (amount_col p) "month"
        then match ledger_rows (df p) with
             | [] => inl (cannot_insert "month")
             | _ => inl abs_of_str
             end
        else with_title "By month (absolute amount)"
                        (grouped_amounts A S p "month" months top_n)
    | _ => inl duplicate_keys
    end.

(** The two breakdowns raise the same exception, or return the same
    rows under their two titles. *)
Definition both_raise {N} (A : Arith N) (S : Sorter)
    (p : FinanceParseResult N) (top_n : Z) (e : exn) : Prop :=
  pie_breakdown A S p top_n = inl e /\
  category_breakdown A S p top_n = inl e.

Definition both_return {N} (A : Arith N) (S : Sorter)
    (p : FinanceParseResult N) (top_n : Z) : Prop :=
  exists out,
    pie_breakdown A S p top_n
    = inr (out, "By category (absolute amount)"%string) /\
    category_breakdown A S p top_n
    = inr (out, "Top categories (absolute amount)"%string).

(** ** pdf_utils.py: pages and passages *)

Module PdfPageChunk.
Record t : Type := {
  page : Z;
  text : string
}.
End PdfPageChunk.

(** A document as the extractor sees it: for every page, what
    [extract_text()] and [extract_tables()] give. *)
Record PdfPage : Type := {
  extract_text : option string;
  extract_tables : option (list RawGrid)
}.

(** [min(page_count, max_pages) if max_pages else page_count]; the
    argument is [None] or an integer, and zero counts as not given. *)
Definition page_limit (page_count : nat) (max_pages : option Z) : Z :=
  match max_pages with
  | Some m => if m =? 0 then Z.of_nat page_count
              else Z.min (Z.of_nat page_count) m
  | None => Z.of_nat page_count
  end.

(** The loop [for i in range(limit)] of [extract_pdf_text], from page
    index [i] on. *)
Fixpoint extract_text_from (i : nat) (pages : list PdfPage)
    : list PdfPageChunk.t :=
  match pages with
  | [] => []
  | pg :: rest =>
      let text := Py.strip (match extract_text pg with
                            | Some s => s
                            | None => EmptyString
                            end) in
      if Py.truthy text
      then {| PdfPageChunk.page := Z.of_nat i + 1; PdfPageChunk.text := text |}
             :: extract_text_from (S i) rest
      else extract_text_from (S i) rest
  end.

Definition extract_pdf_text (pdf : list PdfPage) (max_pages : option Z)
    : list PdfPageChunk.t :=
  let limit := page_limit (length pdf) max_pages in
  extract_text_from 0 (firstn (Z.to_nat limit) pdf).

Fixpoint extract_tables_from (i : nat) (pages : list PdfPage)
    : list (Z * RawGrid) :=
  match pages with
  | [] => []
  | pg :: rest =>
      let tables := match extract_tables pg with
                    | Some ts => ts
                    | None => []
                    end in
      map (fun t => (Z.of_nat i + 1, t)) tables
      ++ extract_tables_from (S i) rest
  end.

Definition extract_pdf_tables (pdf : list PdfPage) (max_pages : option Z)
    : list (Z * RawGrid) :=
  let limit := page_limit (length pdf) max_pages in
  extract_tables_from 0 (firstn (Z.to_nat limit) pdf).

(** [str(n)] for an integer. *)
Definition str_of_int (n : Z) : string := NilZero.string_of_int (Z.to_int n).

(** The tag put in front of a chunk. *)
Definition page_tag (page : Z) (c : string) : string :=
  ("[page " ++ str_of_int page ++ "] " ++ c)%string.

(** [page_chunks_to_passages]; [fuel] bounds the turns of each call of
    [chunk_text], made with its default window of 1200 and overlap of
    150. *)
Fixpoint page_chunks_to_passages (fuel : nat) (pages : list PdfPageChunk.t)
    : outcome (run (list string)) :=
  match pages with
  | [] => Returns (Finished [])
  | p :: rest =>
      match chunk_text fuel (PdfPageChunk.text p) 1200 150 with
      | Raises e => Raises e
      | Returns OutOfFuel => Returns OutOfFuel
      | Returns (Finished chunks) =>
          match page_chunks_to_passages fuel rest with
          | Returns (Finished more) =>
              Returns (Finished (map (page_tag (PdfPageChunk.page p)) chunks
                                 ++ more))
          | other => other
          end
      end
  end.

(** ** app.py: building the index *)

(** What [np.asarray] makes of the encoder's result: an array of two
    axes, one row for each text, or an array of one axis. *)
Inductive array : Type :=
| Array1 (elems : list float)
| Array2 (a : ndarray).

(** [Embedder.embed]; for no texts the encoder's result is empty, and
    [np.asarray] gives it a single axis. *)
Record Embedder : Type := {
  embed : list string -> array;
  embed_nothing : embed [] = Array1 []
}.

(** [vecs.shape[1]] is read first: an array of one axis has no such
    entry. *)
Definition _build_index (E : Embedder) (passages : list string)
    : outcome FaissIndex :=
  match embed E passages with
  | Array1 _ => Raises (IndexError "tuple index out of range")
  | Array2 vecs =>
      let index := FaissIndex_init (shape1 vecs) in
      match FaissIndex_add index vecs passages with
      | (Returns _, index') => Returns index'
      | (Raises e, _) => Raises e
      end
  end.

(** ** pdf_utils.py: the windows of [chunk_text] *)

(** The text that [chunk_text] cuts up: blanks collapsed. *)
Definition collapsed (text : string) : string :=
  Py.join " " (Py.split_ws text).

(** Window number [i] starts [i] steps of [chunk_size - overlap] into
    the text and is [chunk_size] long, or ends with the text. *)
Definition window_start (chunk_size overlap : Z) (i : nat) : Z :=
  Z.of_nat i * (chunk_size - overlap).

Definition window_end (text : string) (chunk_size overlap : Z) (i : nat) : Z :=
  Z.min (strlen text) (window_start chunk_size overlap i + chunk_size).

Definition window (text : string) (chunk_size overlap : Z) (i : nat) : string :=
  Py.slice (Z.to_nat (window_start chunk_size overlap i))
           (Z.to_nat (window_end text chunk_size overlap i)) text.

(** The text [extract_pdf_text] keeps of a page: the page's text, or the empty string, stripped. *)
Definition page_text (pg : PdfPage) : string :=
  Py.strip (match extract_text pg with Some s => s | None => EmptyString end).

(** ** rag.py: the words of a question *)

(** The correction of one token in [normalize_user_question]. *)
Definition correct_word (t : string) : string :=
  dict_get _COMMON_CORRECTIONS (Py.lower t) t.

(** A word: not empty and without blanks. *)
Definition solid (w : string) : bool :=
  Py.truthy w && negb (Py.existsb Py.isspace w).

(** The value of [LLM_PROVIDER] that selects a service. *)
Definition provider_name (p : Provider) : string :=
  match p with
  | Gemini => "Gemini"
  | OpenAI => "OpenAI"
  | Ollama => "Ollama"
  end.

(** The prompt [answer_with_llm_or_extract] sends. *)
Definition prompt_of (question : string) (retrieved : list RetrievedPassage)
    : string :=
  let q := normalize_user_question question in
  _build_llm_prompt (if Py.truthy q then q else question) (map text retrieved).

(** ** Keyword tests *)

(** The text [parse_finance_request] looks at. *)
Definition request_text (user_text : string) : string :=
  Py.join " " (Py.split_ws (Py.lower (Py.strip user_text))).

(** What [_extract_financial_concepts_from_context] tests for a term. *)
Definition concept_present (context_passages : list string) (term : string)
    : bool :=
  if String.eqb term "currency amounts"
  then money_search false (Py.join nl context_passages)
  else Py.contains term (Py.lower (Py.join nl context_passages)).

(** ** finance_analysis.py: hints *)

(** The test of [_best_col]: hint [h] occurs in the normalised label. *)
Definition hint_matches (h c : string) : bool :=
  Py.contains h (_normalize_col c).

(** ** finance_analysis.py: what a breakdown groups by *)

(** The group a row belongs to in [pie_breakdown]: its cell in the
    category column when that is set, its month otherwise. *)
Definition breakdown_label {N} (p : FinanceParseResult N) (r : LedgerRow N)
    : cell :=
  if truthy_opt (category_col p) then
    match category_col p with
    | Some c => match col_index c (ledger_columns (df p)) with
                | Some i => nth i (cells r) None
                | None => None
                end
    | None => None
    end
  else Some (month_str (when r)).

Definition in_group (l : string) (x : cell) : bool :=
  match x with Some s => String.eqb s l | None => false end.

(** The sum of the amounts of the rows of group [l], in frame order. *)
Definition group_total {N} (A : Arith N) (p : FinanceParseResult N)
    (l : string) : N :=
  group_sum A (map amount
                   (filter (fun r => in_group l (breakdown_label p r))
                           (ledger_rows (df p)))).

(** ** app.py: reading an uploaded PDF *)

(** The rebuild of the session state: the passages of the pages within
    the limit and the index built from them. *)
Definition rebuild (fuel : nat) (E : Embedder) (pdf : list PdfPage)
    (max_pages : Z) : outcome (run (list string * FaissIndex)) :=
  let pages := extract_pdf_text pdf (Some max_pages) in
  match page_chunks_to_passages fuel pages with
  | Raises e => Raises e
  | Returns OutOfFuel => Returns OutOfFuel
  | Returns (Finished passages) =>
      match _build_index E passages with
      | Raises e => Raises e
      | Returns index => Returns (Finished (passages, index))
      end
  end.

(** An embedder that gives every text the same unit vector; for no
    texts its array is empty and has one axis. *)
Definition constant_embedder : Embedder :=
  {| embed := fun texts =>
       match texts with
       | [] => Array1 []
       | _ => Array2 {| shape1 := 2;
                        vecs := map (fun _ => [1%float; 0%float]) texts |}
       end;
     embed_nothing := eq_refl |}.

(* ================================================================== *)
(** * Part II: properties                                              *)
(* ================================================================== *)

(** ** Spot checks of the Python primitives *)

Example strip_split_join :
  Py.strip "  a b  " = "a b"%string /\
  Py.split_ws "  a  b c " = ["a"; "b"; "c"]%string /\
  Py.split_sp "a  b" = ["a"; EmptyString; "b"]%string /\
  Py.join " " (Py.split_ws " what   is this ") = "what is this"%string /\
  _normalize_col "  Txn   DATE " = "txn date"%string.
Proof. repeat split; reflexivity. Qed.

(** [float] rounds to nearest, ties to even, and overflows to infinity:
    one tenth; ten to the 23, which lies between two floats; two to the
    53 plus one, half way between two floats; the largest float and the
    first decimal that rounds to infinity. *)
Example float_of_text :
  PyFloat.parse "0.1" = Some 0x1.999999999999ap-4%float /\
  PyFloat.parse "100000000000000000000000" = Some 0x1.52d02c7e14af6p+76%float /\
  PyFloat.parse "9007199254740993" = Some 0x1p+53%float /\
  PyFloat.parse "-0" = Some (-0)%float /\
  PyFloat.parse "5." = Some 5%float /\
  PyFloat.parse "+.5" = Some 0.5%float /\
  PyFloat.parse "." = None /\
  PyFloat.parse "1-2" = None /\
  PyFloat.parse "1.2.3" = None /\
  PyFloat.parse
    "179769313486231570814527423731704356798070567525844996598917476803157260780028538760589558632766878171540458953514382464234321326889464182768467546703537516986049910576551282076245490090389328944075868508455133942304583236903222948165808559332123348274797826204144723168738177180919299881250404026184124858368"
  = Some 0x1.fffffffffffffp+1023%float /\
  PyFloat.parse
    "179769313486231580793728971405303415079934132710037826936173778980444968292764750946649017977587207096330286416692887910946555547851940402630657488671505820681908902000708383676273854845817711531764475730270069855571366959622842914819860834936475292719074168444365510704342711559699508093042880177904174497792"
  = Some infinity.
Proof. repeat split; vm_compute; reflexivity. Qed.

Example to_number_examples :
  _to_number (PyStr "abc") = None /\
  _to_number PyNone = None /\
  _to_number (PyStr " -12.5 ") = Some (-12.5)%float /\
  _to_number (PyStr "(0)") = Some (-0)%float /\
  _to_number (PyStr "1e5") = Some 15%float /\
  _to_number (PyTimestamp 1704412800000000000) = None /\
  _to_number PyNaT = None.
Proof. repeat split; vm_compute; reflexivity. Qed.

Example calendar_examples :
  Calendar.days_from_civil 1970 1 1 = 0 /\
  Calendar.days_from_civil 2024 1 5 = 19727 /\
  Calendar.days_from_civil 2000 2 29 = 11016 /\
  Calendar.month_of_days 19727 = 12 * 2024 /\
  Calendar.days_in_month (12 * 2024 + 1) = 29 /\
  Calendar.days_in_month (12 * 1900 + 1) = 28 /\
  Calendar.timestamp_str 1704412800000000000 = "2024-01-05 00:00:00"%string /\
  parse_iso_date "2024-01-05" = Some 1704412800000000000 /\
  parse_iso_date "2023-02-29" = None /\
  parse_iso_date "Food" = None.
Proof. repeat split; vm_compute; reflexivity. Qed.

Example chunk_text_example :
  chunk_text 10 "hello  world this is" 5 2
  = Returns (Finished ["hello"; "lo wo"; "world"; "ld th"; "this "; "s is"]%string)
  /\ chunk_text 10 "   " 5 2 = Returns (Finished [])
  /\ chunk_text 10 "abc" 0 1 = Raises (ValueError "chunk_size must be > 0")
  /\ chunk_text 10 "abc" 2 (-1) = Raises (ValueError "overlap must be >= 0").
Proof. repeat split; reflexivity. Qed.

Example money_search_examples :
  money_search false "a 1,200 b" = true /\
  money_search false "a1,200" = false /\
  money_search false "1,2000" = false /\
  money_search false "12,000.5x" = true /\
  money_search false "fee: $ 5" = true /\
  money_search false "1234,567" = false.
Proof. repeat split; reflexivity. Qed.

(** The second scenario of the specification: a question about
    financial concepts is answered from the passages, without a call. *)
Example concepts_answered_directly :
  exec (fun _ _ => "Ollama"%string) (fun _ _ => (None, None))
       (answer_with_llm_or_extract
          "what are the financial concepts here"
          [{| text := "the invoice of $1,200"; score := 1%float |}])
  = ((concepts_answer "invoice, currency amounts", false), []).
Proof. vm_compute. reflexivity. Qed.

(** ** Strings *)

Section StringFacts.

Variable p : ascii -> bool.
Hypothesis p_blank : forall c, Py.isspace c = true -> p c = false.

Lemma filter_lstrip (s : string) : Py.filter p (Py.lstrip s) = Py.filter p s.
Proof.
  induction s as [|c r IH]; simpl; [reflexivity|].
  destruct (Py.isspace c) eqn:E; [|reflexivity].
  now rewrite (p_blank c E).
Qed.

Lemma filter_rstrip (s : string) : Py.filter p (Py.rstrip s) = Py.filter p s.
Proof.
  induction s as [|c r IH]; simpl; [reflexivity|].
  destruct (Py.rstrip r) as [|c' r'] eqn:R.
  - simpl in IH. rewrite <- IH.
    destruct (Py.isspace c) eqn:E; simpl.
    + now rewrite (p_blank c E).
    + now destruct (p c).
  - simpl. simpl in IH. now rewrite IH.
Qed.

Lemma filter_strip (s : string) : Py.filter p (Py.strip s) = Py.filter p s.
Proof. unfold Py.strip. now rewrite filter_rstrip, filter_lstrip. Qed.

End StringFacts.

Lemma existsb_filter (p : ascii -> bool) (s : string) :
  Py.existsb p s = Py.truthy (Py.filter p s).
Proof.
  induction s as [|c r IH]; simpl; [reflexivity|].
  destruct (p c); simpl; [reflexivity | exact IH].
Qed.

Lemma filter_append (p : ascii -> bool) (s t : string) :
  Py.filter p (s ++ t) = (Py.filter p s ++ Py.filter p t)%string.
Proof.
  induction s as [|c r IH]; simpl; [reflexivity|].
  destruct (p c); simpl; now rewrite IH.
Qed.

Lemma filter_filter (p q : ascii -> bool) (s : string) :
  (forall c, p c = true -> q c = true) ->
  Py.filter p (Py.filter q s) = Py.filter p s.
Proof.
  intros Hpq. induction s as [|c r IH]; simpl; [reflexivity|].
  destruct (q c) eqn:Q; simpl.
  - now rewrite IH.
  - destruct (p c) eqn:P; [|exact IH].
    rewrite (Hpq c P) in Q. discriminate.
Qed.

(** [c in s] for a one-character [c]. *)
Lemma contains_char (c : ascii) (s : string) :
  Py.contains (String c EmptyString) s = Py.existsb (Ascii.eqb c) s.
Proof.
  induction s as [|a r IH]; simpl; [reflexivity|].
  rewrite IH. destruct (ascii_dec c a) as [->|Hne].
  - rewrite Ascii.eqb_refl. now destruct r.
  - apply Ascii.eqb_neq in Hne. now rewrite Hne.
Qed.

Lemma existsb_append (p : ascii -> bool) (s t : string) :
  Py.existsb p (s ++ t) = Py.existsb p s || Py.existsb p t.
Proof.
  induction s as [|c r IH]; simpl; [reflexivity|].
  now rewrite IH, orb_assoc.
Qed.

(** ** Numeric coercion *)

Lemma numeric_not_blank (c : ascii) :
  Py.isspace c = true -> numeric_char c = false.
Proof.
  destruct c as [[] [] [] [] [] [] [] []]; vm_compute; congruence.
Qed.

Lemma paren_not_blank (x c : ascii) :
  Py.isspace x = false -> Py.isspace c = true -> Ascii.eqb x c = false.
Proof.
  intros Hx Hc. destruct (Ascii.eqb x c) eqn:E; [|reflexivity].
  apply Ascii.eqb_eq in E. congruence.
Qed.

Lemma has_parens_strip (s : string) : has_parens (Py.strip s) = has_parens s.
Proof.
  unfold has_parens. rewrite !contains_char, !existsb_filter.
  rewrite !filter_strip; trivial; intros c; now apply paren_not_blank.
Qed.

Lemma numeric_filter_clean (s : string) :
  Py.filter numeric_char (remove_char "," (remove_char "$" (Py.strip s)))
  = Py.filter numeric_char s.
Proof.
  unfold remove_char. rewrite !filter_filter.
  - apply filter_strip, numeric_not_blank.
  - intros c. destruct c as [[] [] [] [] [] [] [] []]; vm_compute; congruence.
  - intros c. destruct c as [[] [] [] [] [] [] [] []]; vm_compute; congruence.
Qed.

(** [_to_number] on text: the characters of the class of digits, point
    and signs are read as a float, the sign taken from the parentheses. *)
Lemma to_number_spec (s : string) :
  _to_number (PyStr s) =
  option_map (fun v => if has_parens s then (- abs v)%float else v)
             (PyFloat.parse (Py.filter numeric_char s)).
Proof.
  unfold _to_number. cbn [py_str].
  destruct (Py.truthy (Py.strip s)) eqn:T; cbn [negb].
  - rewrite numeric_filter_clean.
    fold (has_parens (Py.strip s)). rewrite has_parens_strip.
    destruct (Py.filter numeric_char s) eqn:F; cbn [Py.truthy negb].
    + reflexivity.
    + now destruct (PyFloat.parse (String a s0)).
  - rewrite <- (filter_strip numeric_char numeric_not_blank).
    destruct (Py.strip s); [reflexivity | discriminate].
Qed.

(** ** Signs of binary64 values *)

Lemma neg_abs_not_positive (v : float) : (0 <? - abs v)%float = false.
Proof.
  rewrite ltb_spec, opp_spec, abs_spec.
  now destruct (Prim2SF v) as [[]| [] | |[] m e].
Qed.

Lemma neg_abs_negative (v : float) :
  (v =? 0)%float = false -> PrimFloat.is_nan v = false ->
  (- abs v <? 0)%float = true.
Proof.
  unfold PrimFloat.is_nan.
  rewrite ltb_spec, !eqb_spec, opp_spec, abs_spec.
  destruct (Prim2SF v) as [[]| [] | |[] m e]; cbn; congruence.
Qed.

Lemma wrapped_has_parens (s : string) : wrapped s -> has_parens s = true.
Proof.
  intros [body Hb]. rewrite <- has_parens_strip, Hb.
  unfold has_parens. rewrite !contains_char. cbn.
  rewrite existsb_append. cbn. apply orb_true_r.
Qed.

(** C7: [_to_number] maps the text (120.50) to -120.5 and $1,234.56 to
    the float 1234.56.  For every text, the outcome is the float value of
    what remains of it once everything but digits, point and signs is
    dropped, or missing when that is not a number; so dollar signs and
    commas do not matter; and a text wrapped in parentheses yields minus
    the absolute value: never a positive number, and a number below zero
    unless the amount is zero. *)
Theorem to_number_coercion :
  _to_number (PyStr "(120.50)") = Some (-120.5)%float /\
  _to_number (PyStr "$1,234.56") = Some 0x1.34a3d70a3d70ap+10%float /\
  (forall s,
      _to_number (PyStr s) =
      option_map (fun v => if has_parens s then (- abs v)%float else v)
                 (PyFloat.parse (Py.filter numeric_char s))) /\
  (forall s1 s2,
      _to_number (PyStr (s1 ++ "$" ++ s2)) = _to_number (PyStr (s1 ++ s2)) /\
      _to_number (PyStr (s1 ++ "," ++ s2)) = _to_number (PyStr (s1 ++ s2))) /\
  (forall s r,
      wrapped s -> _to_number (PyStr s) = Some r ->
      exists v, PyFloat.parse (Py.filter numeric_char s) = Some v /\
                r = (- abs v)%float /\
                (0 <? r)%float = false /\
                ((v =? 0)%float = false -> PrimFloat.is_nan v = false ->
                 (r <? 0)%float = true)) /\
  (forall s,
      PyFloat.parse (Py.filter numeric_char s) = None ->
      _to_number (PyStr s) = None).
Proof.
  split; [vm_compute; reflexivity|].
  split; [vm_compute; reflexivity|].
  split; [exact to_number_spec|].
  split; [|split].
  - intros s1 s2. rewrite !to_number_spec. unfold has_parens.
    rewrite !contains_char, !filter_append, !existsb_append. cbn.
    assert (Hd : numeric_char "$" = false) by reflexivity.
    assert (Hc : numeric_char "," = false) by reflexivity.
    rewrite Hd, Hc. now split.
  - intros s r Hw. rewrite to_number_spec, (wrapped_has_parens s Hw).
    destruct (PyFloat.parse (Py.filter numeric_char s)) as [v|];
      [|discriminate].
    cbn. intros [= <-]. exists v. split; [reflexivity|].
    split; [reflexivity|]. split.
    + apply neg_abs_not_positive.
    + apply neg_abs_negative.
  - intros s Hs. now rewrite to_number_spec, Hs.
Qed.

(** The text (120.50) is wrapped in parentheses and coerces to -120.5. *)
Lemma to_number_coercion_witness :
  wrapped "(120.50)" /\ _to_number (PyStr "(120.50)") = Some (-120.5)%float /\
  exists v, PyFloat.parse (Py.filter numeric_char "(120.50)") = Some v /\
            (-120.5)%float = (- abs v)%float.
Proof.
  assert (Hw : wrapped "(120.50)") by (exists "120.50"%string; reflexivity).
  assert (Hn : _to_number (PyStr "(120.50)") = Some (-120.5)%float)
    by (vm_compute; reflexivity).
  split; [exact Hw|]. split; [exact Hn|].
  destruct to_number_coercion as (_ & _ & _ & _ & H & _).
  destruct (H _ _ Hw Hn) as (v & Hv & Hr & _).
  exists v. now split.
Defined.

(** ** chunk_text *)

Lemma chunk_text_raises_iff (fuel : nat) (text : string) (chunk_size overlap : Z) :
  (exists e, chunk_text fuel text chunk_size overlap = Raises e)
  <-> (chunk_size <= 0 \/ overlap < 0).
Proof.
  unfold chunk_text.
  destruct (chunk_size <=? 0) eqn:E1; [|destruct (overlap <? 0) eqn:E2].
  - split; [intros _; left; lia | intros _; eauto].
  - split; [intros _; right; lia | intros _; eauto].
  - split.
    + intros [e He].
      destruct (negb (Py.truthy (Py.join " " (Py.split_ws text))));
        discriminate.
    + lia.
Qed.

(** With an overlap as large as the window the loop takes the same
    window again and again. *)
Lemma chunk_loop_stuck (fuel : nat) (text : string) (chunk_size overlap : Z)
    (chunks : list string) :
  0 < chunk_size <= overlap -> chunk_size < strlen text ->
  chunk_loop fuel text chunk_size overlap 0 chunks = OutOfFuel.
Proof.
  intros Hc Hl. revert chunks.
  induction fuel as [|fuel IH]; intros chunks; cbn [chunk_loop];
    [reflexivity|].
  replace (0 <? strlen text) with true by (symmetry; apply Z.ltb_lt; lia).
  replace (Z.min (strlen text) (0 + chunk_size)) with chunk_size by lia.
  replace (chunk_size =? strlen text) with false
    by (symmetry; apply Z.eqb_neq; lia).
  replace (Z.max 0 (chunk_size - overlap)) with 0 by lia.
  apply IH.
Qed.

(** With an overlap below the window size every turn moves the window
    forward, and the loop ends. *)
Lemma chunk_loop_terminates (fuel : nat) (text : string)
    (chunk_size overlap start : Z) (chunks : list string) :
  0 <= overlap < chunk_size -> 0 <= start ->
  (0 < fuel)%nat -> strlen text - start < Z.of_nat fuel ->
  exists out, chunk_loop fuel text chunk_size overlap start chunks
              = Finished out.
Proof.
  intros Hc. revert start chunks.
  induction fuel as [|fuel IH]; intros start chunks Hs H0 Hf; [lia|].
  cbn [chunk_loop]. destruct (start <? strlen text) eqn:E; [|eauto].
  apply Z.ltb_lt in E.
  destruct (Z.min (strlen text) (start + chunk_size) =? strlen text) eqn:E2;
    [eauto|].
  apply Z.eqb_neq in E2. apply IH; lia.
Qed.

Lemma chunk_text_terminates (text : string) (chunk_size overlap : Z) :
  0 <= overlap < chunk_size ->
  exists fuel out, chunk_text fuel text chunk_size overlap
                   = Returns (Finished out).
Proof.
  intros Hc. unfold chunk_text.
  replace (chunk_size <=? 0) with false by (symmetry; apply Z.leb_gt; lia).
  replace (overlap <? 0) with false by (symmetry; apply Z.ltb_ge; lia).
  set (t := Py.join " " (Py.split_ws text)).
  destruct (negb (Py.truthy t)); [exists 0%nat; eauto|].
  destruct (chunk_loop_terminates (S (String.length t)) t chunk_size
              overlap 0 [] Hc) as [out Hout];
    [lia | lia | unfold strlen; lia |].
  exists (S (String.length t)), out. now rewrite Hout.
Qed.

Lemma substring_length (s : string) (a n : nat) :
  String.length (String.substring a n s) = Nat.min n (String.length s - a).
Proof.
  revert a n. induction s as [|c r IH]; intros [|a] [|n]; simpl;
    try reflexivity; rewrite IH; simpl; try reflexivity; lia.
Qed.

(** When the loop ends, every chunk it produced apart from the last one
    is a full window. *)
Lemma chunk_loop_full_windows (fuel : nat) (text : string)
    (chunk_size overlap start : Z) (chunks out : list string) :
  0 < chunk_size -> 0 <= start ->
  chunk_loop fuel text chunk_size overlap start chunks = Finished out ->
  exists new,
    out = chunks ++ new /\
    Forall (fun c => strlen c = chunk_size) (removelast new).
Proof.
  intros Hc. revert start chunks.
  induction fuel as [|fuel IH]; intros start chunks Hs; cbn [chunk_loop];
    [discriminate|].
  destruct (start <? strlen text) eqn:E.
  - apply Z.ltb_lt in E.
    set (end_ := Z.min (strlen text) (start + chunk_size)).
    set (c := Py.slice (Z.to_nat start) (Z.to_nat end_) text).
    destruct (end_ =? strlen text) eqn:E2.
    + intros [= <-]. exists [c]. split; [reflexivity | constructor].
    + apply Z.eqb_neq in E2. intros H.
      apply IH in H; [|lia]. destruct H as (new & -> & Hnew).
      exists (c :: new). rewrite <- app_assoc. split; [reflexivity|].
      destruct new as [|c' new']; [constructor|].
      change (removelast (c :: c' :: new'))
        with (c :: removelast (c' :: new')).
      constructor; [|exact Hnew].
      subst c. unfold strlen, Py.slice in *. rewrite substring_length.
      subst end_. lia.
  - intros [= <-]. exists []. rewrite app_nil_r. split; [reflexivity|].
    constructor.
Qed.

(** Text that is empty or blank gives no chunks. *)
Lemma split_ws_blank (s : string) :
  Py.existsb (fun c => negb (Py.isspace c)) s = false ->
  Py.split_ws s = [].
Proof.
  unfold Py.split_ws. induction s as [|c r IH]; simpl; [reflexivity|].
  destruct (Py.isspace c); simpl; [exact IH | discriminate].
Qed.

Lemma chunk_text_blank (fuel : nat) (text : string) (chunk_size overlap : Z) :
  0 < chunk_size -> 0 <= overlap ->
  Py.existsb (fun c => negb (Py.isspace c)) text = false ->
  chunk_text fuel text chunk_size overlap = Returns (Finished []).
Proof.
  intros Hc Ho Hb. unfold chunk_text.
  replace (chunk_size <=? 0) with false by (symmetry; apply Z.leb_gt; lia).
  replace (overlap <? 0) with false by (symmetry; apply Z.ltb_ge; lia).
  now rewrite (split_ws_blank text Hb).
Qed.

(** C4: [chunk_text] raises exactly for a window size that is not
    positive or a negative overlap; but for the text ab, window size 1
    and overlap 1, which pass that check, the loop never returns: it is
    still running after any number of turns. *)
Theorem chunk_text_overlap_loops_forever :
  (forall fuel text chunk_size overlap,
      (exists e, chunk_text fuel text chunk_size overlap = Raises e)
      <-> (chunk_size <= 0 \/ overlap < 0)) /\
  (forall fuel, chunk_text fuel "ab" 1 1 = Returns OutOfFuel).
Proof.
  split; [exact chunk_text_raises_iff|].
  intros fuel.
  change (chunk_text fuel "ab" 1 1)
    with (Returns (chunk_loop fuel "ab" 1 1 0 [])).
  f_equal. apply chunk_loop_stuck; [lia | reflexivity].
Qed.

(** ** FaissIndex *)

Lemma add_counts (s : FaissIndex) (v : ndarray) (p : list string) :
  length (_index s) = length (_passages s) ->
  length (_index (snd (FaissIndex_add s v p)))
  = length (_passages (snd (FaissIndex_add s v p))).
Proof.
  intros H. unfold FaissIndex_add.
  destruct (length p =? shape0 v)%nat eqn:E; cbn [negb]; [|exact H].
  destruct (shape1 v =? index_d s)%nat; cbn [negb snd]; [|exact H].
  cbn. apply Nat.eqb_eq in E. unfold shape0 in E.
  rewrite !length_app. congruence.
Qed.

Lemma search_keeps_index (F : Faiss) (s : FaissIndex) (q : vector) (k : Z) :
  snd (FaissIndex_search F s q k) = s.
Proof. reflexivity. Qed.

Lemma reachable_counts (F : Faiss) (s : FaissIndex) :
  reachable F s -> length (_index s) = length (_passages s).
Proof.
  induction 1 as [dim | s v p _ IH | s q k _ IH].
  - reflexivity.
  - now apply add_counts.
  - exact IH.
Qed.

(** C9: in every state an index can reach from its construction by
    [add] and [search], there are as many vectors as passages.  An [add]
    of as many passages as vectors (of the index's dimension) appends all
    of them to both collections; an [add] with different numbers raises
    and leaves the index as it was, as does every [add] that raises; any
    [add] lengthens both collections by the same number; [search] leaves
    the index as it was. *)
Theorem faiss_index_counts_agree (F : Faiss) :
  (forall s, reachable F s -> length (_index s) = length (_passages s)) /\
  (forall s v p,
      length p = shape0 v -> shape1 v = index_d s ->
      FaissIndex_add s v p =
      (Returns tt, {| index_d := index_d s;
                      _index := _index s ++ vecs v;
                      _passages := _passages s ++ p |}) /\
      length (_index (snd (FaissIndex_add s v p)))
      = (length (_index s) + length p)%nat /\
      length (_passages (snd (FaissIndex_add s v p)))
      = (length (_passages s) + length p)%nat) /\
  (forall s v p,
      length p <> shape0 v ->
      FaissIndex_add s v p =
      (Raises (ValueError "passages and vectors must have same length"), s)) /\
  (forall s v p e, fst (FaissIndex_add s v p) = Raises e ->
                   snd (FaissIndex_add s v p) = s) /\
  (forall s v p, exists k,
      length (_index (snd (FaissIndex_add s v p)))
      = (length (_index s) + k)%nat /\
      length (_passages (snd (FaissIndex_add s v p)))
      = (length (_passages s) + k)%nat) /\
  (forall s q k, snd (FaissIndex_search F s q k) = s).
Proof.
  split; [apply reachable_counts|].
  split; [|split; [|split; [|split]]].
  - intros s v p Hl Hd. unfold FaissIndex_add.
    rewrite (proj2 (Nat.eqb_eq _ _) Hl), (proj2 (Nat.eqb_eq _ _) Hd).
    cbn. rewrite !length_app. unfold shape0 in Hl. rewrite <- Hl. auto.
  - intros s v p Hl. unfold FaissIndex_add.
    now rewrite (proj2 (Nat.eqb_neq _ _) Hl).
  - intros s v p e. unfold FaissIndex_add.
    destruct (length p =? shape0 v)%nat; cbn [negb]; [|reflexivity].
    destruct (shape1 v =? index_d s)%nat; cbn [negb]; [|reflexivity].
    discriminate.
  - intros s v p. unfold FaissIndex_add.
    destruct (length p =? shape0 v)%nat eqn:E; cbn [negb];
      [|exists 0%nat; cbn; lia].
    destruct (shape1 v =? index_d s)%nat; cbn [negb];
      [|exists 0%nat; cbn; lia].
    exists (length p). cbn. rewrite !length_app.
    apply Nat.eqb_eq in E. unfold shape0 in E. lia.
  - intros s q k. apply search_keeps_index.
Qed.

(** ** Chat routing *)

Lemma lower_char_idem (c : ascii) :
  Py.lower_char (Py.lower_char c) = Py.lower_char c.
Proof. destruct c as [[] [] [] [] [] [] [] []]; reflexivity. Qed.

Lemma lower_idem (s : string) : Py.lower (Py.lower s) = Py.lower s.
Proof.
  induction s as [|c r IH]; simpl; [reflexivity|].
  now rewrite lower_char_idem, IH.
Qed.

(** A computation that is a plain value calls no service. *)
Lemma exec_Ret {A} env oracle (a : A) : exec env oracle (Ret a) = (a, []).
Proof. reflexivity. Qed.

(** C6: when the normalised question, in lower case, contains one of
    the summary keywords and none of the scope markers, the answer is the
    fixed clarifying question with the flag [false], computed without any
    call to an answering service, whatever the environment, the services
    and the retrieved passages are. *)
Theorem underspecified_summary_asks_for_scope
    (question : string) (retrieved : list RetrievedPassage) :
  Py.contains_any summary_keywords
                  (Py.lower (normalize_user_question question)) = true ->
  Py.contains_any scope_markers
                  (Py.lower (normalize_user_question question)) = false ->
  answer_with_llm_or_extract question retrieved
  = Ret (clarifying_question, false) /\
  forall env oracle,
    exec env oracle (answer_with_llm_or_extract question retrieved)
    = ((clarifying_question, false), []).
Proof.
  intros Hk Hm.
  assert (H : answer_with_llm_or_extract question retrieved
              = Ret (clarifying_question, false)).
  { unfold answer_with_llm_or_extract, _summary_is_underspecified,
      _wants_summary.
    now rewrite lower_idem, Hk, Hm. }
  split; [exact H|]. intros env oracle. now rewrite H.
Qed.

(** The question summarize, whatever was retrieved. *)
Lemma underspecified_summary_witness :
  answer_with_llm_or_extract "summarize" []
  = Ret (clarifying_question, false) /\
  forall env oracle,
    exec env oracle (answer_with_llm_or_extract "summarize" [])
    = ((clarifying_question, false), []).
Proof.
  apply (underspecified_summary_asks_for_scope "summarize" []);
    reflexivity.
Defined.

(** ** Column role detection *)

Lemma dict_keys_incl (cols seen : list string) (c : string) :
  In c (dict_keys seen cols) -> In c cols.
Proof.
  revert seen. induction cols as [|x r IH]; intros seen; simpl; [tauto|].
  destruct (existsb (String.eqb x) seen).
  - intros H. right. eauto.
  - intros [->|H]; [now left | right; eauto].
Qed.

Lemma first_some_ex {X Y} (f : X -> option Y) (l : list X) (y : Y) :
  first_some f l = Some y -> exists x, In x l /\ f x = Some y.
Proof.
  induction l as [|x r IH]; simpl; [discriminate|].
  destruct (f x) as [y'|] eqn:E.
  - intros [= ->]. exists x. auto.
  - intros H. destruct (IH H) as (x' & Hin & Hx). exists x'. auto.
Qed.

(** A hinted column is one of the columns offered. *)
Lemma best_col_in (cols hints : list string) (c : string) :
  _best_col cols hints = Some c -> In c cols.
Proof.
  unfold _best_col. intros H.
  apply first_some_ex in H. destruct H as (h & _ & H).
  destruct (find _ _) as [[c' nc]|] eqn:F; [|discriminate].
  cbn in H. injection H as ->.
  apply find_some in F. destruct F as [F _].
  apply in_map_iff in F. destruct F as (c'' & [= <- _] & F).
  eapply dict_keys_incl, F.
Qed.

(** A scoring loop that only ever records the column it is looking at
    ends with one of the columns, or with what it started from. *)
Lemma scan_raises {St} (step : St -> string -> outcome St)
    (cols : list string) (e : exn) :
  fold_left (fun st c => obind st (fun st => step st c)) cols (Raises e)
  = Raises e.
Proof. induction cols as [|x r IH]; simpl; auto. Qed.

Lemma scan_cons {St} (step : St -> string -> outcome St)
    (x : string) (r : list string) (st : St) :
  scan step (x :: r) st = obind (step st x) (scan step r).
Proof.
  unfold scan. simpl. destruct (step st x) as [st'|e]; simpl;
    [reflexivity | apply scan_raises].
Qed.

Lemma scored_col_in {X}
    (step : option string * X -> string -> outcome (option string * X))
    (cols : list string) :
  (forall st c st', step st c = Returns st' -> st' = st \/ fst st' = Some c) ->
  forall st0 st c, scan step cols st0 = Returns st -> fst st = Some c ->
                   In c cols \/ fst st0 = Some c.
Proof.
  intros Hstep. induction cols as [|x r IH]; intros st0 st c.
  - intros [= ->]. auto.
  - rewrite scan_cons. destruct (step st0 x) as [st1|e] eqn:E; [|discriminate].
    cbn [obind]. intros H Hc. destruct (IH _ _ _ H Hc) as [Hin|H1].
    + left. now right.
    + destruct (Hstep _ _ _ E) as [->|E1]; [auto|].
      rewrite E1 in H1. injection H1 as ->. left. now left.
Qed.

Lemma detect_category_col_in {N} (lf : Ledger N) (exclude : list string)
    (c : string) :
  _detect_category_col lf exclude = Returns (Some c) ->
  In c (ledger_columns lf) /\ ~ In c exclude.
Proof.
  unfold _detect_category_col.
  set (cols := filter _ (ledger_columns lf)).
  assert (Hcols : forall x, In x cols -> In x (ledger_columns lf) /\ ~ In x exclude).
  { intros x Hx. apply filter_In in Hx. destruct Hx as [Hx He].
    split; [exact Hx|]. intros Hin.
    apply negb_true_iff in He.
    assert (existsb (String.eqb x) exclude = true)
      by (apply existsb_exists; exists x; split; [exact Hin | apply String.eqb_refl]).
    congruence. }
  destruct (truthy_opt (_best_col cols _CATEGORY_HINTS)) eqn:T.
  - intros [= H]. apply Hcols. eapply best_col_in, H.
  - destruct (scan _ cols (None, 0%float)) as [st|e] eqn:Hs; [|discriminate].
    cbn [obind]. intros [= H].
    eapply scored_col_in in Hs; [| |exact H].
    + destruct Hs as [Hs|Hs]; [now apply Hcols | discriminate].
    + intros st0 x st'. destruct (ledger_column lf x) as [col|rows|].
      * destruct (dropna col); [intros [= <-]; now left|].
        destruct (_ <? _)%float; intros [= <-]; [now right | now left].
      * destruct (complete_rows rows); [intros [= <-]; now left | discriminate].
      * discriminate.
Qed.

(** ** Labels and the columns that carry them *)

Lemma positions_In (c : string) (cols : list string) (i k : nat) :
  In k (positions c cols i) ->
  (i <= k)%nat /\ nth_error cols (k - i) = Some c.
Proof.
  revert i. induction cols as [|x r IH]; intros i; simpl; [tauto|].
  destruct (String.eqb_spec x c) as [->|Hne].
  - intros [<-|H].
    + rewrite Nat.sub_diag. auto.
    + apply IH in H. destruct H as [Hle H]. split; [lia|].
      replace (k - i)%nat with (S (k - S i)) by lia. exact H.
  - intros H. apply IH in H. destruct H as [Hle H]. split; [lia|].
    replace (k - i)%nat with (S (k - S i)) by lia. exact H.
Qed.

Lemma positions_nil (c : string) (cols : list string) (i : nat) :
  positions c cols i = [] <-> ~ In c cols.
Proof.
  revert i. induction cols as [|x r IH]; intros i; simpl; [tauto|].
  destruct (String.eqb_spec x c) as [->|Hne].
  - split; [discriminate | intros H; exfalso; auto].
  - rewrite IH. split; intros H; [intros [E|E]; auto | auto].
Qed.

Lemma occurrences_In (c : string) (cols : list string) :
  In c cols <-> (1 <= occurrences c cols)%nat.
Proof.
  unfold occurrences. pose proof (positions_nil c cols 0) as H.
  destruct (positions c cols 0) as [|k l]; cbn [length].
  - split; [intros Hin; exfalso; now apply H | lia].
  - split; [lia|]. intros _.
    destruct (in_dec string_dec c cols) as [Hin|Hout]; [exact Hin|].
    apply H in Hout. discriminate.
Qed.

Lemma positions_head (c : string) (cols : list string) (i k : nat)
    (l : list nat) :
  positions c cols i = k :: l ->
  option_map (fun j => (j + i)%nat) (col_index c cols) = Some k.
Proof.
  revert i. induction cols as [|x r IH]; intros i; simpl; [discriminate|].
  destruct (String.eqb x c).
  - intros [= <- _]. reflexivity.
  - intros H. apply IH in H. destruct (col_index c r) as [j|]; [|discriminate].
    cbn in *. injection H as <-. f_equal. lia.
Qed.

(** The selections: a series is the column at the one place the label
    has. *)
Lemma select_series (cols : list string) (rows : list (list cell))
    (c : string) (s : list cell) :
  select cols rows c = Series s ->
  occurrences c cols = 1%nat /\
  exists i, col_index c cols = Some i /\
            s = map (fun r => nth i r None) rows.
Proof.
  unfold select, occurrences.
  destruct (positions c cols 0) as [|k [|k' l]] eqn:E; try discriminate.
  intros [= <-]. split; [reflexivity|].
  apply positions_head in E. destruct (col_index c cols) as [j|]; [|discriminate].
  cbn in E. injection E as <-. exists j. rewrite Nat.add_0_r. auto.
Qed.

Lemma select_frame (cols : list string) (rows frame : list (list cell))
    (c : string) :
  select cols rows c = Frame frame ->
  (2 <= occurrences c cols)%nat /\
  frame = map (fun r => map (fun i => nth i r None) (positions c cols 0)) rows.
Proof.
  unfold select, occurrences.
  destruct (positions c cols 0) as [|k [|k' l]] eqn:E; try discriminate.
  intros [= <-]. split; [cbn; lia | reflexivity].
Qed.

Lemma select_missing (cols : list string) (rows : list (list cell))
    (c : string) :
  select cols rows c = Missing <-> ~ In c cols.
Proof.
  unfold select. rewrite <- (positions_nil c cols 0).
  destruct (positions c cols 0) as [|k [|k' l]]; split; congruence.
Qed.

Lemma select_cases (cols : list string) (rows : list (list cell))
    (c : string) :
  match select cols rows c with
  | Series _ => occurrences c cols = 1%nat
  | Frame _ => (2 <= occurrences c cols)%nat
  | Missing => occurrences c cols = 0%nat
  end.
Proof.
  unfold select, occurrences.
  destruct (positions c cols 0) as [|k [|k' l]]; cbn; lia.
Qed.

(** ** Table candidate selection *)

Lemma validated_shape {N} (df1 : DataFrame) (dt amt : string)
    (dts : list (option Timestamp)) (amts : list (option N))
    (c : FinanceParseResult N) :
  validated df1 dt amt dts amts = Returns (Some c) ->
  (3 <= nrows c)%nat /\
  datetime_col c = dt /\ amount_col c = amt /\
  ledger_columns (df c) = columns df1 /\
  ledger_rows (df c) = validated_rows (values df1) dts amts /\
  _detect_category_col (df c) [dt; amt] = Returns (category_col c).
Proof.
  unfold validated. cbn [ledger_rows].
  destruct (_ <? 3)%nat eqn:L; [discriminate|].
  destruct (_detect_category_col _ _) as [cat|e] eqn:Hc; [|discriminate].
  cbn [obind]. intros [= <-]. cbn. apply Nat.ltb_ge in L. repeat split; auto.
Qed.

Lemma as_parsed_some {N} (kind : FinanceParseResult N -> Parsed)
    (m : outcome (option (FinanceParseResult N))) (c : Parsed) :
  as_parsed kind m = Returns (Some c) ->
  exists r, m = Returns (Some r) /\ c = kind r.
Proof.
  unfold as_parsed. destruct m as [[r|]|e]; cbn; try discriminate.
  intros [= <-]. eauto.
Qed.

Lemma as_parsed_returns {N} (kind : FinanceParseResult N -> Parsed)
    (m : outcome (option (FinanceParseResult N))) (r : option Parsed) :
  as_parsed kind m = Returns r ->
  exists r0, m = Returns r0 /\ r = option_map kind r0.
Proof.
  unfold as_parsed. destruct m as [r0|e]; cbn; [|discriminate].
  intros [= <-]. eauto.
Qed.

(** The shape of a surviving candidate. *)
Lemma candidate_shape (P : DatetimeParser) (t : RawGrid) (c : Parsed) :
  candidate_of P t = Returns (Some c) ->
  (3 <= parsed_rows c)%nat /\
  Py.truthy (parsed_datetime_col c) = true /\
  Py.truthy (parsed_amount_col c) = true /\
  category_detected c.
Proof.
  unfold candidate_of.
  destruct t as [|row0 [|row1 body]]; try discriminate.
  destruct (count_true Py.truthy (map header_label row0) <? 2)%nat;
    [discriminate|].
  destruct (mk_DataFrame (row1 :: body) (map header_label row0)) as [df0|e];
    [|discriminate].
  cbn [obind].
  destruct (length (values (dropna_all df0)) <? 3)%nat; [discriminate|].
  destruct (_detect_datetime_col P (dropna_all df0)) as [[dt|]|e];
    try discriminate.
  2:{ cbn [obind]. destruct (_detect_amount_col _) as [?|?]; discriminate. }
  cbn [obind].
  destruct (_detect_amount_col (dropna_all df0)) as [[amt|]|e];
    try discriminate.
  cbn [obind].
  destruct (Py.truthy dt) eqn:Tdt; [|discriminate].
  destruct (Py.truthy amt) eqn:Tamt; [|discriminate].
  cbn [negb orb].
  destruct (column (dropna_all df0) dt) as [dates|?|]; try discriminate.
  assert (Hone : forall amts,
             as_parsed OneAmount
               (validated (dropna_all df0) dt amt (to_datetime P dates) amts)
             = Returns (Some c) ->
             (3 <= parsed_rows c)%nat /\
             Py.truthy (parsed_datetime_col c) = true /\
             Py.truthy (parsed_amount_col c) = true /\
             category_detected c).
  { intros amts H. apply as_parsed_some in H. destruct H as (r & H & ->).
    apply validated_shape in H. destruct H as (H3 & Hd & Ha & _ & _ & Hc).
    cbn. rewrite Hd, Ha. auto. }
  destruct (String.eqb dt amt); [apply Hone|].
  destruct (column (dropna_all df0) amt) as [texts|rows|]; try discriminate;
    [apply Hone|].
  destruct (frame_map P); [|discriminate].
  intros H. apply as_parsed_some in H. destruct H as (r & H & ->).
  apply validated_shape in H. destruct H as (H3 & Hd & Ha & _ & _ & Hc).
  cbn. rewrite Hd, Ha. auto.
Qed.

Lemma parse_loop_result (P : DatetimeParser) (tables : list RawGrid)
    best n (p : Parsed) :
  parse_loop P tables best n = Returns (Some p) ->
  best = Some p \/ exists t, In t tables /\ candidate_of P t = Returns (Some p).
Proof.
  revert best n. induction tables as [|t rest IH]; intros best n; simpl.
  - intros [= ->]. now left.
  - destruct (candidate_of P t) as [[c|]|e] eqn:E; [| |discriminate].
    + destruct (n <? parsed_rows c)%nat; intros H; apply IH in H.
      * destruct H as [[= ->]|(t' & Hin & Ht')]; right; eauto.
      * destruct H as [H|(t' & Hin & Ht')]; [now left | right; eauto].
    + intros H. apply IH in H.
      destruct H as [H|(t' & Hin & Ht')]; [now left | right; eauto].
Qed.

(** C10: whenever [parse_financial_tables] returns a result with a
    category column, that column is neither the datetime column nor the
    amount column of the result. *)
Theorem category_col_is_unclaimed (P : DatetimeParser)
    (tables : list RawGrid) (p : Parsed) (c : string) :
  parse_financial_tables P tables = Returns (Some p) ->
  parsed_category_col p = Some c ->
  c <> parsed_datetime_col p /\ c <> parsed_amount_col p.
Proof.
  intros Hp Hc. apply parse_loop_result in Hp.
  destruct Hp as [Hp|(t & _ & Ht)]; [discriminate|].
  apply candidate_shape in Ht. destruct Ht as (_ & _ & _ & Hcat).
  destruct p as [r|r]; cbn in *; rewrite Hc in Hcat;
    apply detect_category_col_in in Hcat; destruct Hcat as [_ Hex];
    split; intros ->; apply Hex; simpl; auto.
Qed.

Lemma best_of_snoc (done : list Parsed) best (c : Parsed) :
  best_of done best -> (1 <= parsed_rows c)%nat ->
  let n := match best with Some b => parsed_rows b | None => 0%nat end in
  best_of (done ++ [c]) (if (n <? parsed_rows c)%nat then Some c else best).
Proof.
  intros Hb Hc n. destruct (n <? parsed_rows c)%nat eqn:E.
  - apply Nat.ltb_lt in E. exists done, []. split; [reflexivity|].
    split; [|constructor].
    destruct best as [b|]; cbn in Hb; subst n.
    { destruct Hb as (pre & post & -> & Hpre & Hpost).
      apply Forall_app. split; [|constructor; [lia|]];
        (eapply Forall_impl; [|eassumption]); cbn; intros; lia. }
    { subst done. constructor. }
  - apply Nat.ltb_ge in E. destruct best as [b|]; cbn in Hb; subst n.
    { destruct Hb as (pre & post & -> & Hpre & Hpost).
      exists pre, (post ++ [c]). rewrite <- app_assoc. split; [reflexivity|].
      split; [exact Hpre|]. apply Forall_app. split; [exact Hpost|].
      constructor; [exact E | constructor]. }
    { lia. }
Qed.

Lemma parse_loop_best (P : DatetimeParser) (tables : list RawGrid) :
  all_return P tables ->
  forall done best,
    best_of done best ->
    exists r,
      parse_loop P tables best
                 (match best with Some b => parsed_rows b | None => 0%nat end)
      = Returns r /\
      best_of (done ++ survivors P tables) r.
Proof.
  induction 1 as [|t rest Ht _ IH]; intros done best Hb; simpl.
  - exists best. now rewrite app_nil_r.
  - destruct Ht as [[c|] Hc]; rewrite Hc.
    + pose proof (candidate_shape P t c Hc) as (H3 & _).
      pose proof (best_of_snoc done best c Hb ltac:(lia)) as Hn.
      cbv zeta in Hn.
      set (n := match best with Some b => parsed_rows b | None => 0%nat end) in *.
      destruct (n <? parsed_rows c)%nat;
        destruct (IH _ _ Hn) as (r & Hr & Hbest);
        exists r; cbn [app]; rewrite <- app_assoc in Hbest; auto.
    + destruct (IH _ _ Hb) as (r & Hr & Hbest). exists r. auto.
Qed.

Lemma survivors_rows (P : DatetimeParser) (tables : list RawGrid) :
  Forall (fun c => (3 <= parsed_rows c)%nat) (survivors P tables).
Proof.
  unfold survivors. apply Forall_forall. intros c Hc.
  apply in_flat_map in Hc. destruct Hc as (t & _ & Hc).
  destruct (candidate_of P t) as [[c'|]|e] eqn:E; try contradiction.
  destruct Hc as [<-|[]]. now apply candidate_shape in E.
Qed.

(** When no turn of the loop raises, the result is the surviving
    candidate with the greatest validated row count, the first of them
    in input order, and none when no grid survives; a survivor has at
    least three validated rows. *)
Lemma selects_best_when_all_return (P : DatetimeParser)
    (tables : list RawGrid) :
  all_return P tables ->
  selects_best P tables /\
  Forall (fun c => (3 <= parsed_rows c)%nat) (survivors P tables).
Proof.
  intros H. split; [|apply survivors_rows].
  destruct (parse_loop_best P tables H [] None eq_refl) as (r & Hr & Hb).
  exists r. auto.
Qed.

(** A turn that raises ends the loop: the grids after it are not looked
    at, and the candidates found before it are lost. *)
Lemma parse_loop_raises (P : DatetimeParser) (before after : list RawGrid)
    (t : RawGrid) (e : exn) :
  all_return P before -> candidate_of P t = Raises e ->
  forall best n, parse_loop P (before ++ t :: after) best n = Raises e.
Proof.
  intros Hb Ht. induction Hb as [|t0 rest [c Hc] _ IH]; intros best n; simpl.
  - now rewrite Ht.
  - rewrite Hc. destruct c as [c|]; [|apply IH].
    destruct (n <? parsed_rows c)%nat; apply IH.
Qed.

(** ** The order of binary64 values *)

Ltac compare_cases :=
  repeat match goal with
         | |- context [Z.compare ?a ?b] =>
             destruct (Z.compare_spec a b)
         | |- context [Pos.compare ?a ?b] =>
             destruct (Pos.compare_spec a b)
         | H : context [Z.compare ?a ?b] |- _ =>
             destruct (Z.compare_spec a b)
         | H : context [Pos.compare ?a ?b] |- _ =>
             destruct (Pos.compare_spec a b)
         end.

Lemma SFleb_total (x y : spec_float) :
  x <> S754_nan -> y <> S754_nan -> SFleb x y = false -> SFleb y x = true.
Proof.
  unfold SFleb, SFcompare.
  destruct x as [[]|[]| |[] m1 e1], y as [[]|[]| |[] m2 e2];
    try congruence; intros _ _;
    change (Pos.compare_cont Eq) with Pos.compare;
    compare_cases; cbn; intros; subst; try congruence; try lia.
Qed.

Lemma SFleb_trans (x y z : spec_float) :
  SFleb x y = true -> SFleb y z = true -> SFleb x z = true.
Proof.
  unfold SFleb, SFcompare.
  destruct x as [[]|[]| |[] m1 e1], y as [[]|[]| |[] m2 e2],
           z as [[]|[]| |[] m3 e3];
    try congruence;
    change (Pos.compare_cont Eq) with Pos.compare;
    compare_cases; cbn; intros; subst; try congruence; try lia.
Qed.

Lemma is_nan_spec (x : float) :
  PrimFloat.is_nan x = false -> Prim2SF x <> S754_nan.
Proof.
  unfold PrimFloat.is_nan. rewrite eqb_spec. intros H E. rewrite E in H.
  discriminate.
Qed.

Lemma leb_total (x y : float) :
  PrimFloat.is_nan x = false -> PrimFloat.is_nan y = false ->
  (x <=? y)%float = false -> (y <=? x)%float = true.
Proof.
  intros Hx Hy. rewrite !leb_spec.
  apply SFleb_total; now apply is_nan_spec.
Qed.

Lemma leb_trans (x y z : float) :
  (x <=? y)%float = true -> (y <=? z)%float = true -> (x <=? z)%float = true.
Proof. rewrite !leb_spec. apply SFleb_trans. Qed.

Lemma ltb_not_nan_r (x y : float) :
  (x <? y)%float = true -> PrimFloat.is_nan y = false.
Proof.
  unfold PrimFloat.is_nan. rewrite ltb_spec, eqb_spec.
  unfold SFltb, SFeqb, SFcompare.
  destruct (Prim2SF x) as [[]|[]| |[] m1 e1], (Prim2SF y) as [[]|[]| |[] m2 e2];
    try congruence; intros _; cbn;
    change (Pos.compare_cont Eq) with Pos.compare;
    rewrite ?Z.compare_refl, ?Pos.compare_refl; reflexivity.
Qed.

Lemma ltb_not_nan_l (x y : float) :
  (x <? y)%float = true -> PrimFloat.is_nan x = false.
Proof.
  unfold PrimFloat.is_nan. rewrite ltb_spec, eqb_spec.
  unfold SFltb, SFeqb, SFcompare.
  destruct (Prim2SF x) as [[]|[]| |[] m1 e1], (Prim2SF y) as [[]|[]| |[] m2 e2];
    try congruence; intros _; cbn;
    change (Pos.compare_cont Eq) with Pos.compare;
    rewrite ?Z.compare_refl, ?Pos.compare_refl; reflexivity.
Qed.

(** ** Lists under sorting *)

Lemma perm_filter_length {X} (f : X -> bool) (l l' : list X) :
  Permutation l l' -> length (filter f l) = length (filter f l').
Proof.
  induction 1 as [|x l l' _ IH|x y l|l l' l'' _ IH1 _ IH2]; simpl.
  - reflexivity.
  - destruct (f x); simpl; congruence.
  - destruct (f x), (f y); reflexivity.
  - congruence.
Qed.

Lemma Sorted_snoc {X} (R : X -> X -> Prop) (l : list X) (a : X) :
  Sorted R l -> (forall d, l <> [] -> R (last l d) a) -> Sorted R (l ++ [a]).
Proof.
  induction 1 as [|x l Hs IH Hhd]; intros Hlast; simpl.
  - repeat constructor.
  - constructor.
    + apply IH. intros d Hne. specialize (Hlast d ltac:(discriminate)).
      destruct l; [contradiction | exact Hlast].
    + destruct l as [|y l]; simpl.
      * constructor. apply (Hlast x). discriminate.
      * constructor. now inversion Hhd.
Qed.

Lemma Sorted_rev {X} (R : X -> X -> Prop) (l : list X) :
  Sorted R l -> Sorted (fun a b => R b a) (rev l).
Proof.
  induction 1 as [|x l Hs IH Hhd]; simpl; [constructor|].
  apply Sorted_snoc; [exact IH|].
  intros d Hne. destruct l as [|y l]; [now destruct Hne|].
  inversion Hhd as [|? ? Hxy]; subst.
  simpl. now rewrite last_last.
Qed.

Lemma Sorted_firstn {X} (R : X -> X -> Prop) (n : nat) (l : list X) :
  Sorted R l -> Sorted R (firstn n l).
Proof.
  intros Hs. revert n. induction Hs as [|x l Hs IH Hhd]; intros [|n]; simpl;
    try constructor.
  - apply IH.
  - destruct Hhd, n; simpl; constructor. assumption.
Qed.

Lemma firstn_incl {X} (n : nat) (l : list X) (x : X) :
  In x (firstn n l) -> In x l.
Proof.
  revert n. induction l as [|y l IH]; intros [|n]; simpl; try tauto.
  intros [->|H]; eauto.
Qed.

(** ** sort_values *)

Lemma sort_values_perm (S : Sorter) {X} (le : X -> X -> bool) (asc : bool)
    (l : list X) :
  Permutation (sort_values S le asc l) l.
Proof.
  unfold sort_values. destruct asc.
  - apply sort_perm.
  - rewrite <- Permutation_rev, sort_perm. symmetry. apply Permutation_rev.
Qed.

Section SortValues.

Context (S : Sorter) {X : Type} (le : X -> X -> bool) (l : list X).
Hypothesis le_total :
  forall x y, In x l -> In y l -> le x y = false -> le y x = true.
Hypothesis le_trans :
  forall x y z, In x l -> In y l -> In z l ->
                le x y = true -> le y z = true -> le x z = true.

Lemma sort_values_ascending :
  Sorted (fun a b => le a b = true) (sort_values S le true l).
Proof. now apply sort_sorted. Qed.

Lemma sort_values_descending :
  Sorted (fun a b => le b a = true) (sort_values S le false l).
Proof.
  unfold sort_values.
  apply (Sorted_rev (fun a b => le a b = true)).
  apply sort_sorted.
  - intros x y Hx Hy. apply le_total; now apply in_rev.
  - intros x y z Hx Hy Hz. apply le_trans; now apply in_rev.
Qed.

End SortValues.

(** ** Largest transactions *)

Lemma head_nonneg {X} (n : Z) (l : list X) :
  0 <= n -> head n l = firstn (Z.to_nat n) l.
Proof. intros H. unfold head. now rewrite (proj2 (Z.leb_le 0 n) H). Qed.

Lemma base_rows_amounts {N} (S : Sorter) (p : FinanceParseResult N)
    (f : N -> bool) :
  length (filter (fun r => f (tx_amount r)) (base_rows S p))
  = count_true f (amounts p).
Proof.
  unfold base_rows, count_true, amounts.
  rewrite (perm_filter_length _ _ _ (sort_values_perm S _ true _)).
  rewrite !filter_map_swap, !length_map. reflexivity.
Qed.

(** Amounts that passed a comparison with zero are numbers, and numbers
    are totally ordered. *)
Lemma signed_amounts_ordered (l : list (Transaction float)) :
  Forall (fun r => PrimFloat.is_nan (tx_amount r) = false) l ->
  (forall x y, In x l -> In y l ->
               by_tx_amount binary64 x y = false ->
               by_tx_amount binary64 y x = true) /\
  (forall x y z, In x l -> In y l -> In z l ->
                 by_tx_amount binary64 x y = true ->
                 by_tx_amount binary64 y z = true ->
                 by_tx_amount binary64 x z = true).
Proof.
  intros Hl. rewrite Forall_forall in Hl. split.
  - intros x y Hx Hy. apply leb_total; auto.
  - intros x y z _ _ _. apply leb_trans.
Qed.

Lemma four_rows_parsed :
  parse_financial_tables iso_dates [four_rows_grid]
  = Returns (Some (OneAmount four_rows)).
Proof. vm_compute. reflexivity. Qed.

Lemma base_rows_from_ledger {N} (S : Sorter) (p : FinanceParseResult N)
    (r : Transaction N) :
  In r (base_rows S p) ->
  exists row, In row (ledger_rows (df p))
              /\ tx_when r = when row /\ tx_amount r = amount row.
Proof.
  unfold base_rows. intros H.
  apply (Permutation_in _ (sort_values_perm S _ true _)) in H.
  apply in_map_iff in H. destruct H as (row & <- & Hrow).
  exists row. auto.
Qed.

Section TopLists.

Context (S : Sorter) (p : FinanceParseResult float) (k : nat).

Let base := base_rows S p.

Lemma top_side (sign : float -> bool) (asc : bool) :
  (forall x, sign x = true -> PrimFloat.is_nan x = false) ->
  let l := firstn k (sort_values S (by_tx_amount binary64) asc
                                 (filter (fun r => sign (tx_amount r)) base)) in
  Forall (fun r => In r base /\ sign (tx_amount r) = true) l /\
  Sorted (fun a b => if asc then (tx_amount a <=? tx_amount b)%float = true
                     else (tx_amount b <=? tx_amount a)%float = true) l /\
  (length l <= k)%nat /\
  (length l <= count_true sign (amounts p))%nat.
Proof.
  intros Hsign l.
  set (f := filter (fun r => sign (tx_amount r)) base) in *.
  assert (Hf : Forall (fun r => PrimFloat.is_nan (tx_amount r) = false) f).
  { apply Forall_forall. intros r Hr. apply filter_In in Hr.
    now apply Hsign. }
  destruct (signed_amounts_ordered f Hf) as [Htot Htr].
  split; [|split; [|split]].
  - apply Forall_forall. intros r Hr. apply firstn_incl in Hr.
    apply (Permutation_in _ (sort_values_perm S _ asc f)) in Hr.
    now apply filter_In in Hr.
  - apply Sorted_firstn. destruct asc.
    + now apply sort_values_ascending.
    + now apply sort_values_descending.
  - apply firstn_le_length.
  - subst l. rewrite length_firstn.
    rewrite (Permutation_length (sort_values_perm S _ asc f)).
    subst f base. rewrite base_rows_amounts. lia.
Qed.

End TopLists.

(** For every [n >= 0], the income list holds rows of positive amount
    in non-increasing order of amount, the expense list rows of negative
    amount in non-decreasing order; each list has at most [n] rows and
    at most as many as there are rows of its sign.  This holds for every
    sorting routine. *)
Lemma top_transactions_sorted (S : Sorter) (p : FinanceParseResult float)
    (n : Z) :
  0 <= n -> top_lists S p n.
Proof.
  intros Hn. unfold top_lists, top_transactions. cbn [fst snd].
  rewrite !(head_nonneg n _ Hn).
  destruct (top_side S p (Z.to_nat n) (positive binary64) false)
    as (I1 & I2 & I3 & I4); [intros x; apply ltb_not_nan_r|].
  destruct (top_side S p (Z.to_nat n) (negative binary64) true)
    as (E1 & E2 & E3 & E4); [intros x; apply ltb_not_nan_l|].
  repeat split; try assumption; lia.
Qed.

(** *** Equal keys under insertion sort *)

Lemma insert_perm {X} (le : X -> X -> bool) (x : X) (l : list X) :
  Permutation (insert le x l) (x :: l).
Proof.
  induction l as [|h t IH]; simpl; [reflexivity|].
  destruct (le x h); [reflexivity|]. rewrite IH. apply perm_swap.
Qed.

Lemma isort_perm {X} (le : X -> X -> bool) (l : list X) :
  Permutation (isort le l) l.
Proof.
  induction l as [|h t IH]; [reflexivity|].
  change (isort le (h :: t)) with (insert le h (isort le t)).
  rewrite insert_perm. now constructor.
Qed.

Section Stable.

Context {X : Type} (le : X -> X -> bool) (T : X -> X -> Prop).

(** In the outcome [x] comes before [y] when its key is not greater,
    and when the keys are equal only if it came before in the input
    ([T] holds of the pairs of the input, in their order). *)
Let Q (x y : X) : Prop := le x y = true /\ (le y x = true -> T x y).

Lemma insert_stable (x : X) (l : list X) :
  (forall y, In y l -> le x y = false -> le y x = true) ->
  (forall y z, In y l -> In z l ->
               le x y = true -> le y z = true -> le x z = true) ->
  StronglySorted Q l -> Forall (T x) l ->
  StronglySorted Q (insert le x l).
Proof.
  intros Htot Htr Hs. induction Hs as [|h t Ht IH Hh]; intros Hx; simpl.
  - repeat constructor.
  - destruct (le x h) eqn:E.
    + constructor; [now constructor|].
      rewrite Forall_forall in Hx, Hh. apply Forall_forall.
      intros y [<-|Hy].
      * split; [exact E | intros _; apply Hx; now left].
      * split; [|intros _; apply Hx; now right].
        apply (Htr h y); [now left | now right | exact E | now apply Hh].
    + inversion_clear Hx as [|? ? Hxh Hxt].
      constructor.
      * apply IH; trivial.
        -- intros y Hy. apply Htot. now right.
        -- intros y z Hy Hz. apply Htr; now right.
      * apply Forall_forall. intros y Hy.
        apply (Permutation_in _ (insert_perm le x t)) in Hy.
        destruct Hy as [<-|Hy].
        -- split; [apply Htot; [now left | exact E] | congruence].
        -- rewrite Forall_forall in Hh. now apply Hh.
Qed.

Lemma isort_stable (l : list X) :
  (forall x y, In x l -> In y l -> le x y = false -> le y x = true) ->
  (forall x y z, In x l -> In y l -> In z l ->
                 le x y = true -> le y z = true -> le x z = true) ->
  StronglySorted T l -> StronglySorted Q (isort le l).
Proof.
  intros Htot Htr Hs. induction Hs as [|h t Ht IH Hh]; [constructor|].
  change (isort le (h :: t)) with (insert le h (isort le t)).
  assert (Hin : forall y, In y (isort le t) -> In y t)
    by (intros y; apply Permutation_in, isort_perm).
  apply insert_stable.
  - intros y Hy. apply Htot; [now left | right; auto].
  - intros y z Hy Hz. apply Htr; [now left | right; auto | right; auto].
  - apply IH.
    + intros x y Hx Hy. apply Htot; now right.
    + intros x y z Hx Hy Hz. apply Htr; now right.
  - apply Forall_forall. intros y Hy. rewrite Forall_forall in Hh. auto.
Qed.

End Stable.

Lemma StronglySorted_weaken {X} (R R' : X -> X -> Prop) (l : list X) :
  (forall a b, R a b -> R' a b) ->
  StronglySorted R l -> StronglySorted R' l.
Proof.
  intros HR. induction 1 as [|a l _ IH Ha]; constructor; [exact IH|].
  eapply Forall_impl; [|exact Ha]. apply HR.
Qed.

Lemma StronglySorted_filter {X} (R : X -> X -> Prop) (f : X -> bool)
    (l : list X) :
  StronglySorted R l -> StronglySorted R (filter f l).
Proof.
  induction 1 as [|h t Ht IH Hh]; simpl; [constructor|].
  destruct (f h); [|exact IH]. constructor; [exact IH|].
  apply Forall_forall. intros y Hy. apply filter_In in Hy.
  rewrite Forall_forall in Hh. now apply Hh.
Qed.

Lemma StronglySorted_snoc {X} (R : X -> X -> Prop) (l : list X) (a : X) :
  StronglySorted R l -> Forall (fun y => R y a) l ->
  StronglySorted R (l ++ [a]).
Proof.
  induction 1 as [|b m Hm IHm Hb]; intros Ha; simpl.
  - repeat constructor.
  - inversion_clear Ha as [|? ? Hba Hma]. constructor; [now apply IHm|].
    apply Forall_app. split; [exact Hb | now repeat constructor].
Qed.

Lemma StronglySorted_rev {X} (R : X -> X -> Prop) (l : list X) :
  StronglySorted R l -> StronglySorted (fun x y => R y x) (rev l).
Proof.
  induction 1 as [|h t Ht IH Hh]; simpl; [constructor|].
  apply StronglySorted_snoc; [exact IH|].
  apply Forall_forall. intros y Hy. apply in_rev in Hy.
  rewrite Forall_forall in Hh. auto.
Qed.

Lemma StronglySorted_firstn {X} (R : X -> X -> Prop) (n : nat) (l : list X) :
  StronglySorted R l -> StronglySorted R (firstn n l).
Proof.
  intros H. revert n. induction H as [|h t Ht IH Hh]; intros [|n]; simpl;
    try constructor; [apply IH|].
  apply Forall_forall. intros y Hy. apply firstn_incl in Hy.
  rewrite Forall_forall in Hh. auto.
Qed.

Lemma StronglySorted_pair {X} (R : X -> X -> Prop)
    (pre mid post : list X) (a b : X) :
  StronglySorted R (pre ++ a :: mid ++ b :: post) -> R a b.
Proof.
  induction pre as [|x pre IH]; simpl; intros H; inversion_clear H as [|? ? Hs Hf].
  - rewrite Forall_forall in Hf. apply Hf, in_or_app. right. now left.
  - auto.
Qed.

(** The rows of [base], in the order of their dates. *)
Lemma base_rows_by_date (p : FinanceParseResult float) :
  StronglySorted (fun a b => tx_when a <= tx_when b)
                 (base_rows insertion_sorter p).
Proof.
  unfold base_rows.
  set (l := map _ (ledger_rows (df p))). cbn [sort_values insertion_sorter sort].
  apply Sorted_StronglySorted; [intros x y z; lia|].
  eapply Sorted_ind with (P := fun m => Sorted (fun a b => tx_when a <= tx_when b) m);
    [constructor | |
     apply (sort_sorted insertion_sorter _ by_tx_when l);
       unfold by_tx_when; intros; lia].
  intros a m _ IH Hhd. constructor; [exact IH|].
  destruct Hhd as [|b m' Hab]; constructor.
  unfold by_tx_when in Hab. lia.
Qed.

Section Ties.

Context (p : FinanceParseResult float) (k : nat).

Let base := base_rows insertion_sorter p.

Lemma top_side_ties (sign : float -> bool) (asc : bool) :
  (forall x, sign x = true -> PrimFloat.is_nan x = false) ->
  ties_in_date_order
    (firstn k (sort_values insertion_sorter (by_tx_amount binary64) asc
                           (filter (fun r => sign (tx_amount r)) base))).
Proof.
  intros Hsign.
  set (f := filter (fun r => sign (tx_amount r)) base).
  assert (Hf : Forall (fun r => PrimFloat.is_nan (tx_amount r) = false) f).
  { apply Forall_forall. intros r Hr. apply filter_In in Hr.
    now apply Hsign. }
  destruct (signed_amounts_ordered f Hf) as [Htot Htr].
  assert (Hdate : StronglySorted (fun a b => tx_when a <= tx_when b) f)
    by apply StronglySorted_filter, base_rows_by_date.
  assert (Hgoal : StronglySorted
                    (fun a b => (tx_amount a <=? tx_amount a)%float = true ->
                                tx_amount a = tx_amount b ->
                                tx_when a <= tx_when b)
                    (sort_values insertion_sorter (by_tx_amount binary64) asc f)).
  { destruct asc; cbn [sort_values insertion_sorter sort].
    - eapply StronglySorted_weaken;
        [|apply (isort_stable _ (fun a b => tx_when a <= tx_when b));
          [exact Htot | exact Htr | exact Hdate]].
      cbv beta. intros a b [_ H] Ha E. apply H.
      unfold by_tx_amount. cbn [leb binary64]. now rewrite <- E.
    - eapply StronglySorted_weaken;
        [|apply StronglySorted_rev,
            (isort_stable _ (fun a b => tx_when b <= tx_when a));
          [intros x y Hx Hy; apply Htot; now apply in_rev
          |intros x y z Hx Hy Hz; apply Htr; now apply in_rev
          |apply (StronglySorted_rev _ _ Hdate)]].
      cbv beta. intros a b [_ H] Ha E. apply H.
      unfold by_tx_amount. cbn [leb binary64]. now rewrite <- E. }
  intros pre a mid b post Hl E.
  pose proof (StronglySorted_firstn _ k _ Hgoal) as Hs.
  fold f in Hl. rewrite Hl in Hs.
  apply StronglySorted_pair in Hs. apply Hs; [|exact E].
  assert (Ha : In a f).
  { apply (Permutation_in _ (sort_values_perm insertion_sorter
                                (by_tx_amount binary64) asc f)).
    eapply firstn_incl. rewrite Hl. apply in_or_app. right. now left. }
  rewrite Forall_forall in Hf. specialize (Hf a Ha).
  pose proof (leb_total _ _ Hf Hf) as H.
  destruct (tx_amount a <=? tx_amount a)%float; [reflexivity | now apply H].
Qed.

End Ties.

(** C5: with a sorting routine that keeps rows of equal keys in their
    order (insertion sort), [top_transactions] does what the
    specification says for every result and every [n >= 0]: income rows
    of positive amount in non-increasing order, expense rows of negative
    amount in non-decreasing order, at most [n] rows and at most the
    rows of that sign in each list, and rows of equal amounts in the
    order of their dates.  The tie order is the only part that depends
    on the routine. *)
Theorem top_transactions_ties_by_date (p : FinanceParseResult float) (n : Z) :
  0 <= n ->
  top_transactions_spec insertion_sorter p n /\
  forall S, top_lists S p n.
Proof.
  intros Hn. split; [|intros S; now apply top_transactions_sorted].
  split; [now apply top_transactions_sorted|].
  unfold top_transactions. cbn [fst snd]. rewrite !(head_nonneg n _ Hn).
  split; apply top_side_ties; intros x;
    [apply ltb_not_nan_r | apply ltb_not_nan_l].
Qed.

Lemma top_transactions_ties_by_date_witness :
  top_transactions_spec insertion_sorter four_rows 8 /\
  forall S, top_lists S four_rows 8.
Proof. apply (top_transactions_ties_by_date four_rows 8). lia. Defined.

(** ** Totals and summary *)

(** The cuts of [pairwise_sum] never run out of turns: with as many
    turns as the array has elements, more change nothing. *)
Lemma pairwise_sum_fuel {N} (A : Arith N) (f1 f2 : nat) (l : list N) :
  (length l <= f1)%nat -> (length l <= f2)%nat ->
  pairwise_sum A f1 l = pairwise_sum A f2 l.
Proof.
  revert f2 l. induction f1 as [|f1 IH]; intros [|f2] l H1 H2;
    cbn [pairwise_sum];
    destruct (Nat.ltb_spec (length l) 8) as [L8|L8]; try reflexivity;
    destruct (Nat.leb_spec (length l) 128) as [L128|L128]; try reflexivity;
    try lia.
  set (n2 := (length l / 2 - (length l / 2) mod 8)%nat).
  assert (Hhalf : (length l / 2 < length l)%nat)
    by (apply Nat.div_lt; lia).
  assert (Hmod : ((length l / 2) mod 8 < 8)%nat)
    by (apply Nat.mod_upper_bound; lia).
  assert (Hbig : (64 <= length l / 2)%nat)
    by (apply Nat.div_le_lower_bound; lia).
  f_equal; apply IH;
    rewrite ?length_firstn, ?length_skipn; subst n2; lia.
Qed.

(** Nine numbers: added one after the other the ones are lost, in
    numpy's blocks they are not.  And 300 numbers, cut in two. *)
Example series_sum_in_blocks :
  fold_left PrimFloat.add (repeat 1%float 8) 1e16%float = 1e16%float /\
  series_sum binary64 (1e16%float :: repeat 1%float 8)
  = 10000000000000008%float /\
  series_sum binary64
    (map (fun i => (PyFloat.of_Z (Z.of_nat (i mod 7))
                    + 0x1.999999999999ap-4)%float) (seq 0 300))
  = 0x1.cf80000000001p+9%float.
Proof. repeat split; vm_compute; reflexivity. Qed.

Lemma summary_sums {N} (A : Arith N) (p : FinanceParseResult N) :
  s_income_sum_pos (advanced_summary A p)
  = series_sum A (filter (positive A) (amounts p)) /\
  s_expense_sum_neg (advanced_summary A p)
  = series_sum A (filter (negative A) (amounts p)).
Proof.
  unfold advanced_summary. cbn.
  split; now destruct (filter _ (amounts p)).
Qed.

(** *** The numbers that floats stand for *)

(** A mantissa of [d] binary digits lies between [2^(d-1)] and [2^d]. *)
Lemma digits2_pos_bounds (m : BinNums.positive) :
  2 ^ (Z.pos (digits2_pos m) - 1) <= Z.pos m < 2 ^ Z.pos (digits2_pos m).
Proof.
  induction m as [m IH|m IH|]; cbn [digits2_pos].
  - rewrite Pos2Z.inj_succ.
    replace (Z.succ (Z.pos (digits2_pos m)) - 1)
      with (Z.succ (Z.pos (digits2_pos m) - 1)) by lia.
    rewrite !Z.pow_succ_r by lia. lia.
  - rewrite Pos2Z.inj_succ.
    replace (Z.succ (Z.pos (digits2_pos m)) - 1)
      with (Z.succ (Z.pos (digits2_pos m) - 1)) by lia.
    rewrite !Z.pow_succ_r by lia. lia.
  - cbn. lia.
Qed.

Lemma digits2_pos_log2 (m : BinNums.positive) :
  Z.pos (digits2_pos m) = Z.log2 (Z.pos m) + 1.
Proof.
  pose proof (digits2_pos_bounds m) as H.
  rewrite (Z.log2_unique (Z.pos m) (Z.pos (digits2_pos m) - 1)); [lia|lia|].
  replace (Z.succ (Z.pos (digits2_pos m) - 1)) with (Z.pos (digits2_pos m))
    by lia.
  exact H.
Qed.

(** The exponent of a float is the one its number of digits asks for,
    and never below -1074. *)
Lemma valid_exponent (s : bool) (m : BinNums.positive) (e : Z) :
  valid_binary (S754_finite s m e) = true ->
  Z.max (Z.log2 (Z.pos m) + 1 + e - 53) (-1074) = e.
Proof.
  unfold SpecFloat.valid_binary, bounded, canonical_mantissa, fexp.
  intros H. apply andb_prop in H. destruct H as [H _].
  apply Z.eqb_eq in H. rewrite digits2_pos_log2 in H. exact H.
Qed.

(** Two mantissas and exponents of floats that stand for the same
    number are the same. *)
Lemma canonical_unique (s1 s2 : bool) (m1 m2 : BinNums.positive) (e1 e2 : Z) :
  valid_binary (S754_finite s1 m1 e1) = true ->
  valid_binary (S754_finite s2 m2 e2) = true ->
  Z.pos m1 * 2 ^ (e1 + 1074) = Z.pos m2 * 2 ^ (e2 + 1074) ->
  e1 = e2 /\ m1 = m2.
Proof.
  intros V1 V2 E. apply valid_exponent in V1, V2.
  assert (He : e1 = e2).
  { destruct (Z.lt_trichotomy e1 e2) as [L|[L|L]]; [|exact L|]; exfalso.
    - replace (e2 + 1074) with ((e2 - e1) + (e1 + 1074)) in E by lia.
      rewrite (Z.pow_add_r 2 (e2 - e1) (e1 + 1074)), Z.mul_assoc in E by lia.
      apply Z.mul_cancel_r in E; [|apply Z.pow_nonzero; lia].
      rewrite E, Z.log2_mul_pow2 in V1 by lia. lia.
    - replace (e1 + 1074) with ((e1 - e2) + (e2 + 1074)) in E by lia.
      rewrite (Z.pow_add_r 2 (e1 - e2) (e2 + 1074)), Z.mul_assoc in E by lia.
      apply Z.mul_cancel_r in E; [|apply Z.pow_nonzero; lia].
      rewrite <- E, Z.log2_mul_pow2 in V2 by lia. lia. }
  split; [exact He|]. subst e2.
  apply Z.mul_cancel_r in E; [congruence|].
  apply Z.pow_nonzero; lia.
Qed.

(** Floats that stand for the same number are equal ([==]). *)
Lemma scaled_eqb (x y : float) (v : Z) :
  scaled x = Some v -> scaled y = Some v -> (x =? y)%float = true.
Proof.
  unfold scaled. rewrite eqb_spec.
  pose proof (Prim2SF_valid x) as Vx. pose proof (Prim2SF_valid y) as Vy.
  destruct (Prim2SF x) as [sx|sx| |sx mx ex], (Prim2SF y) as [sy|sy| |sy my ey];
    try discriminate; try reflexivity.
  - intros [= <-] [= H]. exfalso.
    pose proof (valid_exponent _ _ _ Vy).
    assert (0 < 2 ^ (ey + 1074)) by (apply Z.pow_pos_nonneg; lia).
    destruct sy; cbn [cond_Zopp] in H; nia.
  - intros [= H] [= <-]. exfalso.
    pose proof (valid_exponent _ _ _ Vx).
    assert (0 < 2 ^ (ex + 1074)) by (apply Z.pow_pos_nonneg; lia).
    destruct sx; cbn [cond_Zopp] in H; nia.
  - intros [= Hx] [= Hy]. subst v.
    pose proof (valid_exponent _ _ _ Vx). pose proof (valid_exponent _ _ _ Vy).
    assert (0 < 2 ^ (ex + 1074)) by (apply Z.pow_pos_nonneg; lia).
    assert (0 < 2 ^ (ey + 1074)) by (apply Z.pow_pos_nonneg; lia).
    assert (Hs : sx = sy) by (destruct sx, sy; cbn [cond_Zopp] in Hy; trivial; nia).
    subst sy.
    assert (Hm : Z.pos my * 2 ^ (ey + 1074) = Z.pos mx * 2 ^ (ex + 1074))
      by (destruct sx; cbn [cond_Zopp] in Hy; nia).
    destruct (canonical_unique _ _ _ _ _ _ Vy Vx Hm) as [-> ->].
    unfold SFeqb, SFcompare.
    change (Pos.compare_cont Eq mx mx) with (Pos.compare mx mx).
    rewrite Z.compare_refl, Pos.compare_refl. now destruct sx.
Qed.

Lemma units_scaled (x : float) :
  is_finite x = true -> scaled x = Some (units x).
Proof. unfold is_finite, units. now destruct (scaled x). Qed.

(** A number above or below zero, or zero. *)
Lemma sign_cases (x : float) :
  is_finite x = true ->
  match positive binary64 x, negative binary64 x with
  | true, false | false, true => True
  | false, false => units x = 0
  | true, true => False
  end.
Proof.
  unfold is_finite, units, scaled, positive, negative. cbn [ltb zero binary64].
  rewrite !ltb_spec. change (Prim2SF 0) with (S754_zero false).
  destruct (Prim2SF x) as [s|s| |s m e]; try discriminate; intros _;
    try (destruct s); cbn; trivial.
Qed.

Lemma units_by_sign (l : list float) :
  forallb is_finite l = true ->
  fold_right Z.add 0 (map units l)
  = fold_right Z.add 0 (map units (filter (positive binary64) l))
    + fold_right Z.add 0 (map units (filter (negative binary64) l)).
Proof.
  induction l as [|x l IH]; [reflexivity|].
  cbn [forallb]. intros H. apply andb_prop in H. destruct H as [Hx Hl].
  specialize (IH Hl). pose proof (sign_cases x Hx) as Hs.
  cbn [filter map fold_right].
  destruct (positive binary64 x), (negative binary64 x);
    cbn [map fold_right]; try lia; contradiction.
Qed.

Lemma unrounded_spec (r : float) (l : list float) :
  unrounded r l = true ->
  scaled r = Some (fold_right Z.add 0 (map units l)) /\
  forallb is_finite l = true.
Proof.
  unfold unrounded. cbn [forallb]. intros H.
  apply andb_prop in H. destruct H as [H E].
  apply andb_prop in H. destruct H as [Hr Hl].
  apply Z.eqb_eq in E. rewrite <- E. split; [now apply units_scaled | exact Hl].
Qed.

(** C8, amended: [totals.sum] and [advanced_summary.net_sum] are the
    same float for every result; and when none of the three sums of
    [advanced_summary] (net, income, expense) nor the addition of
    income and expense is rounded, the two totals are equal and
    [income_sum_pos + expense_sum_neg == net_sum], in the binary64
    arithmetic of the program (rows of amount zero do not matter). *)
Theorem sums_agree_when_unrounded (p : FinanceParseResult float) :
  sum (totals binary64 p) = net_sum (advanced_summary binary64 p) /\
  (sums_unrounded p = true -> sums_agree p).
Proof.
  split; [reflexivity|].
  unfold sums_unrounded, sums_agree. cbv zeta.
  change (sum (totals binary64 p)) with (net_sum (advanced_summary binary64 p)).
  set (a := advanced_summary binary64 p).
  intros H.
  apply andb_prop in H. destruct H as [H Hadd].
  apply andb_prop in H. destruct H as [H Hexp].
  apply andb_prop in H. destruct H as [Hnet Hinc].
  apply unrounded_spec in Hnet, Hinc, Hexp, Hadd.
  destruct Hnet as [Hnet Hfin], Hinc as [Hinc _], Hexp as [Hexp _],
           Hadd as [Hadd Hie].
  split; [exact (scaled_eqb _ _ _ Hnet Hnet)|].
  apply (scaled_eqb _ _ _ Hadd).
  rewrite Hnet. f_equal. rewrite (units_by_sign _ Hfin).
  cbn [map fold_right]. unfold units at 3 4. rewrite Hinc, Hexp. lia.
Qed.

(** On the rows of the scenario (-50, 200 and -30) nothing is rounded. *)
Lemma sums_agree_when_unrounded_witness : sums_agree scenario_result.
Proof.
  apply (proj2 (sums_agree_when_unrounded scenario_result)).
  vm_compute. reflexivity.
Defined.

Lemma rounding_rows_parsed :
  parse_financial_tables iso_dates [rounding_grid]
  = Returns (Some (OneAmount rounding_rows)).
Proof. vm_compute. reflexivity. Qed.

(** C8 as stated fails in binary64: the rows have no zero amount, the
    total rounds to minus ten to the 17, income is 10, and income plus
    expense rounds to the next float above the total. *)
Lemma sums_disagree_in_binary64 :
  no_zero_rows binary64 rounding_rows /\ ~ sums_agree rounding_rows.
Proof.
  split.
  - repeat constructor.
  - intros [_ H]. revert H.
    assert (Hnet : net_sum (advanced_summary binary64 rounding_rows)
                   = (-1e17)%float) by (vm_compute; reflexivity).
    assert (Hadd : (s_income_sum_pos (advanced_summary binary64 rounding_rows)
                    + s_expense_sum_neg (advanced_summary binary64 rounding_rows))%float
                   = (-99999999999999984)%float) by (vm_compute; reflexivity).
    rewrite Hnet, Hadd. vm_compute. discriminate.
Qed.

(** ** Calendar *)








(** ** Time buckets *)






Lemma group_sum_nil {N} (A : Arith N) : group_sum A [] = zero A.
Proof. reflexivity. Qed.


Lemma gap_rows_parsed :
  parse_financial_tables iso_dates [gap_grid]
  = Returns (Some (OneAmount gap_rows)).
Proof. vm_compute. reflexivity. Qed.



(** ** The worked example *)

(** A list with strictly increasing keys has one ordered rearrangement:
    itself. *)
Lemma sorted_perm_unique {X} (le : X -> X -> bool) (l l' : list X) :
  Permutation l' l ->
  StronglySorted (fun a b => le a b = true) l' ->
  StronglySorted (fun a b => le b a = false) l ->
  l' = l.
Proof.
  intros Hp Hs' Hs. revert l' Hp Hs'.
  induction Hs as [|a t Hs IH Ha]; intros l' Hp Hs'.
  - symmetry in Hp. now apply Permutation_nil in Hp.
  - destruct l' as [|b t'].
    + now apply Permutation_nil in Hp.
    + inversion Hs' as [|? ? Hst' Hb]; subst.
      assert (Hab : b = a).
      { assert (Hin_a : In a (b :: t'))
          by (apply (Permutation_in _ (Permutation_sym Hp)); now left).
        assert (Hin_b : In b (a :: t))
          by (apply (Permutation_in _ Hp); now left).
        destruct Hin_a as [E|Hin_a]; [exact E|].
        destruct Hin_b as [E|Hin_b]; [now symmetry|].
        rewrite Forall_forall in Ha, Hb.
        specialize (Ha _ Hin_b). specialize (Hb _ Hin_a). congruence. }
      subst b. f_equal. apply IH; [|exact Hst'].
      now apply Permutation_cons_inv in Hp.
Qed.

Lemma sort_values_by_when_fixed {N} (S : Sorter) (l : list (LedgerRow N)) :
  StronglySorted (fun a b => when a < when b) l ->
  sort_values S by_when true l = l.
Proof.
  intros Hs. apply (sorted_perm_unique by_when).
  - apply sort_values_perm.
  - apply Sorted_StronglySorted.
    + intros x y z. unfold by_when. lia.
    + apply sort_values_ascending; unfold by_when; intros; lia.
  - eapply StronglySorted_weaken; [|exact Hs].
    intros a b Hab. unfold by_when. apply Z.leb_gt. exact Hab.
Qed.

Lemma scenario_parsed :
  parse_financial_tables iso_dates [scenario_grid]
  = Returns (Some (OneAmount scenario_result)).
Proof. vm_compute. reflexivity. Qed.

Lemma scenario_sorted (S : Sorter) :
  sort_values S by_when true (ledger_rows (df scenario_result))
  = ledger_rows (df scenario_result).
Proof.
  apply sort_values_by_when_fixed. cbn.
  repeat (constructor; [|repeat constructor; vm_compute; reflexivity]).
  constructor.
Qed.

(** C1: the grid of the example is parsed with Date, Amount and
    Category as its columns; its totals are 3 rows, sum 120, income 200
    and expense -80 (mean 40); and aggregated by month, whatever the
    sorting routine, it gives two buckets, labelled 31 January 2024 with
    total 150 and 29 February 2024 with total -30, in this order. *)
Theorem scenario_ledger (S : Sorter) :
  exists p,
    parse_financial_tables iso_dates [scenario_grid]
    = Returns (Some (OneAmount p)) /\
    datetime_col p = "Date"%string /\
    amount_col p = "Amount"%string /\
    category_col p = Some "Category"%string /\
    totals binary64 p
    = {| rows := 3; sum := 120%float; income_sum_pos := 200%float;
         expense_sum_neg := (-80)%float; mean := 40%float |} /\
    map (fun b => (period b, total_amount b))
        (aggregate_finance binary64 S p Monthly)
    = [ (Calendar.days_from_civil 2024 1 31 * Calendar.ns_per_day, 150%float);
        (Calendar.days_from_civil 2024 2 29 * Calendar.ns_per_day,
         (-30)%float) ].
Proof.
  exists scenario_result.
  split; [exact scenario_parsed|].
  do 3 (split; [reflexivity|]).
  split; [vm_compute; reflexivity|].
  unfold aggregate_finance. rewrite scenario_sorted.
  vm_compute. reflexivity.
Qed.

Lemma category_col_is_unclaimed_witness :
  "Category"%string <> "Date"%string /\ "Category"%string <> "Amount"%string.
Proof.
  apply (category_col_is_unclaimed iso_dates [scenario_grid]
                                   (OneAmount scenario_result) "Category").
  - exact scenario_parsed.
  - reflexivity.
Defined.

(** Of two candidates with three rows each the first one wins. *)
Lemma first_of_equal_candidates :
  parse_financial_tables iso_dates [gap_grid; scenario_grid; []]
  = Returns (Some (OneAmount gap_rows)).
Proof. vm_compute. reflexivity. Qed.

(** C2: the loop has no guard around [pd.DataFrame] and the detectors.
    Where no turn raises, the result is the surviving candidate with the
    greatest validated row count, the first of them in input order, and
    none when no grid survives, as the specification says.  But a turn
    that raises ends the call, whatever the other grids hold: after the
    grid of the example, which survives, a grid whose rows are wider
    than its header makes the call raise [ValueError], and so does a
    grid with two filled columns without a label; the specification's
    sentence fails on both lists. *)
Theorem parse_financial_tables_stops_at_unusable_grid :
  (forall P tables,
      all_return P tables ->
      selects_best P tables /\
      Forall (fun c => (3 <= parsed_rows c)%nat) (survivors P tables)) /\
  (forall P before t after e,
      all_return P before -> candidate_of P t = Raises e ->
      parse_financial_tables P (before ++ t :: after) = Raises e) /\
  survivors iso_dates [scenario_grid; ragged_grid]
  = [OneAmount scenario_result] /\
  parse_financial_tables iso_dates [scenario_grid; ragged_grid]
  = Raises (ValueError "columns passed and columns of the data differ") /\
  ~ selects_best iso_dates [scenario_grid; ragged_grid] /\
  parse_financial_tables iso_dates [scenario_grid; unlabelled_grid]
  = Raises ambiguous_truth /\
  ~ selects_best iso_dates [scenario_grid; unlabelled_grid].
Proof.
  split; [exact selects_best_when_all_return|].
  split; [intros P before t after e Hb Ht; now apply parse_loop_raises|].
  assert (H1 : parse_financial_tables iso_dates [scenario_grid; ragged_grid]
               = Raises (ValueError
                           "columns passed and columns of the data differ"))
    by (vm_compute; reflexivity).
  assert (H2 : parse_financial_tables iso_dates [scenario_grid; unlabelled_grid]
               = Raises ambiguous_truth)
    by (vm_compute; reflexivity).
  split; [vm_compute; reflexivity|].
  split; [exact H1|].
  split; [intros (r & Hr & _); congruence|].
  split; [exact H2|].
  intros (r & Hr & _). congruence.
Qed.

(** The grids of the example and of the gap are both usable. *)
Example usable_grids_select_the_first :
  all_return iso_dates [gap_grid; scenario_grid; []] /\
  selects_best iso_dates [gap_grid; scenario_grid; []].
Proof.
  assert (H : all_return iso_dates [gap_grid; scenario_grid; []]).
  { repeat constructor; eexists; vm_compute; reflexivity. }
  split; [exact H|]. now apply selects_best_when_all_return.
Qed.

(** ** chunk_text: the windows *)

Lemma substring_all (s : string) : String.substring 0 (String.length s) s = s.
Proof. induction s as [|c r IH]; simpl; [reflexivity | now rewrite IH]. Qed.

Lemma substring_past (s : string) (a n : nat) :
  (String.length s <= a)%nat -> String.substring a n s = EmptyString.
Proof.
  revert a n. induction s as [|c r IH]; intros [|a] [|n] H; simpl in *;
    try reflexivity; try lia; apply IH; lia.
Qed.

Lemma substring_split (s : string) (a n k : nat) :
  (String.substring a n s ++ String.substring (a + n) k s)%string
  = String.substring a (n + k) s.
Proof.
  revert a n. induction s as [|c r IH]; intros a n.
  - destruct a, n, k; reflexivity.
  - destruct a as [|a].
    + destruct n as [|n]; [reflexivity|].
      simpl. f_equal. apply (IH 0%nat n).
    + simpl. destruct n; apply (IH a).
Qed.

Lemma substring_substring (s : string) (a n b m : nat) :
  (a + n <= m)%nat ->
  String.substring a n (String.substring b m s) = String.substring (a + b) n s.
Proof.
  revert a n b m. induction s as [|c r IH]; intros a n b m H.
  - destruct b, m, a, n; reflexivity.
  - destruct b as [|b].
    + rewrite Nat.add_0_r. destruct m as [|m].
      * assert (a = 0 /\ n = 0)%nat as [-> ->] by lia. reflexivity.
      * simpl. destruct a as [|a].
        -- destruct n as [|n]; [reflexivity|]. f_equal.
           apply (IH 0%nat n 0%nat m). lia.
        -- destruct n as [|n].
           ++ rewrite (IH a 0%nat 0%nat m) by lia. now rewrite Nat.add_0_r.
           ++ rewrite (IH a (S n) 0%nat m) by lia. now rewrite Nat.add_0_r.
    + replace (a + S b)%nat with (S (a + b)) by lia. simpl.
      destruct m; apply IH; lia.
Qed.

Lemma append_empty_r (s : string) : (s ++ EmptyString)%string = s.
Proof. induction s as [|c r IH]; simpl; [reflexivity | now rewrite IH]. Qed.

Lemma append_assoc3 (s1 s2 s3 : string) :
  ((s1 ++ s2) ++ s3)%string = (s1 ++ (s2 ++ s3))%string.
Proof. induction s1 as [|c r IH]; simpl; [reflexivity | now rewrite IH]. Qed.

(** More fuel does not change a run that ended. *)
Lemma chunk_loop_fuel_mono (fuel fuel' : nat) (text : string)
    (chunk_size overlap start : Z) (chunks out : list string) :
  (fuel <= fuel')%nat ->
  chunk_loop fuel text chunk_size overlap start chunks = Finished out ->
  chunk_loop fuel' text chunk_size overlap start chunks = Finished out.
Proof.
  revert fuel' start chunks.
  induction fuel as [|fuel IH]; intros fuel' start chunks Hle;
    [discriminate|].
  destruct fuel' as [|fuel']; [lia|]. cbn [chunk_loop].
  destruct (start <? strlen text); [|trivial].
  destruct (_ =? strlen text); [trivial|].
  apply IH. lia.
Qed.

Section Windows.

Variables (text : string) (chunk_size overlap : Z).
Hypothesis overlap_small : 0 <= overlap < chunk_size.

Lemma window_start_nonneg (i : nat) : 0 <= window_start chunk_size overlap i.
Proof. unfold window_start. apply Z.mul_nonneg_nonneg; lia. Qed.

Lemma window_start_succ (i : nat) :
  window_start chunk_size overlap (S i) = window_start chunk_size overlap i + (chunk_size - overlap).
Proof. unfold window_start. lia. Qed.

Lemma chunk_loop_windows (fuel : nat) :
  forall (j : nat) (chunks out : list string),
    window_start chunk_size overlap j < strlen text ->
    chunk_loop fuel text chunk_size overlap (window_start chunk_size overlap j) chunks
    = Finished out ->
    exists m : nat,
      (j < m)%nat /\
      out = chunks ++ map (window text chunk_size overlap) (seq j (m - j)) /\
      (forall i, (j <= i)%nat -> (S i < m)%nat ->
                 window_start chunk_size overlap i + chunk_size < strlen text) /\
      strlen text <= window_start chunk_size overlap (m - 1) + chunk_size.
Proof.
  induction fuel as [|fuel IH]; intros j chunks out Hj; cbn [chunk_loop];
    [discriminate|].
  rewrite (proj2 (Z.ltb_lt _ _) Hj).
  fold (window_start chunk_size overlap j) in *.
  fold (window_end text chunk_size overlap j). fold (window text chunk_size overlap j).
  destruct (window_end text chunk_size overlap j =? strlen text) eqn:E.
  - apply Z.eqb_eq in E. intros [= <-]. exists (S j).
    replace (S j - j)%nat with 1%nat by lia.
    replace (S j - 1)%nat with j by lia.
    split; [lia|]. split; [reflexivity|]. split; [intros; lia|].
    unfold window_end in E. lia.
  - apply Z.eqb_neq in E. unfold window_end in E.
    assert (Hend : window_end text chunk_size overlap j = window_start chunk_size overlap j + chunk_size)
      by (unfold window_end; lia).
    pose proof (window_start_nonneg j) as H0.
    pose proof (window_start_succ j) as HS.
    replace (Z.max 0 (window_end text chunk_size overlap j - overlap)) with (window_start chunk_size overlap (S j))
      by lia.
    intros H. apply IH in H; [|lia].
    destruct H as (m & Hm & -> & Hmid & Hlast).
    exists m. split; [lia|]. split.
    + rewrite <- app_assoc. f_equal.
      replace (m - j)%nat with (S (m - S j)) by lia. reflexivity.
    + split; [|exact Hlast].
      intros i Hi Him. destruct (Nat.eq_dec i j) as [->|Hne].
      * lia.
      * apply Hmid; lia.
Qed.

End Windows.

(** The run of [chunk_text] for an overlap below the window size. *)
Lemma chunk_text_run (text : string) (chunk_size overlap : Z) :
  0 <= overlap < chunk_size ->
  Py.truthy (collapsed text) = true ->
  let t := collapsed text in
  exists (fuel m : nat),
    (0 < m)%nat /\
    (forall fuel', (fuel <= fuel')%nat ->
       chunk_text fuel' text chunk_size overlap
       = Returns (Finished (map (window t chunk_size overlap) (seq 0 m)))) /\
    (forall i, (S i < m)%nat ->
       window_start chunk_size overlap i + chunk_size < strlen t) /\
    window_start chunk_size overlap (m - 1) < strlen t /\
    strlen t <= window_start chunk_size overlap (m - 1) + chunk_size.
Proof.
  intros Hc Ht t.
  assert (Hlen : 0 < strlen t).
  { unfold strlen. change (Py.truthy t = true) in Ht.
    destruct t; [discriminate|]. simpl. lia. }
  destruct (chunk_loop_terminates (S (String.length t)) t chunk_size overlap
              0 [] Hc ltac:(lia) ltac:(lia) ltac:(unfold strlen; lia))
    as [out Hout].
  destruct (chunk_loop_windows t chunk_size overlap Hc _ 0%nat [] out
              ltac:(unfold window_start; lia) Hout)
    as (m & Hm & -> & Hmid & Hlast).
  rewrite Nat.sub_0_r in *. cbn [app] in *.
  exists (S (String.length t)), m. split; [exact Hm|].
  split; [|split; [|split]].
  - intros fuel' Hf. unfold chunk_text.
    replace (chunk_size <=? 0) with false by (symmetry; apply Z.leb_gt; lia).
    replace (overlap <? 0) with false by (symmetry; apply Z.ltb_ge; lia).
    change (Py.join " " (Py.split_ws text)) with t.
    change (Py.truthy t = true) in Ht. rewrite Ht. cbn [negb]. f_equal.
    eapply chunk_loop_fuel_mono; [exact Hf | exact Hout].
  - intros i Hi. apply Hmid; lia.
  - destruct (Nat.eq_dec m 1) as [->|Hne]; [unfold window_start; simpl; lia|].
    pose proof (Hmid (m - 2)%nat ltac:(lia) ltac:(lia)) as H.
    pose proof (window_start_succ chunk_size overlap (m - 2)) as HS.
    replace (S (m - 2)) with (m - 1)%nat in HS by lia. lia.
  - exact Hlast.
Qed.

Lemma window_length (t : string) (chunk_size overlap : Z) (i : nat) :
  0 <= overlap < chunk_size ->
  strlen (window t chunk_size overlap i)
  = Z.min chunk_size
          (Z.max 0 (strlen t - window_start chunk_size overlap i)).
Proof.
  intros Hc. pose proof (window_start_nonneg chunk_size overlap Hc i).
  unfold window, Py.slice, strlen.
  rewrite substring_length. unfold window_end, strlen. lia.
Qed.

(** X1: For an overlap below the window size, [chunk_text] returns, and what
    it returns are the windows that start every [chunk_size - overlap]
    characters of the text with its blanks collapsed: all of them full
    but the last, which is not empty and ends where the text ends; and
    each window starts with the last [overlap] characters of the one
    before. *)
Theorem chunk_text_windows (text : string) (chunk_size overlap : Z) :
  0 <= overlap < chunk_size ->
  Py.truthy (collapsed text) = true ->
  let t := collapsed text in
  let w := window t chunk_size overlap in
  exists (fuel m : nat),
    (0 < m)%nat /\
    (forall fuel', (fuel <= fuel')%nat ->
       chunk_text fuel' text chunk_size overlap
       = Returns (Finished (map w (seq 0 m)))) /\
    (forall i, (S i < m)%nat ->
       strlen (w i) = chunk_size /\
       String.substring (Z.to_nat (chunk_size - overlap)) (Z.to_nat overlap)
                        (w i)
       = String.substring 0 (Z.to_nat overlap) (w (S i))) /\
    0 < strlen (w (m - 1)%nat) <= chunk_size /\
    window_end t chunk_size overlap (m - 1)%nat = strlen t.
Proof.
  intros Hc Ht t w.
  destruct (chunk_text_run text chunk_size overlap Hc Ht)
    as (fuel & m & Hm & Hrun & Hmid & Hstart & Hlast).
  fold t in Hrun, Hmid, Hstart, Hlast.
  exists fuel, m. split; [exact Hm|]. split; [exact Hrun|].
  split; [|split].
  - intros i Hi.
    pose proof (Hmid i Hi) as Hfull.
    pose proof (window_start_nonneg chunk_size overlap Hc i) as H0.
    pose proof (window_start_succ chunk_size overlap i) as HS.
    split; [unfold w; rewrite window_length by exact Hc; lia|].
    unfold w, window, Py.slice.
    rewrite !substring_substring.
    + f_equal. lia.
    + unfold window_end. lia.
    + unfold window_end. lia.
  - unfold w. rewrite window_length by exact Hc. lia.
  - unfold window_end. lia.
Qed.

(** A one-letter word more than one window long: windows of 4 with an
    overlap of 1. *)
Lemma chunk_text_windows_witness :
  exists (fuel m : nat),
    (0 < m)%nat /\
    chunk_text fuel "abcdefghij" 4 1
    = Returns (Finished (map (window "abcdefghij" 4 1) (seq 0 m))).
Proof.
  destruct (chunk_text_windows "abcdefghij" 4 1 ltac:(lia) eq_refl)
    as (fuel & m & Hm & Hrun & _).
  exists fuel, m. split; [exact Hm|]. apply Hrun. lia.
Defined.

(** X2: Without overlap nothing is repeated and nothing is lost: the chunks
    put one after the other are the text with its blanks collapsed. *)
Theorem chunk_text_no_overlap_concat (text : string) (chunk_size : Z) :
  0 < chunk_size ->
  exists (fuel : nat) (chunks : list string),
    chunk_text fuel text chunk_size 0 = Returns (Finished chunks) /\
    String.concat EmptyString chunks = collapsed text.
Proof.
  intros Hc. destruct (Py.truthy (collapsed text)) eqn:Ht.
  - destruct (chunk_text_run text chunk_size 0 ltac:(lia) Ht)
      as (fuel & m & Hm & Hrun & Hmid & Hstart & Hlast).
    set (t := collapsed text) in *.
    exists fuel, (map (window t chunk_size 0) (seq 0 m)).
    split; [apply Hrun; lia|].
    assert (Hk : forall k, (k <= m)%nat ->
               String.concat EmptyString
                             (map (window t chunk_size 0) (seq 0 k))
               = String.substring
                   0 (Z.to_nat (Z.min (strlen t)
                                      (window_start chunk_size 0 k))) t).
    { induction k as [|k IH]; intros Hk.
      - simpl. now destruct t.
      - rewrite seq_S, map_app. cbn [map].
        assert (Hcat : forall l x,
                   String.concat EmptyString (l ++ [x])
                   = (String.concat EmptyString l ++ x)%string).
        { clear. induction l as [|y l IHl]; intros x; simpl.
          - reflexivity.
          - destruct l as [|z l].
            + reflexivity.
            + change (String.concat EmptyString ((y :: z :: l) ++ [x]))
                with (y ++ EmptyString
                        ++ String.concat EmptyString ((z :: l) ++ [x]))%string.
              rewrite IHl.
              change (String.concat EmptyString (y :: z :: l))
                with (y ++ EmptyString
                        ++ String.concat EmptyString (z :: l))%string.
              cbn [append]. now rewrite append_assoc3. }
        rewrite Hcat, IH by lia. cbn [plus].
        pose proof (window_start_nonneg chunk_size 0 ltac:(lia) k) as H0.
        pose proof (window_start_succ chunk_size 0 k) as HS.
        assert (Hkk : window_start chunk_size 0 k < strlen t).
        { destruct (Nat.eq_dec (S k) m) as [E|E].
          - replace (m - 1)%nat with k in Hstart by lia. exact Hstart.
          - pose proof (Hmid k ltac:(lia)). lia. }
        unfold window, Py.slice, window_end.
        replace (Z.to_nat (Z.min (strlen t) (window_start chunk_size 0 k)))
          with (Z.to_nat (window_start chunk_size 0 k)) by lia.
        rewrite (substring_split t 0). f_equal. lia. }
    rewrite (Hk m (Nat.le_refl m)).
    assert (Hm1 := window_start_succ chunk_size 0 (m - 1)).
    replace (S (m - 1)) with m in Hm1 by lia.
    replace (Z.to_nat (Z.min (strlen t) (window_start chunk_size 0 m)))
      with (String.length t) by (unfold strlen in *; lia).
    apply substring_all.
  - exists 0%nat, []. unfold chunk_text.
    replace (chunk_size <=? 0) with false by (symmetry; apply Z.leb_gt; lia).
    change (Py.join " " (Py.split_ws text)) with (collapsed text).
    rewrite Ht. cbn. split; [reflexivity|].
    destruct (collapsed text); [reflexivity | discriminate].
Qed.

Lemma chunk_text_no_overlap_witness :
  exists (fuel : nat) (chunks : list string),
    chunk_text fuel "to be  or not" 5 0 = Returns (Finished chunks) /\
    String.concat EmptyString chunks = "to be or not"%string.
Proof. apply (chunk_text_no_overlap_concat "to be  or not" 5). lia. Defined.

(** X3: A text that fits into one window comes back as one chunk, whatever
    the overlap, also one that is as large as the window; a blank text
    gives no chunk. *)
Theorem chunk_text_single_window (fuel : nat) (text : string)
    (chunk_size overlap : Z) :
  0 <= overlap -> strlen (collapsed text) <= chunk_size -> 0 < chunk_size ->
  chunk_text (S fuel) text chunk_size overlap
  = Returns (Finished (if Py.truthy (collapsed text) then [collapsed text]
                       else [])).
Proof.
  intros Ho Hl Hc. unfold chunk_text.
  replace (chunk_size <=? 0) with false by (symmetry; apply Z.leb_gt; lia).
  replace (overlap <? 0) with false by (symmetry; apply Z.ltb_ge; lia).
  change (Py.join " " (Py.split_ws text)) with (collapsed text).
  set (t := collapsed text) in *.
  destruct (Py.truthy t) eqn:Ht; cbn [negb]; [|reflexivity].
  assert (Hlen : 0 < strlen t)
    by (unfold strlen; destruct t; [discriminate | simpl; lia]).
  cbn [chunk_loop]. rewrite (proj2 (Z.ltb_lt _ _) Hlen).
  replace (Z.min (strlen t) (0 + chunk_size)) with (strlen t) by lia.
  rewrite Z.eqb_refl. cbn [app]. unfold Py.slice, strlen.
  rewrite Nat2Z.id. cbn [Z.to_nat]. rewrite Nat.sub_0_r.
  now rewrite substring_all.
Qed.

Lemma chunk_text_single_window_witness :
  chunk_text 1 "  a  b " 3 7 = Returns (Finished ["a b"%string]).
Proof. apply (chunk_text_single_window 0 "  a  b " 3 7); vm_compute; congruence. Defined.

(** ** extract_pdf_text, extract_pdf_tables *)


Lemma extract_text_from_In (pages : list PdfPage) :
  forall (i : nat) (c : PdfPageChunk.t),
    In c (extract_text_from i pages) <->
    exists k pg, nth_error pages k = Some pg /\
                 PdfPageChunk.page c = Z.of_nat (i + k) + 1 /\
                 PdfPageChunk.text c = page_text pg /\
                 Py.truthy (page_text pg) = true.
Proof.
  induction pages as [|pg rest IH]; intros i c; cbn [extract_text_from].
  - split; [intros [] | intros (k & pg & H & _)]. now destruct k.
  - fold (page_text pg). split.
    + intros H. destruct (Py.truthy (page_text pg)) eqn:T.
      * destruct H as [<-|H].
        -- exists 0%nat, pg. cbn. rewrite Nat.add_0_r. auto.
        -- apply IH in H. destruct H as (k & pg' & Hk & Hp & Ht & Hy).
           exists (S k), pg'. cbn [nth_error].
           replace (i + S k)%nat with (S i + k)%nat by lia. auto.
      * apply IH in H. destruct H as (k & pg' & Hk & Hp & Ht & Hy).
        exists (S k), pg'. cbn [nth_error].
        replace (i + S k)%nat with (S i + k)%nat by lia. auto.
    + intros (k & pg' & Hk & Hp & Ht & Hy). destruct k as [|k].
      * cbn in Hk. injection Hk as <-. rewrite Hy. left.
        destruct c as [cp ct]. cbn in *. rewrite Nat.add_0_r in Hp.
        now subst.
      * cbn [nth_error] in Hk.
        assert (In c (extract_text_from (S i) rest)).
        { apply IH. exists k, pg'.
          replace (S i + k)%nat with (i + S k)%nat by lia. auto. }
        destruct (Py.truthy (page_text pg)); [now right | assumption].
Qed.

Lemma extract_text_from_sorted (pages : list PdfPage) (i : nat) :
  StronglySorted Z.lt (map PdfPageChunk.page (extract_text_from i pages)).
Proof.
  revert i. induction pages as [|pg rest IH]; intros i;
    cbn [extract_text_from]; [constructor|].
  destruct (Py.truthy _); [|apply IH].
  cbn [map]. constructor; [apply IH|].
  apply Forall_forall. intros z Hz. apply in_map_iff in Hz.
  destruct Hz as (c & <- & Hc). apply extract_text_from_In in Hc.
  destruct Hc as (k & _ & _ & Hp & _). cbn. lia.
Qed.

Lemma nth_error_firstn_iff {X} (l : list X) (n k : nat) (x : X) :
  nth_error (firstn n l) k = Some x <-> (k < n)%nat /\ nth_error l k = Some x.
Proof.
  revert n k. induction l as [|y l IH]; intros [|n] [|k]; cbn;
    try (split; [discriminate | intros [? ?]; (lia || discriminate)]).
  - split; [intros E; split; [lia | exact E] | tauto].
  - rewrite IH. split; intros [? ?]; split; (lia || assumption).
Qed.

Lemma extract_pdf_text_spec (pdf : list PdfPage) (max_pages : option Z) :
  StronglySorted Z.lt
    (map PdfPageChunk.page (extract_pdf_text pdf max_pages)) /\
  (forall c,
      In c (extract_pdf_text pdf max_pages) <->
      exists i pg,
        nth_error pdf i = Some pg /\
        Z.of_nat i < page_limit (length pdf) max_pages /\
        PdfPageChunk.page c = Z.of_nat i + 1 /\
        PdfPageChunk.text c = page_text pg /\
        Py.truthy (page_text pg) = true) /\
  extract_pdf_text pdf (Some 0) = extract_pdf_text pdf None /\
  (forall m, m < 0 -> extract_pdf_text pdf (Some m) = []).
Proof.
  split; [apply extract_text_from_sorted|]. split; [|split].
  - intros c. unfold extract_pdf_text. rewrite extract_text_from_In.
    split; intros (k & pg & Hk & H).
    + apply nth_error_firstn_iff in Hk. destruct Hk as [Hlt Hk].
      exists k, pg. cbn in H. split; [exact Hk|]. split; [lia | exact H].
    + destruct H as (Hlt & H). exists k, pg. split; [|exact H].
      apply nth_error_firstn_iff. split; [lia | exact Hk].
  - reflexivity.
  - intros m Hm. unfold extract_pdf_text, page_limit.
    replace (m =? 0) with false by (symmetry; apply Z.eqb_neq; lia).
    replace (Z.to_nat (Z.min (Z.of_nat (length pdf)) m)) with 0%nat by lia.
    reflexivity.
Qed.

(** X4: [extract_pdf_text] lists, with rising page numbers counted from 1,
    exactly the pages below the page limit whose stripped text is not
    empty, each with that stripped text; and a limit of 0 pages is no
    limit. *)
Theorem extract_pdf_text_pages (pdf : list PdfPage) (max_pages : option Z) :
  StronglySorted Z.lt
    (map PdfPageChunk.page (extract_pdf_text pdf max_pages)) /\
  (forall c,
      In c (extract_pdf_text pdf max_pages) <->
      exists i pg,
        nth_error pdf i = Some pg /\
        Z.of_nat i < page_limit (length pdf) max_pages /\
        PdfPageChunk.page c = Z.of_nat i + 1 /\
        PdfPageChunk.text c = page_text pg /\
        Py.truthy (page_text pg) = true) /\
  extract_pdf_text pdf (Some 0) = extract_pdf_text pdf None /\
  (forall m, m < 0 -> extract_pdf_text pdf (Some m) = []).
Proof. apply extract_pdf_text_spec. Qed.

Lemma extract_tables_from_In (pages : list PdfPage) :
  forall (i : nat) (n : Z) (t : RawGrid),
    In (n, t) (extract_tables_from i pages) <->
    exists k pg ts, nth_error pages k = Some pg /\
                    extract_tables pg = Some ts /\ In t ts /\
                    n = Z.of_nat (i + k) + 1.
Proof.
  induction pages as [|pg rest IH]; intros i n t; cbn [extract_tables_from].
  - split; [intros [] | intros (k & pg & ts & H & _)]. now destruct k.
  - rewrite in_app_iff, in_map_iff, IH. split.
    + intros [(t' & [= <- <-] & Ht)|(k & pg' & ts & Hk & He & Ht & ->)].
      * destruct (extract_tables pg) as [ts|] eqn:E; [|destruct Ht].
        exists 0%nat, pg, ts. cbn. rewrite Nat.add_0_r. auto.
      * exists (S k), pg', ts. cbn [nth_error].
        replace (i + S k)%nat with (S i + k)%nat by lia. auto.
    + intros (k & pg' & ts & Hk & He & Ht & ->). destruct k as [|k].
      * cbn in Hk. injection Hk as <-. left. exists t. rewrite He.
        rewrite Nat.add_0_r. auto.
      * right. exists k, pg', ts. cbn [nth_error] in Hk.
        replace (S i + k)%nat with (i + S k)%nat by lia. auto.
Qed.

Lemma extract_tables_from_sorted (pages : list PdfPage) (i : nat) :
  StronglySorted Z.le (map fst (extract_tables_from i pages)).
Proof.
  revert i. induction pages as [|pg rest IH]; intros i;
    cbn [extract_tables_from]; [constructor|].
  rewrite map_app, map_map. cbn [fst].
  generalize (match extract_tables pg with Some ts => ts | None => [] end).
  intros ts. induction ts as [|t ts IHts]; cbn; [apply IH|].
  constructor; [exact IHts|].
  apply Forall_forall. intros z Hz. apply in_app_iff in Hz.
  destruct Hz as [Hz|Hz].
  - apply in_map_iff in Hz. destruct Hz as (_ & <- & _). lia.
  - apply in_map_iff in Hz. destruct Hz as ([n t'] & <- & Hz).
    apply extract_tables_from_In in Hz.
    destruct Hz as (k & _ & _ & _ & _ & _ & ->). cbn. lia.
Qed.

(** X5: [extract_pdf_tables] lists the tables of the pages below the page
    limit, page by page, each with the number of its page counted from
    1; a page without tables adds nothing.  The grids handed on to
    [parse_financial_tables] are therefore the tables of those pages in
    page order. *)
Theorem extract_pdf_tables_pages (pdf : list PdfPage) (max_pages : option Z) :
  StronglySorted Z.le (map fst (extract_pdf_tables pdf max_pages)) /\
  (forall n t,
      In (n, t) (extract_pdf_tables pdf max_pages) <->
      exists i pg ts,
        nth_error pdf i = Some pg /\
        Z.of_nat i < page_limit (length pdf) max_pages /\
        extract_tables pg = Some ts /\ In t ts /\ n = Z.of_nat i + 1) /\
  map snd (extract_pdf_tables pdf max_pages)
  = flat_map (fun pg => match extract_tables pg with
                        | Some ts => ts
                        | None => []
                        end)
             (firstn (Z.to_nat (page_limit (length pdf) max_pages)) pdf).
Proof.
  split; [apply extract_tables_from_sorted|]. split.
  - intros n t. unfold extract_pdf_tables. rewrite extract_tables_from_In.
    split.
    + intros (k & pg & ts & Hk & He & Ht & ->).
      apply nth_error_firstn_iff in Hk. destruct Hk as [Hlt Hk].
      exists k, pg, ts. cbn. repeat split; trivial. lia.
    + intros (k & pg & ts & Hk & Hlt & He & Ht & ->).
      exists k, pg, ts. cbn. repeat split; trivial.
      apply nth_error_firstn_iff. split; [lia | exact Hk].
  - unfold extract_pdf_tables.
    generalize (firstn (Z.to_nat (page_limit (length pdf) max_pages)) pdf).
    intros l. generalize 0%nat.
    induction l as [|pg rest IH]; intros i; cbn; [reflexivity|].
    rewrite map_app, map_map, IH. cbn. now rewrite map_id.
Qed.

(** ** page_chunks_to_passages *)

Lemma chunk_text_total (text : string) (chunk_size overlap : Z) :
  0 <= overlap < chunk_size ->
  exists (fuel : nat) (out : list string),
    (forall fuel', (fuel <= fuel')%nat ->
       chunk_text fuel' text chunk_size overlap = Returns (Finished out)) /\
    Forall (fun c => 0 < strlen c <= chunk_size) out /\
    (Py.truthy (collapsed text) = false -> out = []).
Proof.
  intros Hc. destruct (Py.truthy (collapsed text)) eqn:Ht.
  - destruct (chunk_text_run text chunk_size overlap Hc Ht)
      as (fuel & m & Hm & Hrun & Hmid & Hstart & Hlast).
    exists fuel, (map (window (collapsed text) chunk_size overlap) (seq 0 m)).
    split; [exact Hrun|]. split; [|discriminate].
    apply Forall_forall. intros c Hin. apply in_map_iff in Hin.
    destruct Hin as (i & <- & Hi). apply in_seq in Hi.
    rewrite window_length by exact Hc.
    pose proof (window_start_nonneg chunk_size overlap Hc i) as H0.
    destruct (Nat.eq_dec (S i) m) as [E|E].
    + replace (m - 1)%nat with i in Hstart by lia. lia.
    + assert (Hi' : (S i < m)%nat) by lia. specialize (Hmid i Hi'). lia.
  - exists 0%nat, []. split; [|split; [constructor | reflexivity]].
    intros fuel' _. unfold chunk_text.
    replace (chunk_size <=? 0) with false by (symmetry; apply Z.leb_gt; lia).
    replace (overlap <? 0) with false by (symmetry; apply Z.ltb_ge; lia).
    fold (collapsed text). now rewrite Ht.
Qed.

Lemma page_chunks_run (pages : list PdfPageChunk.t) :
  exists (fuel : nat) (chunks : list (list string)),
    (forall fuel', (fuel <= fuel')%nat ->
       page_chunks_to_passages fuel' pages
       = Returns (Finished
           (concat (map (fun pc => map (page_tag (PdfPageChunk.page (fst pc)))
                                       (snd pc))
                        (combine pages chunks))))) /\
    Forall2 (fun p cs =>
               (forall fuel', (fuel <= fuel')%nat ->
                  chunk_text fuel' (PdfPageChunk.text p) 1200 150
                  = Returns (Finished cs)) /\
               Forall (fun c => 0 < strlen c <= 1200) cs /\
               (Py.truthy (collapsed (PdfPageChunk.text p)) = false ->
                cs = []))
            pages chunks.
Proof.
  induction pages as [|p rest IH].
  - exists 0%nat, []. split; [reflexivity | constructor].
  - destruct IH as (f1 & chunks & Hrun & Hall).
    destruct (chunk_text_total (PdfPageChunk.text p) 1200 150 ltac:(lia))
      as (f2 & cs & Hcs & Hlen & Hblank).
    exists (Nat.max f1 f2), (cs :: chunks). split.
    + intros fuel' Hf. cbn [page_chunks_to_passages combine map concat fst snd].
      rewrite Hcs by lia. rewrite Hrun by lia. reflexivity.
    + constructor.
      * split; [intros fuel' Hf; apply Hcs; lia | now split].
      * eapply Forall2_impl; [|exact Hall].
        intros q qs (Hq & Hb). split; [|exact Hb].
        intros fuel' Hf. apply Hq. lia.
Qed.

(** X6: [page_chunks_to_passages] returns for every list of pages, and
    never raises: the passages are, page after page in the order given,
    the chunks of the page's text with the page's tag in front; no chunk
    is empty or longer than 1200 characters, and a page whose text is
    blank gives no passage. *)
Theorem page_chunks_to_passages_tagged (pages : list PdfPageChunk.t) :
  exists (fuel : nat) (chunks : list (list string)),
    (forall fuel', (fuel <= fuel')%nat ->
       page_chunks_to_passages fuel' pages
       = Returns (Finished
           (concat (map (fun pc => map (page_tag (PdfPageChunk.page (fst pc)))
                                       (snd pc))
                        (combine pages chunks))))) /\
    Forall2 (fun p cs =>
               (forall fuel', (fuel <= fuel')%nat ->
                  chunk_text fuel' (PdfPageChunk.text p) 1200 150
                  = Returns (Finished cs)) /\
               Forall (fun c => 0 < strlen c <= 1200) cs /\
               (Py.truthy (collapsed (PdfPageChunk.text p)) = false ->
                cs = []))
            pages chunks.
Proof. apply page_chunks_run. Qed.

(** ** _build_index *)

Lemma build_index_spec (E : Embedder) (passages : list string) :
  (passages = [] ->
   _build_index E passages = Raises (IndexError "tuple index out of range")) /\
  (forall elems,
      embed E passages = Array1 elems ->
      _build_index E passages
      = Raises (IndexError "tuple index out of range")) /\
  (forall a,
      embed E passages = Array2 a ->
      (shape0 a = length passages ->
       exists idx,
         _build_index E passages = Returns idx /\
         _passages idx = passages /\
         _index idx = vecs a /\
         index_d idx = shape1 a /\
         size idx = length passages /\
         length (_index idx) = size idx) /\
      (shape0 a <> length passages ->
       _build_index E passages
       = Raises (ValueError "passages and vectors must have same length"))).
Proof.
  unfold _build_index. split; [|split].
  - intros ->. now rewrite (embed_nothing E).
  - intros elems ->. reflexivity.
  - intros a ->. unfold FaissIndex_add, FaissIndex_init.
    cbn [index_d _index _passages].
    split; intros H.
    + rewrite H, !Nat.eqb_refl. cbn [negb app].
      eexists. split; [reflexivity|]. unfold size. cbn.
      repeat split; trivial.
    + destruct (Nat.eqb_spec (length passages) (shape0 a))
        as [e|_]; [congruence | reflexivity].
Qed.

(** X7: [_build_index] raises [IndexError] for no passages, and whenever
    the embedder's array has one axis only; for an array of two axes
    it returns an index exactly when there is one row for each passage,
    and raises the [ValueError] of [add] otherwise (the dimension check
    of the index cannot fail).  The index it returns holds the passages
    in their order, as many vectors as passages, and has the dimension
    of the embedding. *)
Theorem build_index_returns (E : Embedder) (passages : list string) :
  (passages = [] ->
   _build_index E passages = Raises (IndexError "tuple index out of range")) /\
  (forall elems,
      embed E passages = Array1 elems ->
      _build_index E passages
      = Raises (IndexError "tuple index out of range")) /\
  (forall a,
      embed E passages = Array2 a ->
      (shape0 a = length passages ->
       exists idx,
         _build_index E passages = Returns idx /\
         _passages idx = passages /\
         _index idx = vecs a /\
         index_d idx = shape1 a /\
         size idx = length passages /\
         length (_index idx) = size idx) /\
      (shape0 a <> length passages ->
       _build_index E passages
       = Raises (ValueError "passages and vectors must have same length"))).
Proof. apply build_index_spec. Qed.

(** ** FaissIndex.search *)

Lemma search_spec (F : Faiss) (self : FaissIndex)
    (query_vector : vector) (top_k : Z) :
  let hits := index_search F (_index self) query_vector top_k in
  let in_range (h : float * Z) :=
    (0 <=? snd h) && (snd h <? Z.of_nat (size self)) in
  let results := fst (FaissIndex_search F self query_vector top_k) in
  map score results = map fst (List.filter in_range hits) /\
  map (fun r => Some (text r)) results
  = map (fun h => nth_error (_passages self) (Z.to_nat (snd h)))
        (List.filter in_range hits) /\
  (length results <= length hits)%nat /\
  (size self = 0%nat -> results = []).
Proof.
  intros hits in_range results.
  assert (Hkeep : forall l,
    let keep (h : float * Z) :=
      if (snd h <? 0) || (Z.of_nat (length (_passages self)) <=? snd h)
      then []
      else [{| text := nth (Z.to_nat (snd h)) (_passages self) EmptyString;
               score := fst h |}] in
    map score (flat_map keep l) = map fst (List.filter in_range l) /\
    map (fun r => Some (text r)) (flat_map keep l)
    = map (fun h => nth_error (_passages self) (Z.to_nat (snd h)))
          (List.filter in_range l) /\
    (length (flat_map keep l) <= length l)%nat /\
    (size self = 0%nat -> flat_map keep l = [])).
  { induction l as [|[s i] l (IH1 & IH2 & IH3 & IH4)];
      [cbn; repeat split; trivial|].
    cbn [flat_map List.filter snd fst].
    assert (Hr : in_range (s, i)
                 = negb ((i <? 0)
                         || (Z.of_nat (length (_passages self)) <=? i))).
    { unfold in_range, size. cbn [snd].
      destruct (Z.ltb_spec i 0), (Z.leb_spec 0 i),
        (Z.leb_spec (Z.of_nat (length (_passages self))) i),
        (Z.ltb_spec i (Z.of_nat (length (_passages self))));
        (reflexivity || lia). }
    rewrite Hr.
    destruct ((i <? 0) || (Z.of_nat (length (_passages self)) <=? i))
      eqn:Hout; cbn [negb app map length score text fst snd].
    - repeat split; [exact IH1 | exact IH2 | lia | exact IH4].
    - apply orb_false_iff in Hout. destruct Hout as [Hi Hj].
      apply Z.ltb_ge in Hi. apply Z.leb_gt in Hj.
      repeat split.
      + now rewrite IH1.
      + rewrite IH2. f_equal. symmetry. apply nth_error_nth'. lia.
      + lia.
      + unfold size. intros Hz. lia. }
  exact (Hkeep hits).
Qed.

(** X8: What [search] returns: one result at most for each hit of the flat
    index, in the order of the hits; each result carries the score of a
    hit whose position lies within the passages and the passage at that
    position; positions outside (the -1 of faiss among them) are left
    out, so an index without passages returns nothing. *)
Theorem search_results_are_passages (F : Faiss) (self : FaissIndex)
    (query_vector : vector) (top_k : Z) :
  let hits := index_search F (_index self) query_vector top_k in
  let in_range (h : float * Z) :=
    (0 <=? snd h) && (snd h <? Z.of_nat (size self)) in
  let results := fst (FaissIndex_search F self query_vector top_k) in
  map score results = map fst (List.filter in_range hits) /\
  map (fun r => Some (text r)) results
  = map (fun h => nth_error (_passages self) (Z.to_nat (snd h)))
        (List.filter in_range hits) /\
  (length results <= length hits)%nat /\
  (size self = 0%nat -> results = []).
Proof. apply search_spec. Qed.

(** ** normalize_user_question *)

Lemma split_ws_lstrip (s : string) :
  Py.split_ws (Py.lstrip s) = Py.split_ws s.
Proof.
  unfold Py.split_ws. induction s as [|c r IH]; [reflexivity|].
  cbn [Py.lstrip Py.split_ws_aux]. destruct (Py.isspace c) eqn:E.
  - exact IH.
  - cbn [Py.split_ws_aux]. now rewrite E.
Qed.

Lemma split_ws_aux_rstrip (s : string) :
  forall cur, Py.split_ws_aux cur (Py.rstrip s) = Py.split_ws_aux cur s.
Proof.
  induction s as [|c r IH]; intros cur; [reflexivity|].
  cbn [Py.rstrip]. destruct (Py.rstrip r) as [|c' r'] eqn:E.
  - destruct (Py.isspace c) eqn:Ec.
    + cbn [Py.split_ws_aux]. rewrite Ec, <- (IH []). reflexivity.
    + cbn [Py.split_ws_aux]. rewrite Ec, <- (IH (c :: cur)). reflexivity.
  - cbn [Py.split_ws_aux]. destruct (Py.isspace c).
    + rewrite <- (IH []). reflexivity.
    + rewrite <- (IH (c :: cur)). reflexivity.
Qed.

Lemma split_ws_strip (s : string) : Py.split_ws (Py.strip s) = Py.split_ws s.
Proof.
  unfold Py.strip, Py.split_ws at 1. rewrite split_ws_aux_rstrip.
  apply split_ws_lstrip.
Qed.

Lemma existsb_of_list (p : ascii -> bool) (l : list ascii) :
  Py.existsb p (string_of_list_ascii l) = List.existsb p l.
Proof. induction l as [|c l IH]; cbn; [reflexivity | now rewrite IH]. Qed.

Lemma existsb_rev_list {X} (p : X -> bool) (l : list X) :
  List.existsb p (rev l) = List.existsb p l.
Proof.
  induction l as [|c l IH]; cbn; [reflexivity|].
  rewrite existsb_app, IH. cbn. rewrite orb_false_r. apply orb_comm.
Qed.

Lemma solid_of_cur (c : ascii) (cur : list ascii) :
  List.existsb Py.isspace (c :: cur) = false ->
  solid (string_of_list_ascii (rev (c :: cur))) = true.
Proof.
  intros H. unfold solid.
  rewrite existsb_of_list, existsb_rev_list, H. cbn [negb].
  rewrite andb_true_r.
  destruct (rev (c :: cur)) as [|x l] eqn:E; [|reflexivity].
  apply (f_equal (@length ascii)) in E. rewrite length_rev in E.
  discriminate.
Qed.

Lemma split_ws_aux_solid (s : string) :
  forall cur, List.existsb Py.isspace cur = false ->
              Forall (fun w => solid w = true) (Py.split_ws_aux cur s).
Proof.
  induction s as [|c r IH]; intros cur Hcur; cbn [Py.split_ws_aux].
  - destruct cur as [|x cur]; [constructor|].
    constructor; [now apply solid_of_cur | constructor].
  - destruct (Py.isspace c) eqn:Ec.
    + destruct cur as [|x cur]; [now apply IH|].
      constructor; [now apply solid_of_cur | now apply IH].
    + apply IH. cbn. now rewrite Ec.
Qed.

Lemma split_ws_solid (s : string) :
  Forall (fun w => solid w = true) (Py.split_ws s).
Proof. now apply split_ws_aux_solid. Qed.

Lemma solid_cons (c : ascii) (w : string) :
  solid (String c w) = true ->
  Py.isspace c = false /\ Py.existsb Py.isspace w = false.
Proof.
  unfold solid. cbn. intros H. apply negb_true_iff in H.
  now apply orb_false_iff in H.
Qed.

Lemma isspace_not_space (c : ascii) :
  Py.isspace c = false -> Ascii.eqb c " " = false.
Proof.
  intros H. destruct (Ascii.eqb_spec c " "%char) as [->|]; [|reflexivity].
  discriminate H.
Qed.

Lemma rev_string (w : string) (cur : list ascii) :
  string_of_list_ascii (rev (rev (list_ascii_of_string w) ++ cur))
  = (string_of_list_ascii (rev cur) ++ w)%string.
Proof.
  rewrite rev_app_distr, rev_involutive.
  generalize (rev cur). intros l.
  induction l as [|x l IH]; cbn.
  - apply string_of_list_ascii_of_string.
  - now rewrite IH.
Qed.

Lemma split_sp_aux_word (w t : string) :
  Py.existsb Py.isspace w = false ->
  forall cur,
    Py.split_sp_aux cur (w ++ t)
    = Py.split_sp_aux (rev (list_ascii_of_string w) ++ cur) t.
Proof.
  induction w as [|c w IH]; intros Hw cur; [reflexivity|].
  cbn in Hw. apply orb_false_iff in Hw. destruct Hw as [Hc Hw].
  cbn [append Py.split_sp_aux list_ascii_of_string rev].
  rewrite (isspace_not_space c Hc), (IH Hw), <- app_assoc. reflexivity.
Qed.

Lemma split_ws_aux_word (w t : string) :
  Py.existsb Py.isspace w = false ->
  forall cur,
    Py.split_ws_aux cur (w ++ t)
    = Py.split_ws_aux (rev (list_ascii_of_string w) ++ cur) t.
Proof.
  induction w as [|c w IH]; intros Hw cur; [reflexivity|].
  cbn in Hw. apply orb_false_iff in Hw. destruct Hw as [Hc Hw].
  cbn [append Py.split_ws_aux list_ascii_of_string rev].
  rewrite Hc, (IH Hw), <- app_assoc. reflexivity.
Qed.

Lemma solid_parts (w : string) :
  solid w = true ->
  Py.existsb Py.isspace w = false /\
  exists c l, rev (list_ascii_of_string w) = c :: l.
Proof.
  unfold solid. intros H. apply andb_true_iff in H. destruct H as [Ht Hs].
  apply negb_true_iff in Hs. split; [exact Hs|].
  destruct w as [|c w]; [discriminate|].
  destruct (rev (list_ascii_of_string (String c w))) as [|x l] eqn:E;
    [|now exists x, l].
  apply (f_equal (@length ascii)) in E. rewrite length_rev in E.
  discriminate.
Qed.

Lemma split_sp_join (w : string) (ws : list string) :
  Forall (fun w => solid w = true) (w :: ws) ->
  Py.split_sp (Py.join " " (w :: ws)) = w :: ws.
Proof.
  unfold Py.split_sp, Py.join. revert w.
  induction ws as [|w2 ws IH]; intros w Hall; inversion_clear Hall as [|? ? Hw Hws];
    destruct (solid_parts w Hw) as [Hs _].
  - cbn [String.concat]. rewrite <- (append_empty_r w) at 1.
    rewrite split_sp_aux_word by exact Hs.
    cbn [Py.split_sp_aux]. now rewrite rev_string.
  - cbn [String.concat]. rewrite split_sp_aux_word by exact Hs.
    cbn [append Py.split_sp_aux]. cbn [Ascii.eqb Bool.eqb andb].
    rewrite rev_string. cbn [rev string_of_list_ascii append].
    f_equal. exact (IH w2 Hws).
Qed.

Lemma split_ws_aux_flush (cur : list ascii) (t : string) :
  cur <> [] ->
  Py.split_ws_aux cur EmptyString = [string_of_list_ascii (rev cur)] /\
  Py.split_ws_aux cur (String " " t)
  = string_of_list_ascii (rev cur) :: Py.split_ws_aux [] t.
Proof. destruct cur; [congruence|]. intros _. split; reflexivity. Qed.

Lemma split_ws_join (ws : list string) :
  Forall (fun w => solid w = true) ws ->
  Py.split_ws (Py.join " " ws) = ws.
Proof.
  unfold Py.split_ws, Py.join.
  induction ws as [|w ws IH]; intros Hall; [reflexivity|].
  inversion_clear Hall as [|? ? Hw Hws].
  destruct (solid_parts w Hw) as (Hs & c & l & Hrev).
  assert (Hne : rev (list_ascii_of_string w) ++ [] <> []).
  { rewrite Hrev. discriminate. }
  destruct ws as [|w2 ws].
  - cbn [String.concat]. rewrite <- (append_empty_r w) at 1.
    rewrite split_ws_aux_word by exact Hs.
    rewrite (proj1 (split_ws_aux_flush _ EmptyString Hne)).
    now rewrite rev_string.
  - cbn [String.concat]. rewrite split_ws_aux_word by exact Hs.
    cbn [append].
    rewrite (proj2 (split_ws_aux_flush _ _ Hne)).
    rewrite rev_string. cbn [rev string_of_list_ascii append].
    f_equal. exact (IH Hws).
Qed.

Lemma join_truthy (w : string) (ws : list string) :
  solid w = true -> Py.truthy (Py.join " " (w :: ws)) = true.
Proof.
  intros Hw. destruct w as [|c w]; [discriminate|].
  unfold Py.join. cbn [String.concat]. now destruct ws.
Qed.

Lemma dict_get_cases (d : list (string * string)) (k default : string) :
  dict_get d k default = default \/ In (dict_get d k default) (map snd d).
Proof.
  induction d as [|[k' v] d IH]; cbn; [now left|].
  destruct (String.eqb k' k); [right; now left|].
  destruct IH; [now left | right; now right].
Qed.

Lemma correct_word_cases (t : string) :
  correct_word t = t \/ In (correct_word t) (map snd _COMMON_CORRECTIONS).
Proof. apply dict_get_cases. Qed.

Lemma correct_word_solid (t : string) :
  solid t = true -> solid (correct_word t) = true.
Proof.
  intros Ht. destruct (correct_word_cases t) as [->|H]; [exact Ht|].
  remember (correct_word t) as c eqn:Ec. clear Ec. cbn in H.
  repeat (destruct H as [<-|H]; [reflexivity|]). destruct H.
Qed.

Lemma correct_word_idem (t : string) :
  correct_word (correct_word t) = correct_word t.
Proof.
  destruct (correct_word_cases t) as [E|H]; [now rewrite !E|].
  remember (correct_word t) as c eqn:Ec. clear Ec. cbn in H.
  repeat (destruct H as [<-|H]; [reflexivity|]). destruct H.
Qed.

Lemma normalize_user_question_spec (question : string) :
  normalize_user_question question
  = Py.join " " (map correct_word (Py.split_ws question)).
Proof.
  unfold normalize_user_question. rewrite split_ws_strip.
  pose proof (split_ws_solid question) as Hs.
  destruct (Py.split_ws question) as [|w ws]; [reflexivity|].
  rewrite join_truthy by now inversion Hs. cbn [negb].
  rewrite split_sp_join by exact Hs. reflexivity.
Qed.

(** X9: [normalize_user_question] puts single spaces between the words of
    the question and replaces each word by its correction, whatever its
    case; the words of the result are the corrected words of the
    question, and normalising twice changes nothing more. *)
Theorem normalize_user_question_words (question : string) :
  normalize_user_question question
  = Py.join " " (map correct_word (Py.split_ws question)) /\
  Py.split_ws (normalize_user_question question)
  = map correct_word (Py.split_ws question) /\
  normalize_user_question (normalize_user_question question)
  = normalize_user_question question.
Proof.
  assert (Hsolid : Forall (fun w => solid w = true)
                          (map correct_word (Py.split_ws question))).
  { apply Forall_map. eapply Forall_impl; [|apply split_ws_solid].
    intros w. apply correct_word_solid. }
  split; [apply normalize_user_question_spec|]. split.
  - rewrite normalize_user_question_spec. now apply split_ws_join.
  - rewrite (normalize_user_question_spec (normalize_user_question _)).
    rewrite (normalize_user_question_spec question) at 1.
    rewrite split_ws_join by exact Hsolid.
    rewrite map_map. rewrite normalize_user_question_spec.
    f_equal. apply map_ext. intros t. apply correct_word_idem.
Qed.

(** ** answer_with_llm_or_extract *)

Lemma fallback_not_llm (provider : string) (llm_error : option string)
    (retrieved : list RetrievedPassage) :
  snd (fallback provider llm_error retrieved) = false.
Proof.
  unfold fallback. destruct retrieved; [reflexivity|].
  now destruct (_ || _).
Qed.

(** X10: [answer_with_llm_or_extract] calls at most one answering service,
    the one that [LLM_PROVIDER] names, with the prompt built from the
    normalised question and the retrieved passages; it reports that a
    model was used exactly when that service gave a non-empty answer,
    and then returns that answer unchanged.  With any other value of
    [LLM_PROVIDER] no service is called. *)
Theorem answer_calls_the_selected_service (question : string)
    (retrieved : list RetrievedPassage)
    (env : string -> string -> string)
    (oracle : Provider -> string -> option string * option string) :
  let r := exec env oracle (answer_with_llm_or_extract question retrieved) in
  let answer := fst (fst r) in
  let used_llm := snd (fst r) in
  let calls := snd r in
  (calls = [] \/
   exists p, calls = [(p, prompt_of question retrieved)] /\
             env "LLM_PROVIDER"%string "None"%string = provider_name p) /\
  (used_llm = true <->
   exists p, calls = [(p, prompt_of question retrieved)] /\
             fst (oracle p (prompt_of question retrieved)) = Some answer /\
             Py.truthy answer = true) /\
  ((forall p, env "LLM_PROVIDER"%string "None"%string <> provider_name p) ->
   calls = []).
Proof.
  unfold answer_with_llm_or_extract. fold (prompt_of question retrieved).
  set (prompt := prompt_of question retrieved).
  destruct (_summary_is_underspecified _).
  { cbn. split; [now left|]. split; [|reflexivity].
    split; [discriminate | intros (p & H & _); discriminate]. }
  destruct (if _looks_like_financial_concepts_question _ then _ else _).
  2:{ cbn. split; [now left|]. split; [|reflexivity].
      split; [discriminate | intros (p & H & _); discriminate]. }
  cbn [exec].
  set (provider := env "LLM_PROVIDER"%string "None"%string).
  assert (Hcall : forall p e,
    let r := exec env oracle
               (CallOracle p prompt (fun r =>
                  if truthy_opt (fst r) then Ret (answer_text r, true)
                  else Ret (fallback provider (e r) retrieved))) in
    snd r = [(p, prompt)] /\
    (snd (fst r) = true <->
     fst (oracle p prompt) = Some (fst (fst r)) /\
     Py.truthy (fst (fst r)) = true)).
  { intros p e. cbn [exec].
    destruct (oracle p prompt) as [a err] eqn:Eo. cbn [fst].
    destruct (truthy_opt a) eqn:Ea; cbn [exec fst snd].
    - split; [reflexivity|]. destruct a as [a|]; [|discriminate].
      unfold answer_text. cbn. tauto.
    - split; [reflexivity|]. rewrite fallback_not_llm.
      split; [discriminate|]. intros [H1 H2]. rewrite H1 in Ea. cbn in Ea.
      congruence. }
  assert (Hone : forall p e,
    provider = provider_name p ->
    let r := exec env oracle
               (CallOracle p prompt (fun r =>
                  if truthy_opt (fst r) then Ret (answer_text r, true)
                  else Ret (fallback provider (e r) retrieved))) in
    (snd r = [] \/ exists p', snd r = [(p', prompt)] /\
                              provider = provider_name p') /\
    (snd (fst r) = true <->
     exists p', snd r = [(p', prompt)] /\
                fst (oracle p' prompt) = Some (fst (fst r)) /\
                Py.truthy (fst (fst r)) = true) /\
    ((forall p', provider <> provider_name p') -> snd r = [])).
  { intros p e Hp r. destruct (Hcall p e) as [Hc Hu]. fold r in Hc, Hu.
    split; [right; now exists p|]. split.
    - rewrite Hu. split.
      + intros H. now exists p.
      + intros (p' & Hp' & H). rewrite Hc in Hp'.
        injection Hp' as <-. exact H.
    - intros Hno. now destruct (Hno p). }
  destruct (String.eqb_spec provider "Gemini") as [Eg|Ng].
  { exact (Hone Gemini (fun r => snd r) Eg). }
  destruct (String.eqb_spec provider "OpenAI") as [Eo|No].
  { exact (Hone OpenAI
             (fun _ => Some "OpenAI call failed. Check your API key."%string)
             Eo). }
  destruct (String.eqb_spec provider "Ollama") as [El|Nl].
  { exact (Hone Ollama (fun r => snd r) El). }
  cbn [exec fst snd]. split; [now left|]. split; [|reflexivity].
  rewrite fallback_not_llm.
  split; [discriminate | intros (p & H & _); discriminate].
Qed.

(** ** Keyword tests: [k in s] *)

Lemma prefix_iff (a s : string) :
  String.prefix a s = true <-> exists t, s = (a ++ t)%string.
Proof.
  revert s. induction a as [|c a IH]; intros [|d s]; cbn.
  - split; [intros _; now exists EmptyString | reflexivity].
  - split; [intros _; now exists (String d s) | reflexivity].
  - split; [discriminate | intros (t & H); discriminate].
  - destruct (ascii_dec c d) as [->|Hne].
    + rewrite IH. split; intros (t & H); exists t; [now subst | now injection H].
    + split; [discriminate|]. intros (t & H). injection H as H1 H2.
      congruence.
Qed.

Lemma contains_iff (a s : string) :
  Py.contains a s = true <-> exists p t, s = (p ++ a ++ t)%string.
Proof.
  split.
  - induction s as [|c s IH]; cbn [Py.contains]; intros H;
      apply orb_true_iff in H; destruct H as [H|H].
    + apply prefix_iff in H. destruct H as (t & H). now exists EmptyString, t.
    + discriminate.
    + apply prefix_iff in H. destruct H as (t & H). now exists EmptyString, t.
    + destruct (IH H) as (p & t & E). exists (String c p), t. cbn. now rewrite E.
  - intros (p & t & E). subst s.
    induction p as [|c p IH].
    + cbn [append].
      assert (Hp : String.prefix a (a ++ t) = true)
        by (apply prefix_iff; now exists t).
      destruct (a ++ t)%string; cbn [Py.contains]; now rewrite Hp.
    + cbn [append Py.contains]. rewrite IH. apply orb_true_r.
Qed.

(** A keyword that contains another is found only where the other is. *)
Lemma contains_mono (a b s : string) :
  Py.contains a b = true -> Py.contains b s = true -> Py.contains a s = true.
Proof.
  intros Hab Hbs. apply contains_iff in Hab, Hbs.
  destruct Hab as (p & t & ->). destruct Hbs as (p' & t' & ->).
  apply contains_iff. exists (p' ++ p)%string, (t ++ t')%string.
  now rewrite !append_assoc3.
Qed.

Lemma contains_absorb (a b s : string) :
  Py.contains a b = true ->
  Py.contains b s || Py.contains a s = Py.contains a s.
Proof.
  intros Hab. destruct (Py.contains b s) eqn:Hb; [|reflexivity].
  cbn. symmetry. now apply (contains_mono a b s).
Qed.

Lemma contains_absorb_r (a b s : string) :
  Py.contains a b = true ->
  Py.contains a s || Py.contains b s = Py.contains a s.
Proof. intros H. rewrite orb_comm. now apply contains_absorb. Qed.

Lemma isspace_lower_char (c : ascii) :
  Py.isspace (Py.lower_char c) = Py.isspace c.
Proof.
  destruct c as [[] [] [] [] [] [] [] []]; reflexivity.
Qed.

Lemma lower_lstrip (s : string) : Py.lower (Py.lstrip s) = Py.lstrip (Py.lower s).
Proof.
  induction s as [|c r IH]; [reflexivity|].
  cbn [Py.lstrip Py.lower]. rewrite isspace_lower_char.
  destruct (Py.isspace c); [exact IH | reflexivity].
Qed.

Lemma lower_rstrip (s : string) : Py.lower (Py.rstrip s) = Py.rstrip (Py.lower s).
Proof.
  induction s as [|c r IH]; [reflexivity|].
  cbn [Py.rstrip Py.lower]. rewrite <- IH, isspace_lower_char.
  destruct (Py.rstrip r); cbn [Py.lower]; [|reflexivity].
  now destruct (Py.isspace c).
Qed.

Lemma lower_strip (s : string) : Py.lower (Py.strip s) = Py.strip (Py.lower s).
Proof. unfold Py.strip. now rewrite lower_rstrip, lower_lstrip. Qed.

(** Case analysis on which keywords occur, given which of them contain
    which. *)
Ltac keyword_cases :=
  repeat match goal with
         | |- context [Py.contains ?k ?t] => destruct (Py.contains k t)
         end;
  cbn; intros; try reflexivity;
  repeat match goal with
         | H : true = true -> _ |- _ => specialize (H eq_refl)
         end;
  try discriminate.

(** X11: [parse_finance_request] decides on fewer keywords than it lists:
    the chart is bar, pie or line as the text, in lower case, contains
    [bar], else [pie], else one of [trend], [over time], [time series],
    [line]; the grouping is by category, hour, day or month as it
    contains one of [category], [merchant], [type], else [hour], else
    [day] or [daily], else [month].  The case of the request does not
    matter. *)
Theorem parse_finance_request_keywords (user_text : string) :
  let t := request_text user_text in
  chart (parse_finance_request user_text)
  = (if Py.contains "bar" t then "bar"
     else if Py.contains "pie" t then "pie"
     else if Py.contains_any ["trend"; "over time"; "time series"; "line"] t
          then "line"
     else "none")%string /\
  group (parse_finance_request user_text)
  = (if Py.contains_any ["category"; "merchant"; "type"] t then "category"
     else if Py.contains "hour" t then "hour"
     else if Py.contains_any ["day"; "daily"] t then "day"
     else if Py.contains "month" t then "month"
     else "auto")%string /\
  parse_finance_request (Py.lower user_text) = parse_finance_request user_text.
Proof.
  intros t. unfold parse_finance_request. fold (request_text user_text).
  fold t. cbn [chart group]. unfold Py.contains_any. cbn [List.existsb].
  rewrite !orb_false_r.
  split; [|split].
  - generalize (contains_mono "bar" "barchart" t eq_refl),
      (contains_mono "bar" "bar chart" t eq_refl),
      (contains_mono "pie" "pie chart" t eq_refl),
      (contains_mono "line" "line chart" t eq_refl),
      (contains_mono "line" "timeline" t eq_refl).
    keyword_cases.
  - generalize (contains_mono "hour" "hourly" t eq_refl),
      (contains_mono "month" "monthly" t eq_refl),
      (contains_mono "category" "by category" t eq_refl).
    keyword_cases.
  - subst t. unfold request_text.
    rewrite (lower_strip (Py.lower user_text)), lower_idem, <- lower_strip.
    reflexivity.
Qed.

(** ** _looks_like_financial_concepts_question *)

(** X12: The first two tests of [_looks_like_financial_concepts_question]
    are covered by the third and [concepts] by [concept]: the question
    asks for financial concepts exactly when, in lower case, it contains
    [financial] and one of [concept], [terms], [topics]; its case does
    not matter. *)
Theorem financial_concepts_question_keywords (q : string) :
  _looks_like_financial_concepts_question q
  = Py.contains "financial" (Py.lower q)
    && Py.contains_any ["concept"; "terms"; "topics"]%string (Py.lower q) /\
  _looks_like_financial_concepts_question (Py.lower q)
  = _looks_like_financial_concepts_question q.
Proof.
  split.
  - unfold _looks_like_financial_concepts_question, Py.contains_any.
    cbn [List.existsb]. set (t := Py.lower q). rewrite !orb_false_r.
    generalize (contains_mono "financial" "financial concept" t eq_refl),
      (contains_mono "concept" "financial concept" t eq_refl),
      (contains_mono "financial concept" "financial concepts" t eq_refl),
      (contains_mono "concept" "concepts" t eq_refl).
    keyword_cases.
  - unfold _looks_like_financial_concepts_question. now rewrite lower_idem.
Qed.

(** ** _extract_financial_concepts_from_context *)

Lemma dedupe_fresh (l : list string) :
  forall seen,
    NoDup l ->
    (forall x, In x l -> existsb (String.eqb x) seen = false) ->
    dedupe seen l = l.
Proof.
  induction l as [|x l IH]; intros seen Hnd Hfresh; [reflexivity|].
  cbn [dedupe]. rewrite (Hfresh x (or_introl eq_refl)).
  inversion_clear Hnd as [|? ? Hx Hl]. f_equal. apply IH; [exact Hl|].
  intros y Hy. cbn [existsb]. rewrite (Hfresh y (or_intror Hy)).
  rewrite orb_false_r. apply String.eqb_neq. intros ->. contradiction.
Qed.

Lemma concept_vocabulary_distinct :
  NoDup (_FINANCE_TERMS ++ ["currency amounts"%string]).
Proof.
  cbn [_FINANCE_TERMS app].
  repeat (apply NoDup_cons;
          [cbn [In]; intros H;
           repeat (destruct H as [H|H]; [discriminate H|]); exact H|]).
  apply NoDup_nil.
Qed.

(** X13: [_extract_financial_concepts_from_context] returns the terms of the
    vocabulary found in the passages, in the order of the vocabulary,
    with [currency amounts] last when a money amount is found; no term
    is repeated (the loop that removes repetitions never removes
    anything), and a plural is only listed after its singular. *)
Theorem extract_financial_concepts_in_order (context_passages : list string) :
  let out := _extract_financial_concepts_from_context context_passages in
  out = filter (concept_present context_passages)
               (_FINANCE_TERMS ++ ["currency amounts"%string]) /\
  NoDup out /\
  (In "expenses"%string out -> In "expense"%string out) /\
  (In "costs"%string out -> In "cost"%string out) /\
  (In "subtotal"%string out -> In "total"%string out).
Proof.
  intros out.
  assert (Hout : out = filter (concept_present context_passages)
                          (_FINANCE_TERMS ++ ["currency amounts"%string])).
  { unfold out, _extract_financial_concepts_from_context.
    set (joined := Py.join nl context_passages).
    assert (Hfound :
      (if money_search false joined
       then filter (fun term => Py.contains term (Py.lower joined))
                   _FINANCE_TERMS ++ ["currency amounts"%string]
       else filter (fun term => Py.contains term (Py.lower joined))
                   _FINANCE_TERMS)
      = filter (concept_present context_passages)
               (_FINANCE_TERMS ++ ["currency amounts"%string])).
    { rewrite filter_app.
      rewrite (filter_ext_in (concept_present context_passages)
                 (fun term => Py.contains term (Py.lower joined))).
      - cbn [filter].
        change (concept_present context_passages "currency amounts")
          with (money_search false joined).
        destruct (money_search false joined);
          [reflexivity | now rewrite app_nil_r].
      - intros term Hin. unfold concept_present.
        destruct (String.eqb_spec term "currency amounts") as [->|];
          [|reflexivity].
        exfalso. cbn in Hin.
        repeat (destruct Hin as [Hin|Hin]; [discriminate Hin|]).
        exact Hin. }
    rewrite Hfound. apply dedupe_fresh; [|reflexivity].
    apply NoDup_filter, concept_vocabulary_distinct. }
  split; [exact Hout|]. split.
  { rewrite Hout. apply NoDup_filter, concept_vocabulary_distinct. }
  assert (Hplural : forall plural singular : string,
    Py.contains singular plural = true ->
    String.eqb plural "currency amounts" = false ->
    String.eqb singular "currency amounts" = false ->
    In singular (_FINANCE_TERMS ++ ["currency amounts"%string]) ->
    In plural out -> In singular out).
  { intros plural singular Hc Hp Hs Hin. rewrite Hout, !filter_In.
    intros [_ H]. split; [exact Hin|].
    unfold concept_present in *. rewrite Hp in H. rewrite Hs.
    exact (contains_mono _ _ _ Hc H). }
  repeat split; apply Hplural; try reflexivity; cbn; tauto.
Qed.

(** ** A timestamp is not a number *)

Lemma fixed_digit (n : Z) :
  Py.isdigit (ascii_of_nat (48 + Z.to_nat (n mod 10))) = true.
Proof.
  pose proof (Z.mod_pos_bound n 10 ltac:(lia)) as H.
  assert (E : n mod 10 = 0 \/ n mod 10 = 1 \/ n mod 10 = 2 \/ n mod 10 = 3 \/
              n mod 10 = 4 \/ n mod 10 = 5 \/ n mod 10 = 6 \/ n mod 10 = 7 \/
              n mod 10 = 8 \/ n mod 10 = 9) by lia.
  repeat (destruct E as [E|E]; [rewrite E; reflexivity|]).
  rewrite E. reflexivity.
Qed.

Lemma digit_numeric (c : ascii) : Py.isdigit c = true -> numeric_char c = true.
Proof. intros H. unfold numeric_char. now rewrite H. Qed.

Lemma digit_not_sign (c : ascii) :
  Py.isdigit c = true ->
  Ascii.eqb c "-" = false /\ Ascii.eqb c "+" = false.
Proof.
  intros H. split.
  - destruct (Ascii.eqb_spec c "-"%char) as [->|]; [discriminate H | reflexivity].
  - destruct (Ascii.eqb_spec c "+"%char) as [->|]; [discriminate H | reflexivity].
Qed.

(** After a run of digits that ends at a minus sign, [float] fails. *)
Lemma read_digits_to_minus (w : nat) (n : Z) (r : string) :
  forall acc cnt,
    exists acc' cnt',
      PyFloat.read_digits acc cnt
        (Py.filter numeric_char (Calendar.fixed w n) ++ String "-" r)
      = (acc', cnt', String "-" r).
Proof.
  induction w as [|w IH]; intros acc cnt; cbn [Calendar.fixed Py.filter].
  - exists acc, cnt. reflexivity.
  - rewrite (digit_numeric _ (fixed_digit _)).
    cbn [append PyFloat.read_digits]. rewrite fixed_digit. apply IH.
Qed.

Lemma to_number_timestamp (t : Timestamp) : _to_number (PyTimestamp t) = None.
Proof.
  change (_to_number (PyTimestamp t))
    with (_to_number (PyStr (Calendar.timestamp_str t))).
  rewrite to_number_spec.
  replace (PyFloat.parse _) with (@None float); [reflexivity|].
  symmetry. unfold Calendar.timestamp_str. cbv zeta.
  rewrite !append_assoc3. rewrite filter_append.
  set (y := Calendar.month_of_days _ / 12).
  rewrite (filter_append numeric_char "-").
  change (Py.filter numeric_char "-") with "-"%string.
  cbn [append].
  match goal with
  | |- context [String "-"%char ?r] => generalize r
  end.
  intros r. unfold Calendar.fixed at 1. fold (Calendar.fixed 3 y).
  cbn [Py.filter]. rewrite (digit_numeric _ (fixed_digit _)).
  cbn [append PyFloat.parse].
  destruct (digit_not_sign _ (fixed_digit (y / 10 ^ Z.of_nat 3))) as [-> ->].
  unfold PyFloat.parse_unsigned. cbn [PyFloat.read_digits].
  rewrite fixed_digit.
  destruct (read_digits_to_minus 3 y r
              (10 * 0 + PyFloat.digit_val
                          (ascii_of_nat
                             (48 + Z.to_nat ((y / 10 ^ Z.of_nat 3) mod 10))))
              1%nat)
    as (acc' & cnt' & ->).
  reflexivity.
Qed.

Lemma to_number_of_ts (x : option Timestamp) : _to_number (obj_of_ts x) = None.
Proof. destruct x as [t|]; [apply to_number_timestamp | reflexivity]. Qed.

(** ** The result of parse_financial_tables *)

Lemma validated_rows_no_amounts {N} (rows : list (list cell))
    (dts : list (option Timestamp)) (amts : list (option N)) :
  Forall (fun a => a = None) amts -> validated_rows rows dts amts = [].
Proof.
  revert dts amts. induction rows as [|r rows IH]; intros dts amts H;
    [reflexivity|].
  destruct dts as [|d dts]; [reflexivity|].
  destruct amts as [|a amts]; [reflexivity|].
  inversion_clear H as [|? ? Ha Hamts]. subst a. cbn [validated_rows].
  destruct d; now apply IH.
Qed.

Lemma validated_rows_cells {N} (rows : list (list cell))
    (dts : list (option Timestamp)) (amts : list (option N))
    (row : LedgerRow N) :
  In row (validated_rows rows dts amts) ->
  In (cells row) rows /\ In (Some (amount row)) amts.
Proof.
  revert dts amts. induction rows as [|r rows IH]; intros dts amts;
    [intros []|].
  destruct dts as [|d dts]; [intros []|].
  destruct amts as [|a amts]; [intros []|].
  cbn [validated_rows].
  destruct d as [t|], a as [v|]; cbn [In]; intros H;
    try (destruct (IH dts amts H); split; now right).
  destruct H as [<-|H]; [split; now left|].
  destruct (IH dts amts H); split; now right.
Qed.

Lemma all_numbers_length (l : list (option float)) (v : list float) :
  all_numbers l = Some v -> length v = length l.
Proof.
  revert v. induction l as [|[x|] l IH]; intros v; cbn; try discriminate.
  - now intros [= <-].
  - destruct (all_numbers l) as [w|]; cbn; [|discriminate].
    intros [= <-]. cbn. f_equal. now apply IH.
Qed.

Lemma detect_datetime_col_in (P : DatetimeParser) (d : DataFrame) (c : string) :
  _detect_datetime_col P d = Returns (Some c) -> In c (columns d).
Proof.
  unfold _detect_datetime_col.
  destruct (truthy_opt (_best_col (columns d) _DATE_HINTS));
    [intros [= H]; now apply best_col_in in H|].
  destruct (scan _ (columns d) (None, 0%float)) as [[best rate]|e] eqn:F;
    [|discriminate].
  cbn [obind fst snd].
  destruct (f0_3 <=? rate)%float; [|discriminate]. intros [= ->].
  eapply scored_col_in in F; [| |reflexivity].
  - destruct F as [F|F]; [exact F | discriminate].
  - intros st x st'. destruct (column d x); try discriminate.
    destruct (_ <? _)%float; intros [= <-]; [now right | now left].
Qed.

Lemma detect_amount_col_in (d : DataFrame) (c : string) :
  _detect_amount_col d = Returns (Some c) -> In c (columns d).
Proof.
  unfold _detect_amount_col.
  destruct (truthy_opt (_best_col (columns d) _AMOUNT_HINTS));
    [intros [= H]; now apply best_col_in in H|].
  destruct (scan _ (columns d) (None, 0%float)) as [[best rate]|e] eqn:F;
    [|discriminate].
  cbn [obind fst snd].
  destruct (f0_3 <=? rate)%float; [|discriminate]. intros [= ->].
  eapply scored_col_in in F; [| |reflexivity].
  - destruct F as [F|F]; [exact F | discriminate].
  - intros st x st'. destruct (column d x) as [s|rows|]; try discriminate.
    + destruct (dropna s); [intros [= <-]; now left|].
      destruct (_ <? _)%float; intros [= <-]; [now right | now left].
    + destruct (complete_rows rows); [intros [= <-]; now left | discriminate].
Qed.

Lemma max_length_bound {X} (body : list (list X)) (r : list X) :
  In r body -> (length r <= fold_right Nat.max 0 (map (@length X) body))%nat.
Proof.
  induction body as [|x body IH]; [intros []|].
  cbn [map fold_right In]. intros [->|H]; [lia|]. specialize (IH H). lia.
Qed.

Lemma mk_DataFrame_width (body : list (list cell)) (header : list string)
    (d : DataFrame) :
  mk_DataFrame body header = Returns d ->
  columns d = header /\
  Forall (fun r => length r = length header) (values d).
Proof.
  unfold mk_DataFrame.
  pose proof (max_length_bound body) as Hmax.
  set (k := fold_right Nat.max 0%nat (map (@length cell) body)) in *.
  destruct (Nat.eqb_spec k (length header)) as [E|]; [|discriminate].
  intros [= <-]. cbn [columns values]. split; [reflexivity|].
  apply Forall_forall. intros r Hr. apply in_map_iff in Hr.
  destruct Hr as (r0 & <- & Hr0). specialize (Hmax r0 Hr0).
  rewrite length_app, repeat_length. clearbody k. unfold cell in *. lia.
Qed.

(** A candidate comes from a framed grid in which the datetime label
    selects a series, and the amount label, another one, a series or a
    frame: a column read as dates never passes for the amounts, since
    no timestamp converts to a number. *)
Lemma candidate_inv (P : DatetimeParser) (t : RawGrid) (c : Parsed) :
  candidate_of P t = Returns (Some c) -> candidate_source P t c.
Proof.
  unfold candidate_of.
  destruct t as [|row0 [|row1 body]]; try discriminate.
  destruct (count_true Py.truthy (map header_label row0) <? 2)%nat;
    [discriminate|].
  destruct (mk_DataFrame (row1 :: body) (map header_label row0)) as [df0|e]
    eqn:Hdf; [|discriminate].
  cbn [obind].
  destruct (length (values (dropna_all df0)) <? 3)%nat; [discriminate|].
  destruct (_detect_datetime_col P (dropna_all df0)) as [[dt|]|e] eqn:Hdt;
    try discriminate.
  2:{ cbn [obind]. destruct (_detect_amount_col _) as [?|?]; discriminate. }
  cbn [obind].
  destruct (_detect_amount_col (dropna_all df0)) as [[amt|]|e] eqn:Hamt;
    try discriminate.
  cbn [obind].
  destruct (Py.truthy dt) eqn:Tdt; [|discriminate].
  destruct (Py.truthy amt) eqn:Tamt; [|discriminate].
  cbn [negb orb].
  destruct (column (dropna_all df0) dt) as [dates|?|] eqn:Cdt; try discriminate.
  destruct (String.eqb_spec dt amt) as [->|Hne].
  { unfold validated. cbn [ledger_rows].
    rewrite validated_rows_no_amounts; [discriminate|].
    apply Forall_forall. intros a Ha. apply in_map_iff in Ha.
    destruct Ha as (o & <- & Ho). apply in_map_iff in Ho.
    destruct Ho as (ts & <- & _). apply to_number_of_ts. }
  destruct (column (dropna_all df0) amt) as [texts|rows|] eqn:Camt;
    try discriminate.
  - intros H. apply as_parsed_some in H. destruct H as (r & H & ->).
    eapply source_one; eauto.
  - destruct (frame_map P) eqn:Hmap; [|discriminate].
    intros H. apply as_parsed_some in H. destruct H as (r & H & ->).
    eapply source_many; eauto.
Qed.

Lemma source_columns {N} (P : DatetimeParser) (row0 : list cell)
    (body : list (list cell)) (df0 : DataFrame) (dt amt : string)
    (dates : list cell) (amts : list (option N)) (r : FinanceParseResult N) :
  mk_DataFrame body (map header_label row0) = Returns df0 ->
  dt <> amt ->
  column (dropna_all df0) dt = Series dates ->
  validated (dropna_all df0) dt amt (to_datetime P dates) amts
  = Returns (Some r) ->
  datetime_col r = dt /\ amount_col r = amt /\
  ledger_columns (df r) = columns (dropna_all df0) /\
  occurrences (datetime_col r) (ledger_columns (df r)) = 1%nat /\
  datetime_col r <> amount_col r /\
  (3 <= nrows r)%nat /\
  Forall (fun row => length (cells row) = length (ledger_columns (df r))
                     /\ In (Some (amount row)) amts)
         (ledger_rows (df r)) /\
  (forall c, category_col r = Some c ->
             In c (ledger_columns (df r)) /\
             c <> datetime_col r /\ c <> amount_col r).
Proof.
  intros Hdf Hne Cdt H. apply validated_shape in H.
  destruct H as (H3 & Hd & Ha & Hcols & Hrows & Hcat).
  apply mk_DataFrame_width in Hdf. destruct Hdf as [Hlabels Hwidth].
  apply select_series in Cdt. destruct Cdt as [Hone _].
  rewrite Hd, Ha, Hcols. do 7 (split; trivial).
  - rewrite Hrows. apply Forall_forall. intros row Hrow.
    apply validated_rows_cells in Hrow. destruct Hrow as [Hcells Hamt].
    split; [|exact Hamt].
    cbn [dropna_all values columns] in *.
    apply filter_In in Hcells. destruct Hcells as [Hcells _].
    rewrite Forall_forall in Hwidth. rewrite Hlabels. now apply Hwidth.
  - rewrite <- Hcols. intros c Hc. rewrite Hc in Hcat.
    apply detect_category_col_in in Hcat. destruct Hcat as [Hin Hex].
    split; [exact Hin|].
    split; intros ->; apply Hex; cbn; auto.
Qed.

Lemma parsed_columns (P : DatetimeParser) (tables : list RawGrid)
    (x : Parsed) :
  parse_financial_tables P tables = Returns (Some x) ->
  well_formed P x.
Proof.
  intros H. apply parse_loop_result in H.
  destruct H as [H|(t & _ & H)]; [discriminate|].
  apply candidate_inv in H.
  destruct H as [row0 body df0 dt amt dates texts r _ Hdf _ _ _ _ Hne Cdt Camt Hv
                |row0 body df0 dt amt dates rows r _ Hdf _ _ _ _ Hne Cdt Camt Hmap Hv].
  - destruct (source_columns P _ _ _ _ _ _ _ _ Hdf Hne Cdt Hv)
      as (Hd & Ha & Hcols & H1 & H2 & H3 & H4 & H5).
    apply select_series in Camt. destruct Camt as [Hone _].
    unfold well_formed, parsed_datetime_col, parsed_labels, parsed_amount_col,
      parsed_rows, parsed_category_col.
    split; [apply occurrences_In; rewrite H1; lia|].
    split; [apply occurrences_In; rewrite Ha, Hcols, Hone; lia|].
    split; [exact H2|]. split; [exact H3|]. split; [exact H5|].
    split; [exact H1|].
    split; [rewrite Ha, Hcols; exact Hone|].
    eapply Forall_impl; [|exact H4]. cbv beta. tauto.
  - destruct (source_columns P _ _ _ _ _ _ _ _ Hdf Hne Cdt Hv)
      as (Hd & Ha & Hcols & H1 & H2 & H3 & H4 & H5).
    apply select_frame in Camt. destruct Camt as [Hmany ->].
    unfold well_formed, parsed_datetime_col, parsed_labels, parsed_amount_col,
      parsed_rows, parsed_category_col.
    split; [apply occurrences_In; rewrite H1; lia|].
    split; [apply occurrences_In; rewrite Ha, Hcols; lia|].
    split; [exact H2|]. split; [exact H3|]. split; [exact H5|].
    split; [exact H1|].
    split; [rewrite Ha, Hcols; exact Hmany|].
    split; [exact Hmap|].
    eapply Forall_impl; [|exact H4]. cbv beta. intros row [Hw Hin].
    split; [exact Hw|].
    apply in_map_iff in Hin. destruct Hin as (fr & Hnum & Hfr).
    apply in_map_iff in Hfr. destruct Hfr as (cells0 & <- & _).
    apply all_numbers_length in Hnum.
    rewrite Hnum, !length_map, Ha, Hcols. reflexivity.
Qed.

(** X14: What [parse_financial_tables] returns is well formed: the datetime
    and the amount label are two different labels of the returned
    frame (a column read as dates never passes for the amounts, since
    no timestamp converts to a number), at least three rows are left,
    every row has one cell for each column, and the category label,
    when there is one, is a third label of the frame.  One column carries
    the datetime label.  One column carries the amount label, or
    several do, where frames have [map], and a row then has a number
    for each of them. *)
Theorem parse_result_well_formed (P : DatetimeParser)
    (tables : list RawGrid) (x : Parsed) :
  parse_financial_tables P tables = Returns (Some x) ->
  well_formed P x.
Proof. apply parsed_columns. Qed.

Lemma parse_result_well_formed_witness :
  well_formed iso_dates (OneAmount scenario_result).
Proof.
  apply (parse_result_well_formed iso_dates [scenario_grid]).
  vm_compute. reflexivity.
Defined.

(** A frame with two amount columns: both are converted. *)
Example two_amount_columns :
  exists r,
    parse_financial_tables iso_dates
      [[[Some "Date"; Some "Amount"; Some "Amount"];
        [Some "2024-01-05"; Some "1.00"; Some "(2.50)"];
        [Some "2024-01-06"; Some "2.00"; Some "x"];
        [Some "2024-01-07"; Some "3.00"; Some "4"];
        [Some "2024-01-08"; Some "5.00"; Some "6"]]]%string
    = Returns (Some (ManyAmounts r)) /\
    map amount (ledger_rows (df r))
    = [[1; -2.5]; [3; 4]; [5; 6]]%float.
Proof. eexists. split; vm_compute; reflexivity. Qed.

(** ** _best_col *)

Lemma find_dict_keys (p : string -> bool) (cols : list string) :
  forall seen,
    (forall x, In x seen -> p x = false) ->
    find p (dict_keys seen cols) = find p cols.
Proof.
  induction cols as [|c r IH]; intros seen Hseen; [reflexivity|].
  cbn [dict_keys find]. destruct (existsb (String.eqb c) seen) eqn:E.
  - apply existsb_exists in E. destruct E as (x & Hx & E).
    apply String.eqb_eq in E. subst x. rewrite (Hseen c Hx). now apply IH.
  - cbn [find]. destruct (p c) eqn:Pc; [reflexivity|].
    apply IH. intros x [<-|Hx]; [exact Pc | now apply Hseen].
Qed.

Lemma find_labelled {X Y} (f : X -> Y) (q : Y -> bool) (l : list X) :
  option_map fst (find (fun pr => q (snd pr)) (map (fun c => (c, f c)) l))
  = find (fun c => q (f c)) l.
Proof.
  induction l as [|x l IH]; [reflexivity|]. cbn.
  destruct (q (f x)); [reflexivity | exact IH].
Qed.

Lemma find_split {X} (p : X -> bool) (l : list X) (x : X) :
  find p l = Some x ->
  exists l1 l2, l = l1 ++ x :: l2 /\ p x = true /\
                forall y, In y l1 -> p y = false.
Proof.
  induction l as [|a l IH]; [discriminate|]. cbn.
  destruct (p a) eqn:Pa.
  - intros [= ->]. exists [], l. repeat split; trivial. intros y [].
  - intros H. destruct (IH H) as (l1 & l2 & -> & Px & Hl1).
    exists (a :: l1), l2. repeat split; trivial.
    intros y [<-|Hy]; [exact Pa | now apply Hl1].
Qed.

Lemma first_some_split {X Y} (f : X -> option Y) (l : list X) (y : Y) :
  first_some f l = Some y ->
  exists l1 x l2, l = l1 ++ x :: l2 /\ f x = Some y /\
                  forall x', In x' l1 -> f x' = None.
Proof.
  induction l as [|a l IH]; [discriminate|]. cbn.
  destruct (f a) as [y'|] eqn:Fa.
  - intros [= ->]. exists [], a, l. repeat split; trivial. intros x' [].
  - intros H. destruct (IH H) as (l1 & x & l2 & -> & Fx & Hl1).
    exists (a :: l1), x, l2. repeat split; trivial.
    intros x' [<-|Hx']; [exact Fa | now apply Hl1].
Qed.

Lemma first_some_none {X Y} (f : X -> option Y) (l : list X) :
  first_some f l = None <-> forall x, In x l -> f x = None.
Proof.
  induction l as [|a l IH]; cbn.
  - split; [intros _ x [] | reflexivity].
  - destruct (f a) as [y|] eqn:Fa.
    + split; [discriminate|]. intros H. specialize (H a (or_introl eq_refl)).
      congruence.
    + rewrite IH. split.
      * intros H x [<-|Hx]; [exact Fa | now apply H].
      * intros H x Hx. apply H. now right.
Qed.

Lemma best_col_spec (cols hints : list string) :
  _best_col cols hints
  = first_some (fun h => find (hint_matches h) cols) hints.
Proof.
  unfold _best_col. induction hints as [|h hints IH]; [reflexivity|].
  cbn [first_some]. rewrite IH.
  rewrite (find_labelled _normalize_col (Py.contains h)).
  rewrite find_dict_keys by (intros x []). reflexivity.
Qed.

(** X15: [_best_col] goes by the order of the hints first and of the columns
    second: it returns the first column that the earliest matching hint
    matches, and [None] exactly when no hint occurs in any normalised
    label.  Building the dict of the labels first changes nothing, also
    when labels repeat. *)
Theorem best_col_first_hint (cols hints : list string) :
  _best_col cols hints
  = first_some (fun h => find (hint_matches h) cols) hints /\
  (_best_col cols hints = None <->
   forall h c, In h hints -> In c cols -> hint_matches h c = false) /\
  (forall c,
      _best_col cols hints = Some c ->
      exists hs1 h hs2 cs1 cs2,
        hints = hs1 ++ h :: hs2 /\ cols = cs1 ++ c :: cs2 /\
        hint_matches h c = true /\
        (forall c', In c' cs1 -> hint_matches h c' = false) /\
        (forall h' c', In h' hs1 -> In c' cols -> hint_matches h' c' = false)).
Proof.
  split; [apply best_col_spec|]. rewrite best_col_spec. split.
  - rewrite first_some_none. split.
    + intros H h c Hh Hc. exact (find_none _ _ (H h Hh) c Hc).
    + intros H h Hh. destruct (find (hint_matches h) cols) as [c|] eqn:F;
        [|reflexivity].
      apply find_some in F. destruct F as [Hc Hm].
      rewrite (H h c Hh Hc) in Hm. discriminate.
  - intros c H. apply first_some_split in H.
    destruct H as (hs1 & h & hs2 & -> & Hf & Hnone).
    apply find_split in Hf. destruct Hf as (cs1 & cs2 & -> & Hm & Hcs1).
    exists hs1, h, hs2, cs1, cs2. repeat split; trivial.
    intros h' c' Hh' Hc'. exact (find_none _ _ (Hnone h' Hh') c' Hc').
Qed.

(** ** The lists of top_transactions are the largest rows *)

Lemma StronglySorted_app_inv {X} (R : X -> X -> Prop) (l1 l2 : list X) :
  StronglySorted R (l1 ++ l2) ->
  forall x y, In x l1 -> In y l2 -> R x y.
Proof.
  induction l1 as [|a l1 IH]; intros Hs x y Hx Hy; [destruct Hx|].
  cbn in Hs. inversion_clear Hs as [|? ? Hs' Hall].
  destruct Hx as [<-|Hx]; [|now apply IH].
  rewrite Forall_forall in Hall. apply Hall, in_or_app. now right.
Qed.

Lemma firstn_dominates {X} (R : X -> X -> Prop) (k : nat) (l : list X) :
  (forall x y z, R x y -> R y z -> R x z) ->
  Sorted R l ->
  forall x y, In x (firstn k l) -> In y (skipn k l) -> R x y.
Proof.
  intros Htr Hs. apply StronglySorted_app_inv.
  rewrite firstn_skipn. apply Sorted_StronglySorted; [|exact Hs].
  intros x y z. apply Htr.
Qed.

Section TopRows.

Context (S : Sorter) (p : FinanceParseResult float) (k : nat).

Lemma top_side_largest (sign : float -> bool) (asc : bool) :
  (forall x, sign x = true -> PrimFloat.is_nan x = false) ->
  let side := filter (fun r => sign (tx_amount r)) (base_rows S p) in
  let sorted := sort_values S (by_tx_amount binary64) asc side in
  Permutation (firstn k sorted ++ skipn k sorted) side /\
  (forall x y, In x (firstn k sorted) -> In y (skipn k sorted) ->
               if asc then (tx_amount x <=? tx_amount y)%float = true
               else (tx_amount y <=? tx_amount x)%float = true) /\
  ((length side <= k)%nat -> firstn k sorted = sorted).
Proof.
  intros Hsign side sorted.
  assert (Hf : Forall (fun r => PrimFloat.is_nan (tx_amount r) = false) side).
  { apply Forall_forall. intros r Hr. apply filter_In in Hr.
    now apply Hsign. }
  destruct (signed_amounts_ordered side Hf) as [Htot Htr].
  split; [|split].
  - rewrite firstn_skipn. apply sort_values_perm.
  - destruct asc.
    + apply (firstn_dominates
               (fun a b => (tx_amount a <=? tx_amount b)%float = true)).
      * intros x y z. apply leb_trans.
      * now apply sort_values_ascending.
    + apply (firstn_dominates
               (fun a b => (tx_amount b <=? tx_amount a)%float = true)).
      * intros x y z H1 H2. exact (leb_trans _ _ _ H2 H1).
      * now apply sort_values_descending.
  - intros Hk. apply firstn_all2.
    unfold sorted. now rewrite (Permutation_length (sort_values_perm S _ asc side)).
Qed.

End TopRows.

(** X16: For [n >= 0] the two lists of [top_transactions] are the largest
    rows: the rows of positive amount are the income list and a rest
    whose amounts are all at most those listed, the rows of negative
    amount the expense list and a rest whose amounts are all at least
    those listed; when there are no more than [n] rows of a sign, all of
    them are listed.  No row is in both lists. *)
Theorem top_transactions_largest (S : Sorter) (p : FinanceParseResult float)
    (n : Z) :
  0 <= n ->
  let base := base_rows S p in
  let incomes := filter (fun r => positive binary64 (tx_amount r)) base in
  let expenses := filter (fun r => negative binary64 (tx_amount r)) base in
  let income := fst (top_transactions binary64 S p n) in
  let expense := snd (top_transactions binary64 S p n) in
  (exists rest,
      Permutation (income ++ rest) incomes /\
      forall x y, In x income -> In y rest ->
                  (tx_amount y <=? tx_amount x)%float = true) /\
  (exists rest,
      Permutation (expense ++ rest) expenses /\
      forall x y, In x expense -> In y rest ->
                  (tx_amount x <=? tx_amount y)%float = true) /\
  (Z.of_nat (length incomes) <= n -> Permutation income incomes) /\
  (Z.of_nat (length expenses) <= n -> Permutation expense expenses) /\
  (forall x, In x income -> ~ In x expense).
Proof.
  intros Hn base incomes expenses income expense.
  unfold income, expense, top_transactions. cbn [fst snd].
  rewrite !(head_nonneg n _ Hn).
  destruct (top_side_largest S p (Z.to_nat n) (positive binary64) false)
    as (I1 & I2 & I3); [intros x; apply ltb_not_nan_r|].
  destruct (top_side_largest S p (Z.to_nat n) (negative binary64) true)
    as (E1 & E2 & E3); [intros x; apply ltb_not_nan_l|].
  split; [eexists; split; [exact I1 | exact I2]|].
  split; [eexists; split; [exact E1 | exact E2]|].
  split; [|split].
  - intros H. rewrite I3 by (fold base; fold incomes; lia).
    apply sort_values_perm.
  - intros H. rewrite E3 by (fold base; fold expenses; lia).
    apply sort_values_perm.
  - intros x Hi He.
    apply firstn_incl in Hi, He.
    apply (Permutation_in _ (sort_values_perm S _ _ _)) in Hi, He.
    apply filter_In in Hi, He. destruct Hi as [_ Hi], He as [_ He].
    unfold positive, negative in *. cbn in Hi, He.
    pose proof (ltb_not_nan_r _ _ Hi) as Hnan.
    revert Hi He. rewrite !ltb_spec.
    unfold SFltb, SFcompare.
    destruct (Prim2SF (tx_amount x)) as [[]|[]| |[] m e];
      cbn; congruence.
Qed.

Lemma top_transactions_largest_witness :
  exists rest,
    Permutation
      (fst (top_transactions binary64 insertion_sorter four_rows 2) ++ rest)
      (filter (fun r => positive binary64 (tx_amount r))
              (base_rows insertion_sorter four_rows)) /\
    forall x y,
      In x (fst (top_transactions binary64 insertion_sorter four_rows 2)) ->
      In y rest -> (tx_amount y <=? tx_amount x)%float = true.
Proof.
  apply (top_transactions_largest insertion_sorter four_rows 2). lia.
Defined.

(** ** pie_breakdown and category_breakdown *)

Lemma dedupe_spec (l : list string) :
  forall seen,
    NoDup (dedupe seen l) /\
    (forall x, In x (dedupe seen l) <-> In x l /\ ~ In x seen).
Proof.
  induction l as [|a l IH]; intros seen; cbn [dedupe].
  - split; [constructor|]. intros x. cbn. tauto.
  - destruct (existsb (String.eqb a) seen) eqn:E.
    + destruct (IH seen) as [Hnd Hin]. split; [exact Hnd|].
      intros x. rewrite Hin. cbn [In].
      apply existsb_exists in E. destruct E as (y & Hy & E).
      apply String.eqb_eq in E. subst y.
      split; [tauto|]. intros [[<-|H] Hs]; [contradiction | tauto].
    + destruct (IH (a :: seen)) as [Hnd Hin].
      assert (Ha : ~ In a seen).
      { intros Ha. rewrite <- Bool.not_true_iff_false in E. apply E.
        apply existsb_exists. exists a. split; [exact Ha|].
        apply String.eqb_refl. }
      split.
      * constructor; [|exact Hnd]. rewrite Hin. cbn. tauto.
      * intros x. cbn [In]. rewrite Hin. cbn [In].
        split.
        -- intros [<-|[H1 H2]]; [tauto|]. split; [tauto|]. tauto.
        -- intros [[<-|H] Hs]; [now left|].
           destruct (string_dec a x) as [->|Hne]; [now left|]. right.
           split; [exact H|]. intros [?|?]; contradiction.
Qed.

Lemma dropna_In (s : list cell) (x : string) :
  In x (dropna s) <-> In (Some x) s.
Proof.
  induction s as [|[y|] s IH]; cbn; [tauto| |].
  - rewrite IH. split; intros [H|H]; auto; left; congruence.
  - rewrite IH. split; [auto|]. intros [H|H]; [discriminate | exact H].
Qed.

Lemma group_keys_spec (keys : list cell) :
  NoDup (group_keys keys) /\
  (forall x, In x (group_keys keys) <-> In (Some x) keys).
Proof.
  unfold group_keys.
  pose proof (sort_perm insertion_sorter string String.leb
                        (dedupe [] (dropna keys))) as Hperm.
  change (sort insertion_sorter string String.leb (dedupe [] (dropna keys)))
    with (isort String.leb (dedupe [] (dropna keys))) in Hperm.
  destruct (dedupe_spec (dropna keys) []) as [Hnd Hin]. split.
  - eapply Permutation_NoDup; [symmetry; exact Hperm | exact Hnd].
  - intros x. rewrite <- dropna_In. split.
    + intros H. apply (Permutation_in _ Hperm) in H. now apply Hin in H.
    + intros H. apply (Permutation_in _ (Permutation_sym Hperm)).
      apply Hin. split; [exact H | intros []].
Qed.

Lemma sort_values_na_perm {N X} (A : Arith N) (S : Sorter) (key : X -> N)
    (asc : bool) (l : list X) :
  Permutation (sort_values_na A S key asc l) l.
Proof.
  unfold sort_values_na. rewrite sort_values_perm.
  induction l as [|x l IH]; [reflexivity|]. cbn [filter].
  destruct (isnan A (key x)); cbn [negb app].
  - rewrite <- Permutation_middle. now constructor.
  - now constructor.
Qed.

Lemma NoDup_firstn {X} (n : nat) (l : list X) : NoDup l -> NoDup (firstn n l).
Proof.
  intros H. rewrite <- (firstn_skipn n l) in H.
  now apply NoDup_app_remove_r in H.
Qed.

Lemma firstn_map {X Y} (f : X -> Y) (n : nat) (l : list X) :
  firstn n (map f l) = map f (firstn n l).
Proof.
  revert n. induction l as [|x l IH]; intros [|n]; cbn; [reflexivity..|].
  now rewrite IH.
Qed.

Lemma top_groups_spec {N} (A : Arith N) (S : Sorter) (top_n : Z)
    (rows : list (cell * N)) :
  0 <= top_n ->
  let out := top_groups A S top_n (groupby_sum A rows) in
  Z.of_nat (length out) <= top_n /\
  NoDup (map fst out) /\
  (forall l v,
      In (l, v) out ->
      In (Some l) (map fst rows) /\
      v = absv A (group_sum A (map snd (filter (fun r => in_group l (fst r))
                                               rows)))).
Proof.
  intros Hn out. unfold out, top_groups. rewrite head_nonneg by exact Hn.
  set (grp := map (fun g => (fst g, absv A (snd g))) (groupby_sum A rows)).
  pose proof (sort_values_na_perm A S (@snd string N) false grp) as Hperm.
  destruct (group_keys_spec (map fst rows)) as [Hnd Hin].
  assert (Hlabels : map fst grp = group_keys (map fst rows)).
  { unfold grp, groupby_sum. rewrite !map_map. cbn [fst].
    apply map_id. }
  split; [|split].
  - pose proof (firstn_le_length (Z.to_nat top_n)
                  (sort_values_na A S snd false grp)). lia.
  - rewrite <- firstn_map. apply NoDup_firstn.
    eapply Permutation_NoDup;
      [symmetry; apply Permutation_map; exact Hperm|].
    now rewrite Hlabels.
  - intros l v H. apply firstn_incl in H.
    apply (Permutation_in _ Hperm) in H.
    unfold grp, groupby_sum in H. rewrite map_map in H. cbn [fst snd] in H.
    apply in_map_iff in H. destruct H as (k & [= <- <-] & Hk).
    apply Hin in Hk. split; [exact Hk | reflexivity].
Qed.

Lemma combine_labels {N} (f : LedgerRow N -> cell) (rows : list (LedgerRow N)) :
  combine (map f rows) (map amount rows)
  = map (fun r => (f r, amount r)) rows.
Proof. induction rows as [|r rows IH]; cbn; [reflexivity | now rewrite IH]. Qed.

Lemma filter_labelled {N} (f : LedgerRow N -> cell) (q : cell -> bool)
    (rows : list (LedgerRow N)) :
  map snd (filter (fun r => q (fst r)) (map (fun r => (f r, amount r)) rows))
  = map amount (filter (fun r => q (f r)) rows).
Proof.
  induction rows as [|r rows IH]; cbn; [reflexivity|].
  destruct (q (f r)); cbn; now rewrite IH.
Qed.

(** What [pie_breakdown] groups: the rows with their labels. *)
Lemma pie_breakdown_groups {N} (A : Arith N) (S : Sorter)
    (p : FinanceParseResult N) (top_n : Z) (out : list (string * N))
    (title : string) :
  pie_breakdown A S p top_n = inr (out, title) ->
  out = top_groups A S top_n
          (groupby_sum A (map (fun r => (breakdown_label p r, amount r))
                              (ledger_rows (df p)))) /\
  title = (if truthy_opt (category_col p)
           then "By category (absolute amount)"
           else "By month (absolute amount)")%string.
Proof.
  unfold pie_breakdown, breakdown_label, with_title, grouped_amounts.
  destruct (truthy_opt (category_col p)) eqn:T.
  - destruct (category_col p) as [c|]; [|discriminate].
    unfold grouped_by_category, ledger_column, grouped_amounts.
    destruct (select _ _ c) as [keys| |] eqn:Sel; try discriminate.
    apply select_series in Sel. destruct Sel as (_ & i & -> & ->).
    destruct (occurrences _ _) as [|[|k]]; try discriminate.
    destruct (String.eqb c _); [discriminate|].
    rewrite map_map, combine_labels. intros [= <- <-]. split; reflexivity.
  - destruct (occurrences (datetime_col p) _) as [|[|k]]; try discriminate.
    destruct (2 <=? _)%nat; [discriminate|].
    destruct (String.eqb (amount_col p) "month");
      [destruct (ledger_rows (df p)); discriminate|].
    destruct (occurrences _ _) as [|[|k]]; try discriminate.
    destruct (String.eqb "month" _); [discriminate|].
    rewrite combine_labels. intros [= <- <-]. split; reflexivity.
Qed.

(** X17: [pie_breakdown] returns at most [top_n] rows, one for a group of
    rows of the frame and none twice; the value of a row is the absolute
    value of the sum of the amounts of its group, and the groups are the
    categories when a category column is set, the months otherwise. *)
Theorem pie_breakdown_rows {N} (A : Arith N) (S : Sorter)
    (p : FinanceParseResult N) (top_n : Z) (out : list (string * N))
    (title : string) :
  0 <= top_n ->
  pie_breakdown A S p top_n = inr (out, title) ->
  Z.of_nat (length out) <= top_n /\
  NoDup (map fst out) /\
  (forall l v,
      In (l, v) out ->
      v = absv A (group_total A p l) /\
      exists r, In r (ledger_rows (df p)) /\ breakdown_label p r = Some l) /\
  title = (if truthy_opt (category_col p)
           then "By category (absolute amount)"
           else "By month (absolute amount)")%string.
Proof.
  intros Hn H. apply pie_breakdown_groups in H. destruct H as [-> ->].
  destruct (top_groups_spec A S top_n
              (map (fun r => (breakdown_label p r, amount r))
                   (ledger_rows (df p))) Hn) as (H1 & H2 & H3).
  repeat split; trivial.
  - destruct (H3 l v H) as [_ ->]. unfold group_total.
    now rewrite (filter_labelled (breakdown_label p) (in_group l)).
  - destruct (H3 l v H) as [Hl _]. rewrite map_map in Hl. cbn [fst] in Hl.
    apply in_map_iff in Hl. destruct Hl as (r & Hr & Hin). now exists r.
Qed.

Lemma pie_breakdown_rows_witness :
  let out := [("Salary"%string, 200%float); ("Food"%string, 80%float)] in
  Z.of_nat (length out) <= 8 /\ NoDup (map fst out).
Proof.
  intros out.
  assert (H : pie_breakdown binary64 insertion_sorter scenario_result 8
              = inr (out, "By category (absolute amount)"%string))
    by (vm_compute; reflexivity).
  destruct (pie_breakdown_rows binary64 insertion_sorter scenario_result 8
              out "By category (absolute amount)" ltac:(lia) H)
    as (H1 & H2 & _).
  split; [exact H1 | exact H2].
Defined.

Lemma breakdowns_by_category {N} (A : Arith N) (S : Sorter)
    (p : FinanceParseResult N) (top_n : Z) (c : string) :
  category_col p = Some c -> Py.truthy c = true ->
  pie_breakdown A S p top_n
  = with_title "By category (absolute amount)"
               (grouped_by_category A S p c top_n) /\
  category_breakdown A S p top_n
  = with_title "Top categories (absolute amount)"
               (grouped_by_category A S p c top_n).
Proof.
  intros Hc Ht. unfold category_breakdown, pie_breakdown.
  rewrite Hc. cbn [truthy_opt]. rewrite Ht. cbn [negb]. split; reflexivity.
Qed.

(** The chain of calls on the groups of a category label, case by
    case. *)
Lemma grouped_by_category_cases {N} (A : Arith N) (S : Sorter)
    (p : FinanceParseResult N) (top_n : Z) (c : string) :
  let k := occurrences c (ledger_columns (df p)) in
  let m := occurrences (amount_col p) (ledger_columns (df p)) in
  let r := grouped_by_category A S p c top_n in
  (k = 0%nat -> r = inl (KeyError c)) /\
  ((2 <= k)%nat -> r = inl (grouper_not_1d c)) /\
  (k = 1%nat -> m = 0%nat -> r = inl (column_not_found (amount_col p))) /\
  (k = 1%nat -> (2 <= m)%nat -> r = inl sort_values_needs_by) /\
  (k = 1%nat -> m = 1%nat -> c = amount_col p ->
   r = inl (cannot_insert (amount_col p))) /\
  (k = 1%nat -> m = 1%nat -> c <> amount_col p -> exists out, r = inr out).
Proof.
  intros k m r. subst k m r.
  unfold grouped_by_category, ledger_column, grouped_amounts.
  pose proof (select_cases (ledger_columns (df p))
                (map cells (ledger_rows (df p))) c) as Hsel.
  destruct (select _ _ c) as [keys|rows|].
  - rewrite Hsel.
    destruct (occurrences (amount_col p) _) as [|[|m]];
      (repeat split; intros; try lia; try reflexivity).
    + subst c. now rewrite String.eqb_refl.
    + destruct (String.eqb_spec c (amount_col p)); [contradiction | eauto].
  - repeat split; intros; try lia; reflexivity.
  - repeat split; intros; try lia; reflexivity.
Qed.

Lemma category_breakdown_cases {N} (A : Arith N) (S : Sorter)
    (p : FinanceParseResult N) (top_n : Z) (c : string) :
  category_col p = Some c -> Py.truthy c = true ->
  let k := occurrences c (ledger_columns (df p)) in
  let m := occurrences (amount_col p) (ledger_columns (df p)) in
  (k = 0%nat -> both_raise A S p top_n (KeyError c)) /\
  ((2 <= k)%nat -> both_raise A S p top_n (grouper_not_1d c)) /\
  (k = 1%nat -> m = 0%nat ->
   both_raise A S p top_n (column_not_found (amount_col p))) /\
  (k = 1%nat -> (2 <= m)%nat ->
   both_raise A S p top_n sort_values_needs_by) /\
  (k = 1%nat -> m = 1%nat -> c = amount_col p ->
   both_raise A S p top_n (cannot_insert (amount_col p))) /\
  (k = 1%nat -> m = 1%nat -> c <> amount_col p ->
   both_return A S p top_n).
Proof.
  intros Hc Ht k m.
  destruct (breakdowns_by_category A S p top_n c Hc Ht) as [Hp Hb].
  destruct (grouped_by_category_cases A S p top_n c)
    as (H0 & H2 & H10 & H12 & H11 & Hok).
  unfold both_raise, both_return. rewrite Hp, Hb.
  repeat split; intros;
    try (rewrite H0 by assumption; reflexivity);
    try (rewrite H2 by assumption; reflexivity);
    try (rewrite H10 by assumption; reflexivity);
    try (rewrite H12 by assumption; reflexivity);
    try (rewrite H11 by assumption; reflexivity).
  destruct Hok as [out ->]; trivial. exists out. split; reflexivity.
Qed.

(** X18: [category_breakdown] returns an empty frame and an empty title
    when no category column is set.  Otherwise it does what
    [pie_breakdown] does, with another title: both return the same rows
    when one column carries the category label and another one the
    amount label, and both raise the same exception otherwise:
    [KeyError] without a column of that label, [ValueError] when several
    carry it (the grouper is not one-dimensional); then [KeyError]
    without a column of amounts and [TypeError] with several of them
    ([sort_values] of a frame wants [by]), and [ValueError] when the
    category label is the amount label ([reset_index] cannot insert
    it). *)
Theorem category_breakdown_agrees {N} (A : Arith N) (S : Sorter)
    (p : FinanceParseResult N) (top_n : Z) :
  (truthy_opt (category_col p) = false ->
   category_breakdown A S p top_n = inr ([], EmptyString)) /\
  (forall c,
      category_col p = Some c -> Py.truthy c = true ->
      let k := occurrences c (ledger_columns (df p)) in
      let m := occurrences (amount_col p) (ledger_columns (df p)) in
      (k = 0%nat -> both_raise A S p top_n (KeyError c)) /\
      ((2 <= k)%nat -> both_raise A S p top_n (grouper_not_1d c)) /\
      (k = 1%nat -> m = 0%nat ->
       both_raise A S p top_n (column_not_found (amount_col p))) /\
      (k = 1%nat -> (2 <= m)%nat ->
       both_raise A S p top_n sort_values_needs_by) /\
      (k = 1%nat -> m = 1%nat -> c = amount_col p ->
       both_raise A S p top_n (cannot_insert (amount_col p))) /\
      (k = 1%nat -> m = 1%nat -> c <> amount_col p ->
       both_return A S p top_n)).
Proof.
  split.
  - intros H. unfold category_breakdown. now rewrite H.
  - intros c. apply category_breakdown_cases.
Qed.

(** The breakdowns of the example, and of the same rows under labels
    that the two functions cannot handle. *)
Example category_breakdown_examples :
  both_return binary64 insertion_sorter scenario_result 8 /\
  both_raise binary64 insertion_sorter
    {| df := {| ledger_columns := ["Date"; "Amount"; "Category"; "Category"];
                ledger_rows := ledger_rows (df scenario_result) |};
       datetime_col := "Date"; amount_col := "Amount";
       category_col := Some "Category" |}%string 8
    (grouper_not_1d "Category").
Proof. split; [eexists|]; split; vm_compute; reflexivity. Qed.

(** On a result of the parser with one amount column, the fall-back of
    [pie_breakdown] by month. *)
Lemma pie_breakdown_by_month {N} (A : Arith N) (S : Sorter)
    (p : FinanceParseResult N) (top_n : Z) :
  truthy_opt (category_col p) = false ->
  occurrences (datetime_col p) (ledger_columns (df p)) = 1%nat ->
  occurrences (amount_col p) (ledger_columns (df p)) = 1%nat ->
  ledger_rows (df p) <> [] ->
  let k := occurrences "month" (ledger_columns (df p)) in
  ((2 <= k)%nat -> pie_breakdown A S p top_n = inl (grouper_not_1d "month")) /\
  ((k <= 1)%nat -> amount_col p = "month"%string ->
   pie_breakdown A S p top_n = inl abs_of_str) /\
  ((k <= 1)%nat -> amount_col p <> "month"%string ->
   exists out,
     pie_breakdown A S p top_n = inr (out, "By month (absolute amount)"%string)).
Proof.
  intros T Hdt Hamt Hrows k. subst k.
  unfold pie_breakdown, grouped_amounts, with_title. rewrite T, Hdt, Hamt.
  destruct (Nat.leb_spec 2 (occurrences "month" (ledger_columns (df p))))
    as [L|L].
  - repeat split; intros; try lia; reflexivity.
  - repeat split; intros; try lia.
    + match goal with H : amount_col p = _ |- _ => rewrite H end.
      cbn [String.eqb Ascii.eqb Bool.eqb andb].
      destruct (ledger_rows (df p)); [contradiction | reflexivity].
    + destruct (String.eqb_spec (amount_col p) "month"); [contradiction|].
      destruct (String.eqb_spec "month" (amount_col p)) as [E|_];
        [symmetry in E; contradiction | eauto].
Qed.

(** X19: The breakdowns of what [parse_financial_tables] returns, for a
    result with one amount column.  With a category label: both
    breakdowns return the same rows when one column carries the label,
    and both raise [ValueError] when several do.  Without one (none
    found, or the empty label): [category_breakdown] returns its empty
    frame, and [pie_breakdown] groups by month, unless the frame has two
    columns labelled [month] ([ValueError]) or its amounts are the
    column labelled [month], which the months overwrite
    ([TypeError]). *)
Theorem breakdowns_of_parsed (P : DatetimeParser)
    (tables : list RawGrid) (r : FinanceParseResult float)
    (S : Sorter) (top_n : Z) :
  parse_financial_tables P tables = Returns (Some (OneAmount r)) ->
  let cols := ledger_columns (df r) in
  (forall c,
      category_col r = Some c -> Py.truthy c = true ->
      (occurrences c cols = 1%nat -> both_return binary64 S r top_n) /\
      (occurrences c cols <> 1%nat ->
       both_raise binary64 S r top_n (grouper_not_1d c))) /\
  (truthy_opt (category_col r) = false ->
   category_breakdown binary64 S r top_n = inr ([], EmptyString) /\
   ((2 <= occurrences "month" cols)%nat ->
    pie_breakdown binary64 S r top_n = inl (grouper_not_1d "month")) /\
   ((occurrences "month" cols <= 1)%nat -> amount_col r = "month"%string ->
    pie_breakdown binary64 S r top_n = inl abs_of_str) /\
   ((occurrences "month" cols <= 1)%nat -> amount_col r <> "month"%string ->
    exists out,
      pie_breakdown binary64 S r top_n
      = inr (out, "By month (absolute amount)"%string))).
Proof.
  intros H cols. subst cols. apply parsed_columns in H.
  destruct H as (_ & _ & Hne & H3 & Hcat & Hdt & Hamt & _).
  cbn [parsed_datetime_col parsed_amount_col parsed_labels parsed_rows
       parsed_category_col] in *.
  split.
  - intros c Hc Ht.
    destruct (category_breakdown_cases binary64 S r top_n c Hc Ht)
      as (_ & H2 & _ & _ & _ & Hok).
    destruct (Hcat c Hc) as (Hin & _ & Hca).
    apply occurrences_In in Hin.
    split.
    + intros H1. now apply Hok.
    + intros H1. apply H2. lia.
  - intros T. split; [unfold category_breakdown; now rewrite T|].
    apply pie_breakdown_by_month; trivial.
    unfold nrows in H3.
    destruct (ledger_rows (df r)); [cbn in H3; lia | discriminate].
Qed.

Lemma breakdowns_of_parsed_witness :
  both_return binary64 insertion_sorter scenario_result 8.
Proof.
  destruct (breakdowns_of_parsed iso_dates [scenario_grid] scenario_result
              insertion_sorter 8 ltac:(vm_compute; reflexivity)) as [H _].
  destruct (H "Category"%string eq_refl eq_refl) as [H1 _].
  apply H1. reflexivity.
Defined.

(** Two grids whose results [pie_breakdown] cannot chart: amounts under
    the label [month], and two columns labelled Category. *)
Example breakdowns_that_raise :
  (exists r,
      parse_financial_tables iso_dates
        [[[Some "month"; Some "date"];
          [Some "10"; Some "2024-01-05"];
          [Some "20"; Some "2024-01-06"];
          [Some "30"; Some "2024-02-01"]]]%string
      = Returns (Some (OneAmount r)) /\
      amount_col r = "month"%string /\
      pie_breakdown binary64 insertion_sorter r 8 = inl abs_of_str) /\
  (exists r,
      parse_financial_tables iso_dates
        [[[Some "Date"; Some "Amount"; Some "Category"; Some "Category"];
          [Some "2024-01-05"; Some "-50.00"; Some "Food"; Some "a"];
          [Some "2024-01-06"; Some "200.00"; Some "Salary"; Some "b"];
          [Some "2024-02-01"; Some "-30.00"; Some "Food"; Some "c"]]]%string
      = Returns (Some (OneAmount r)) /\
      both_raise binary64 insertion_sorter r 8 (grouper_not_1d "Category")).
Proof.
  split; eexists; (split; [vm_compute; reflexivity|]);
    repeat split; vm_compute; reflexivity.
Qed.

Lemma abs_not_negative (v : float) : (abs v <? 0)%float = false.
Proof.
  rewrite ltb_spec, abs_spec.
  now destruct (Prim2SF v) as [[]| [] | |[] m e].
Qed.

(** X20: In binary64 the values of [pie_breakdown] are never negative and
    come largest first: the rows whose value is a number are in
    non-increasing order of value, and rows whose value is not a number
    come after them. *)
Theorem pie_breakdown_largest_first (S : Sorter)
    (p : FinanceParseResult float) (top_n : Z)
    (out : list (string * float)) (title : string) :
  0 <= top_n ->
  pie_breakdown binary64 S p top_n = inr (out, title) ->
  (forall l v, In (l, v) out -> (v <? 0)%float = false) /\
  exists nums nans,
    out = nums ++ nans /\
    Forall (fun g => PrimFloat.is_nan (snd g) = false) nums /\
    Forall (fun g => PrimFloat.is_nan (snd g) = true) nans /\
    Sorted (fun a b => (snd b <=? snd a)%float = true) nums.
Proof.
  intros Hn H. apply pie_breakdown_groups in H. destruct H as [-> _].
  unfold top_groups. rewrite head_nonneg by exact Hn.
  set (grp := map (fun g => (fst g, absv binary64 (snd g))) _).
  split.
  - intros l v H. apply firstn_incl in H.
    apply (Permutation_in _ (sort_values_na_perm binary64 S snd false grp)) in H.
    apply in_map_iff in H. destruct H as (g & [= _ <-] & _).
    apply abs_not_negative.
  - unfold sort_values_na. rewrite firstn_app.
    set (numbers := filter (fun x => negb (isnan binary64 (snd x))) grp).
    assert (Hnum : forall g, In g numbers -> PrimFloat.is_nan (snd g) = false).
    { intros g Hg. apply filter_In in Hg. destruct Hg as [_ Hg].
      now apply negb_true_iff in Hg. }
    eexists. eexists. split; [reflexivity|]. split; [|split].
    + apply Forall_forall. intros g Hg. apply firstn_incl in Hg.
      apply (Permutation_in _ (sort_values_perm S _ false numbers)) in Hg.
      now apply Hnum.
    + apply Forall_forall. intros g Hg. apply firstn_incl in Hg.
      apply filter_In in Hg. tauto.
    + apply Sorted_firstn.
      apply (sort_values_descending S
               (fun x y : string * float => leb binary64 (snd x) (snd y))).
      * intros x y Hx Hy. apply leb_total; now apply Hnum.
      * intros x y z _ _ _. apply leb_trans.
Qed.

Lemma pie_breakdown_largest_first_witness :
  let out := [("Salary"%string, 200%float); ("Food"%string, 80%float)] in
  exists nums nans,
    out = nums ++ nans /\
    Forall (fun g => PrimFloat.is_nan (snd g) = false) nums /\
    Forall (fun g => PrimFloat.is_nan (snd g) = true) nans /\
    Sorted (fun a b => (snd b <=? snd a)%float = true) nums.
Proof.
  intros out.
  assert (H : pie_breakdown binary64 insertion_sorter scenario_result 8
              = inr (out, "By category (absolute amount)"%string))
    by (vm_compute; reflexivity).
  destruct (pie_breakdown_largest_first insertion_sorter scenario_result 8
              out "By category (absolute amount)" ltac:(lia) H)
    as (_ & H2).
  exact H2.
Defined.

(** ** aggregate_finance loses no amount *)









(** ** app.py: from the PDF to the index *)

Lemma search_texts (F : Faiss) (self : FaissIndex) (q : vector) (k : Z)
    (r : RetrievedPassage) :
  In r (fst (FaissIndex_search F self q k)) -> In (text r) (_passages self).
Proof.
  intros Hr.
  destruct (search_spec F self q k) as (_ & Htexts & _).
  cbv zeta in Htexts.
  assert (H : In (Some (text r))
                 (map (fun r => Some (text r))
                      (fst (FaissIndex_search F self q k))))
    by (apply in_map_iff; now exists r).
  rewrite Htexts in H. apply in_map_iff in H.
  destruct H as (h & Hh & _).
  now apply nth_error_In in Hh.
Qed.

(** X22: Reading an uploaded PDF: the passages of the pages within the limit
    are always found, each a chunk of 1 to 1200 characters under the
    number of a page of the PDF.  A PDF without text within the limit
    has no passages, and the rebuild raises [IndexError].  Otherwise
    what happens lies with the embedder's array: with two axes and one
    row for each passage the index is built, holds exactly these
    passages, and whatever is retrieved from it later is one of them;
    with one axis the rebuild raises [IndexError]. *)
Theorem rebuild_indexes_the_pages (E : Embedder) (F : Faiss)
    (pdf : list PdfPage) (max_pages : Z) :
  exists (fuel : nat) (passages : list string),
    (forall fuel', (fuel <= fuel')%nat ->
       page_chunks_to_passages fuel' (extract_pdf_text pdf (Some max_pages))
       = Returns (Finished passages)) /\
    (extract_pdf_text pdf (Some max_pages) = [] ->
     passages = [] /\
     forall fuel',
       rebuild fuel' E pdf max_pages
       = Raises (IndexError "tuple index out of range")) /\
    (forall s, In s passages ->
       exists i pg c,
         nth_error pdf i = Some pg /\
         Z.of_nat i < page_limit (length pdf) (Some max_pages) /\
         s = page_tag (Z.of_nat i + 1) c /\
         0 < strlen c <= 1200) /\
    (forall elems,
       embed E passages = Array1 elems ->
       forall fuel', (fuel <= fuel')%nat ->
         rebuild fuel' E pdf max_pages
         = Raises (IndexError "tuple index out of range")) /\
    (forall a,
       embed E passages = Array2 a -> shape0 a = length passages ->
       exists index,
         (forall fuel', (fuel <= fuel')%nat ->
            rebuild fuel' E pdf max_pages
            = Returns (Finished (passages, index))) /\
         _passages index = passages /\
         size index = length passages /\
         (forall q k r,
            In r (fst (FaissIndex_search F index q k)) ->
            In (text r) passages)).
Proof.
  destruct (page_chunks_run (extract_pdf_text pdf (Some max_pages)))
    as (fuel & chunks & Hrun & Hall).
  set (pages := extract_pdf_text pdf (Some max_pages)) in *.
  set (passages :=
         concat (map (fun pc => map (page_tag (PdfPageChunk.page (fst pc)))
                                    (snd pc))
                     (combine pages chunks))) in *.
  destruct (build_index_spec E passages) as (_ & Hflat & Hok).
  exists fuel, passages. split; [exact Hrun|].
  split; [|split; [|split]].
  - intros Hnil. split; [unfold passages; now rewrite Hnil|].
    intros fuel'. unfold rebuild. fold pages. rewrite Hnil.
    cbn [page_chunks_to_passages].
    now rewrite (proj1 (build_index_spec E []) eq_refl).
  - intros s Hs. unfold passages in Hs. apply in_concat in Hs.
    destruct Hs as (l & Hl & Hs). apply in_map_iff in Hl.
    destruct Hl as ([pg cs] & <- & Hpc). cbn [fst snd] in Hs.
    apply in_map_iff in Hs. destruct Hs as (c & <- & Hc).
    assert (Hpg : In pg pages) by (eapply in_combine_l; exact Hpc).
    assert (Hlen : 0 < strlen c <= 1200).
    { clear - Hall Hpc Hc. revert chunks Hall Hpc.
      induction pages as [|p0 ps IH]; intros chunks Hall Hpc;
        [destruct Hpc|].
      inversion Hall as [|? ? ? ? (_ & Hcs & _) Hrest]; subst.
      destruct Hpc as [[= <- <-]|Hpc].
      - rewrite Forall_forall in Hcs. now apply Hcs.
      - now apply (IH l'). }
    destruct (extract_pdf_text_spec pdf (Some max_pages)) as (_ & Hin & _).
    apply Hin in Hpg. destruct Hpg as (i & page & Hi & Hlim & Hpage & _).
    exists i, page, c. rewrite <- Hpage. auto.
  - intros elems He fuel' Hf. unfold rebuild. fold pages.
    rewrite (Hrun fuel' Hf). fold passages. now rewrite (Hflat elems He).
  - intros a Ha Hrows. destruct (Hok a Ha) as [Hret _].
    destruct (Hret Hrows) as (idx & Hidx & Hp & _ & _ & Hsize & _).
    exists idx. split; [|split; [|split]].
    + intros fuel' Hf. unfold rebuild. fold pages.
      rewrite (Hrun fuel' Hf). fold passages. now rewrite Hidx.
    + exact Hp.
    + exact Hsize.
    + intros q k r Hr. rewrite <- Hp. now apply (search_texts F idx q k).
Qed.

(** The two cases on a page with text and on a PDF without text. *)
Example rebuild_examples :
  (exists index,
      rebuild 1 constant_embedder
              [{| extract_text := Some "About the invoice"%string;
                  extract_tables := None |}] 5
      = Returns (Finished (["[page 1] About the invoice"%string], index))) /\
  rebuild 1 constant_embedder
          [{| extract_text := Some "   "%string; extract_tables := None |}] 5
  = Raises (IndexError "tuple index out of range").
Proof. split; [eexists|]; vm_compute; reflexivity. Qed.

(** ** The hinted column is the detected one *)

Lemma hint_matches_truthy (h c : string) :
  Py.truthy h = true -> hint_matches h c = true -> Py.truthy c = true.
Proof.
  intros Hh Hm. destruct c as [|a c]; [|reflexivity].
  destruct h as [|b h]; [discriminate|]. discriminate Hm.
Qed.

Lemma best_col_truthy (cols hints : list string) (c : string) :
  Forall (fun h => Py.truthy h = true) hints ->
  _best_col cols hints = Some c -> Py.truthy c = true.
Proof.
  intros Hh H. rewrite best_col_spec in H.
  apply first_some_ex in H. destruct H as (h & Hin & Hf).
  apply find_some in Hf. destruct Hf as [_ Hm].
  rewrite Forall_forall in Hh. exact (hint_matches_truthy h c (Hh h Hin) Hm).
Qed.

Lemma hints_not_empty :
  Forall (fun h => Py.truthy h = true) _AMOUNT_HINTS /\
  Forall (fun h => Py.truthy h = true) _DATE_HINTS /\
  Forall (fun h => Py.truthy h = true) _CATEGORY_HINTS.
Proof. repeat split; repeat constructor. Qed.

(** X23: A column whose label carries a hint is taken, whatever its cells
    hold: when [_best_col] finds a column for the amount, date or
    category hints, [_detect_amount_col], [_detect_datetime_col] and
    [_detect_category_col] return that column, and the test [if hinted]
    never turns it down, since a label that carries a hint is not
    empty. *)
Theorem hinted_column_is_detected :
  (forall d c,
      _best_col (columns d) _AMOUNT_HINTS = Some c ->
      _detect_amount_col d = Returns (Some c)) /\
  (forall P d c,
      _best_col (columns d) _DATE_HINTS = Some c ->
      _detect_datetime_col P d = Returns (Some c)) /\
  (forall (lf : Ledger float) exclude c,
      _best_col (filter (fun x => negb (existsb (String.eqb x) exclude))
                        (ledger_columns lf)) _CATEGORY_HINTS = Some c ->
      _detect_category_col lf exclude = Returns (Some c) /\ ~ In c exclude).
Proof.
  destruct hints_not_empty as (Ha & Hd & Hc).
  split; [|split].
  - intros d c H. unfold _detect_amount_col. rewrite H. cbn [truthy_opt].
    rewrite (best_col_truthy _ _AMOUNT_HINTS c Ha H). reflexivity.
  - intros P d c H. unfold _detect_datetime_col. rewrite H. cbn [truthy_opt].
    rewrite (best_col_truthy _ _DATE_HINTS c Hd H). reflexivity.
  - intros lf exclude c H.
    assert (E : _detect_category_col lf exclude = Returns (Some c)).
    { unfold _detect_category_col. rewrite H. cbn [truthy_opt].
      rewrite (best_col_truthy _ _CATEGORY_HINTS c Hc H). reflexivity. }
    split; [exact E|]. now apply detect_category_col_in in E.
Qed.

(** ** A misspelt request for a summary *)

Lemma lower_append (a b : string) :
  Py.lower (a ++ b) = (Py.lower a ++ Py.lower b)%string.
Proof. induction a as [|c a IH]; cbn; [reflexivity | now rewrite IH]. Qed.

Lemma join_In (sep x : string) (l : list string) :
  In x l -> exists p t, Py.join sep l = (p ++ x ++ t)%string.
Proof.
  unfold Py.join. induction l as [|y l IH]; [intros []|].
  intros [->|H].
  - destruct l as [|z l]; cbn [String.concat].
    + exists EmptyString, EmptyString. cbn. now rewrite append_empty_r.
    + exists EmptyString. eexists. cbn [append]. reflexivity.
  - destruct (IH H) as (p & t & E).
    destruct l as [|z l]; [destruct H|].
    change (String.concat sep (y :: z :: l))
      with (y ++ sep ++ String.concat sep (z :: l))%string.
    rewrite E. exists (y ++ sep ++ p)%string, t.
    now rewrite !append_assoc3.
Qed.

Lemma contains_word (x sep : string) (l : list string) :
  In x l -> Py.contains (Py.lower x) (Py.lower (Py.join sep l)) = true.
Proof.
  intros H. destruct (join_In sep x l H) as (p & t & ->).
  rewrite !lower_append. apply contains_iff. eauto.
Qed.

(** X24: The corrections reach the summary test: a question with a word
    that is, in any case, [summery], [sumarize] or [summarise] is
    recognised as a request for a summary once it is normalised. *)
Theorem misspelt_summary_is_recognised (question w : string) :
  In w (Py.split_ws question) ->
  In (Py.lower w) ["summery"; "sumarize"; "summarise"]%string ->
  _wants_summary (normalize_user_question question) = true.
Proof.
  intros Hw Hl. rewrite normalize_user_question_spec.
  unfold _wants_summary, Py.contains_any, summary_keywords.
  cbn [List.existsb].
  set (ws := map correct_word (Py.split_ws question)).
  assert (Hc : In (correct_word w) ws) by now apply in_map.
  pose proof (contains_word (correct_word w) " " ws Hc) as H.
  unfold correct_word in H at 1.
  destruct Hl as [E|[E|[E|[]]]]; rewrite <- E in H.
  - change (Py.lower (dict_get _COMMON_CORRECTIONS "summery" w))
      with "summary"%string in H.
    rewrite H. now rewrite orb_true_r.
  - change (Py.lower (dict_get _COMMON_CORRECTIONS "sumarize" w))
      with "summarize"%string in H.
    now rewrite H.
  - change (Py.lower (dict_get _COMMON_CORRECTIONS "summarise" w))
      with "summarize"%string in H.
    now rewrite H.
Qed.

Lemma misspelt_summary_is_recognised_witness :
  _wants_summary (normalize_user_question "Give me a Summery") = true.
Proof.
  apply (misspelt_summary_is_recognised "Give me a Summery" "Summery").
  - vm_compute. tauto.
  - vm_compute. tauto.
Defined.

(** ** The prompt *)

Lemma contains_app_r (x s t : string) :
  Py.contains x t = true -> Py.contains x (s ++ t) = true.
Proof.
  intros H. apply contains_iff in H. destruct H as (p & u & ->).
  apply contains_iff. exists (s ++ p)%string, u. now rewrite append_assoc3.
Qed.

Lemma contains_app_l (x s t : string) :
  Py.contains x s = true -> Py.contains x (s ++ t) = true.
Proof.
  intros H. apply contains_iff in H. destruct H as (p & u & ->).
  apply contains_iff. exists p, (u ++ t)%string. now rewrite !append_assoc3.
Qed.

Lemma contains_prefix (x t : string) : Py.contains x (x ++ t) = true.
Proof. apply contains_iff. now exists EmptyString, t. Qed.

(** X25: The prompt built by [_build_llm_prompt] carries the question and
    every context passage, unchanged. *)
Theorem prompt_shows_question_and_passages (question : string)
    (context_passages : list string) :
  Py.contains question (_build_llm_prompt question context_passages) = true /\
  forall passage,
    In passage context_passages ->
    Py.contains passage (_build_llm_prompt question context_passages) = true.
Proof.
  unfold _build_llm_prompt. cbv zeta. split.
  - repeat first [apply contains_prefix | apply contains_app_r].
  - intros passage H.
    repeat match goal with
           | |- Py.contains _ (Py.join _ _ ++ _) = true => fail 1
           | |- _ => apply contains_app_r
           end.
    apply contains_app_l.
    destruct (join_In (nl ++ nl) passage context_passages H) as (p & t & ->).
    apply contains_iff. eauto.
Qed.

(** ** Incomes and expenses *)

Lemma positive_not_negative (x : float) :
  positive binary64 x = true -> negative binary64 x = false.
Proof.
  unfold positive, negative. cbn. rewrite !ltb_spec.
  unfold SFltb, SFcompare.
  destruct (Prim2SF x) as [[]|[]| |[] m e]; cbn; congruence.
Qed.

(** X26: No amount counts as income and as expense: the rows counted by
    [income_count] and [expense_count] are different rows, and together
    they are all rows exactly when no amount is zero or not a number. *)
Theorem income_and_expense_rows_differ (p : FinanceParseResult float) :
  let s := amounts p in
  (forall x, positive binary64 x = true -> negative binary64 x = false) /\
  (count_true (positive binary64) s + count_true (negative binary64) s
   <= nrows p)%nat /\
  (no_zero_rows binary64 p <->
   (count_true (positive binary64) s + count_true (negative binary64) s
    = nrows p)%nat).
Proof.
  intros s. split; [apply positive_not_negative|].
  unfold no_zero_rows, nrows, count_true. fold s.
  replace (length (ledger_rows (df p))) with (length s)
    by (unfold s, amounts; apply length_map).
  generalize s. clear. intros s.
  assert (Hle : forall l : list float,
             (length (filter (positive binary64) l)
              + length (filter (negative binary64) l) <= length l)%nat).
  { induction l as [|x l IH]; [reflexivity|]. cbn [filter].
    destruct (positive binary64 x) eqn:P.
    - rewrite (positive_not_negative x P). cbn [length]. lia.
    - destruct (negative binary64 x); cbn [length]; lia. }
  split; [apply Hle|].
  induction s as [|x s IH].
  - split; [reflexivity | constructor].
  - cbn [filter]. pose proof (Hle s) as Hs. split.
    + intros H. inversion_clear H as [|? ? Hx Hrest].
      apply IH in Hrest.
      destruct (positive binary64 x) eqn:P.
      * rewrite (positive_not_negative x P). cbn [length]. lia.
      * rewrite ?P in Hx. cbn [orb] in Hx. rewrite Hx. cbn [length]. lia.
    + destruct (positive binary64 x) eqn:P.
      * rewrite (positive_not_negative x P). cbn [length]. intros H.
        constructor; [now rewrite P | apply IH; lia].
      * destruct (negative binary64 x) eqn:Ng; cbn [length]; intros H.
        -- constructor; [now rewrite P, Ng | apply IH; lia].
        -- exfalso. lia.
Qed.
